(** * sql_query: a shallow embedding of [plugins/modules/sql_query.py]

    The module reconciles the rows of one table with a declared state.
    The Python code is embedded as Rocq functions:

    - Python values are the inductive [value]; dictionaries are
      insertion-ordered association lists ([dict]);
    - exceptions and [fail_json] are the [Err] results of an error
      monad; [datetime.now()] and statement execution are effects of a
      state monad [M] over a [world] (database, clock ticks, statement log);
    - the parts that live outside the repository (CPython's [strptime] and
      [int], SQLAlchemy's column operators) are fields of the classes
      [PyRuntime] and [SqlBackend].
*)

From Stdlib Require Import String Ascii List ZArith Bool Lia DecimalString.
Import ListNotations.
Open Scope string_scope.
Open Scope list_scope.

Set Implicit Arguments.
Set Warnings "-register-all".

(** ** Python data *)

Record date := Date { d_year : Z; d_month : Z; d_day : Z }.

Record datetime := DateTime {
  year : Z; month : Z; day : Z;
  hour : Z; minute : Z; second : Z; microsecond : Z }.

(** The raw and native values that travel through the module: YAML scalars
    and the date objects of the [datetime] module. *)
Inductive value :=
| VNone
| VBool (b : bool)
| VInt (z : Z)
| VStr (s : string)
| VDate (d : date)
| VDateTime (t : datetime).

Inductive exn := KeyError | ValueError | AttributeError | TypeError | DatabaseError.

(** How a call can stop early: [module.fail_json(msg=...)] or an exception
    that nothing catches. *)
Inductive failure :=
| FailJson (msg : string)
| Raised (e : exn).

Inductive result (A : Type) :=
| Ok (a : A)
| Err (f : failure).
Arguments Ok {A} a.
Arguments Err {A} f.

Definition rbind {A B} (r : result A) (k : A -> result B) : result B :=
  match r with
  | Ok a => k a
  | Err f => Err f
  end.

Notation "'let?' x ':=' r 'in' k" := (rbind r (fun x => k))
  (at level 10, x name, r at level 100, k at level 200).

(** *** Dictionaries

    A Python [dict] keeps insertion order; assigning to an existing key
    keeps the key's place. *)
Definition dict (V : Type) := list (string * V).

Fixpoint dget {V} (d : dict V) (k : string) : option V :=
  match d with
  | [] => None
  | (k', v) :: d' => if String.eqb k k' then Some v else dget d' k
  end.

Fixpoint dset {V} (d : dict V) (k : string) (v : V) : dict V :=
  match d with
  | [] => [(k, v)]
  | (k', v') :: d' =>
      if String.eqb k k' then (k', v) :: d' else (k', v') :: dset d' k v
  end.

Definition dkeys {V} (d : dict V) : list string := map fst d.

Definition dmem {V} (d : dict V) (k : string) : bool :=
  match dget d k with Some _ => true | None => false end.

(** [x in l] for a list of names. *)
Definition mem (k : string) (l : list string) : bool :=
  existsb (String.eqb k) l.

(** *** Equality of values *)

Definition date_eqb (a b : date) : bool :=
  (d_year a =? d_year b)%Z && (d_month a =? d_month b)%Z && (d_day a =? d_day b)%Z.

Definition datetime_eqb (a b : datetime) : bool :=
  (year a =? year b)%Z && (month a =? month b)%Z && (day a =? day b)%Z &&
  (hour a =? hour b)%Z && (minute a =? minute b)%Z && (second a =? second b)%Z &&
  (microsecond a =? microsecond b)%Z.

(** Python's [==]: [bool] is a subclass of [int], so [True == 1]; a
    [datetime] never equals a plain [date]; [None] equals only itself. *)
Definition py_eq (a b : value) : bool :=
  match a, b with
  | VNone, VNone => true
  | VBool x, VBool y => Bool.eqb x y
  | VBool x, VInt y => (Z.b2z x =? y)%Z
  | VInt x, VBool y => (x =? Z.b2z y)%Z
  | VInt x, VInt y => (x =? y)%Z
  | VStr x, VStr y => String.eqb x y
  | VDate x, VDate y => date_eqb x y
  | VDateTime x, VDateTime y => datetime_eqb x y
  | _, _ => false
  end.

Definition py_ne (a b : value) : bool := negb (py_eq a b).

(** Structural equality, used where the database compares stored cells. *)
Definition value_eqb (a b : value) : bool :=
  match a, b with
  | VNone, VNone => true
  | VBool x, VBool y => Bool.eqb x y
  | VInt x, VInt y => (x =? y)%Z
  | VStr x, VStr y => String.eqb x y
  | VDate x, VDate y => date_eqb x y
  | VDateTime x, VDateTime y => datetime_eqb x y
  | _, _ => false
  end.

(** *** Built-ins: [str], [bool], [str.strip] *)

Definition str_of_Z (z : Z) : string := NilZero.string_of_int (Z.to_int z).

Fixpoint zeros (n : nat) : string :=
  match n with
  | O => ""
  | S n' => String "0" (zeros n')
  end.

(** [%0<width>d] for a non-negative number. *)
Definition pad (width : nat) (z : Z) : string :=
  let s := str_of_Z z in
  zeros (width - String.length s) ++ s.

Definition isoformat_date (y m d : Z) : string :=
  pad 4 y ++ "-" ++ pad 2 m ++ "-" ++ pad 2 d.

Definition str_of_datetime (t : datetime) : string :=
  isoformat_date (year t) (month t) (day t) ++ " " ++
  pad 2 (hour t) ++ ":" ++ pad 2 (minute t) ++ ":" ++ pad 2 (second t) ++
  (if (microsecond t =? 0)%Z then "" else "." ++ pad 6 (microsecond t)).

(** [str(x)] *)
Definition py_str (x : value) : string :=
  match x with
  | VNone => "None"
  | VBool true => "True"
  | VBool false => "False"
  | VInt z => str_of_Z z
  | VStr s => s
  | VDate d => isoformat_date (d_year d) (d_month d) (d_day d)
  | VDateTime t => str_of_datetime t
  end.

(** [bool(x)] *)
Definition py_bool (x : value) : bool :=
  match x with
  | VNone => false
  | VBool b => b
  | VInt z => negb (z =? 0)%Z
  | VStr s => negb (String.eqb s "")
  | VDate _ | VDateTime _ => true
  end.

(** White space of ASCII text: tab to carriage return, the four
    separators 28..31 and the blank. *)
Definition is_space (c : ascii) : bool :=
  let n := nat_of_ascii c in
  ((9 <=? n)%nat && (n <=? 13)%nat) || ((28 <=? n)%nat && (n <=? 32)%nat).

Fixpoint lstrip (s : string) : string :=
  match s with
  | String c s' => if is_space c then lstrip s' else s
  | EmptyString => EmptyString
  end.

Fixpoint rstrip (s : string) : string :=
  match s with
  | EmptyString => EmptyString
  | String c s' =>
      match rstrip s' with
      | EmptyString => if is_space c then EmptyString else String c EmptyString
      | t => String c t
      end
  end.

(** [s.strip()] *)
Definition strip (s : string) : string := rstrip (lstrip s).

(** [isinstance(x, datetime.datetime)] and [isinstance(x, datetime.date)]:
    [datetime] is a subclass of [date]. *)
Definition is_datetime (x : value) : bool :=
  match x with VDateTime _ => true | _ => false end.

Definition is_date (x : value) : bool :=
  match x with VDate _ | VDateTime _ => true | _ => false end.

(** [x.date()] *)
Definition date_of (t : datetime) : date :=
  Date (year t) (month t) (day t).

(** ** The SQLAlchemy side *)

(** *** Predicates

    What the module hands to [where]: comparisons on a named column and the
    [and_]/[or_] of a list of predicates. [CCol c] is the bare column [c]
    used as a predicate; [COp op c v] is [getattr(column, op)(v)]. *)
Inductive clause :=
| CEq (c : string) (v : value)
| CCol (c : string)
| COp (op : string) (c : string) (v : value)
| CAnd (args : list clause)
| COr (args : list clause).

(** *** Statements

    A statement is built step by step ([table.select()], then [.where],
    [.distinct()], [.count()], [.values]); the record keeps what each step
    has set. *)
Inductive verb := SELECT | INSERT | UPDATE | DELETE.

Record Table := { t_name : string; t_columns : list string }.

Record statement := Statement {
  s_verb : verb;
  s_table : Table;
  s_where : option clause;
  s_distinct : bool;
  s_count : bool;
  s_values : dict value }.

Definition table_select (t : Table) : statement := Statement SELECT t None false false [].
Definition table_insert (t : Table) : statement := Statement INSERT t None false false [].
Definition table_update (t : Table) : statement := Statement UPDATE t None false false [].
Definition table_delete (t : Table) : statement := Statement DELETE t None false false [].

Definition stmt_where (s : statement) (c : clause) : statement :=
  Statement (s_verb s) (s_table s) (Some c) (s_distinct s) (s_count s) (s_values s).

Definition stmt_distinct (s : statement) : statement :=
  Statement (s_verb s) (s_table s) (s_where s) true (s_count s) (s_values s).

Definition stmt_count (s : statement) : statement :=
  Statement (s_verb s) (s_table s) (s_where s) (s_distinct s) true (s_values s).

Definition stmt_values (s : statement) (vs : dict value) : statement :=
  Statement (s_verb s) (s_table s) (s_where s) (s_distinct s) (s_count s) vs.

Definition is_read (s : statement) : bool :=
  match s_verb s with SELECT => true | _ => false end.

(** *** The database

    One list of stored rows per table name. A row is a dictionary from
    column names to cells; a column the row does not store reads as NULL. *)
Definition row := dict value.
Definition database := dict (list row).

Definition cell (r : row) (c : string) : value :=
  match dget r c with Some v => v | None => VNone end.

(** What the column objects and the engine do lies outside the repository:
    which operator names a column exposes, what they and a bare column
    mean in a WHERE clause (SQL's three truth values, [None] for UNKNOWN),
    and the rows a row-count query returns for a given result set. *)
Class SqlBackend := {
  has_operator : string -> bool;
  eval_operator : string -> value -> value -> option bool;
  sql_truth : value -> option bool;
  count_rows : list row -> list row }.

(** CPython's side: the wall clock ([clock n] is what the [n]-th call of
    [datetime.now()] returns), [datetime.strptime(text, format)] and
    [int(text)], both [None] where CPython raises [ValueError]. *)
Class PyRuntime := {
  clock : nat -> datetime;
  strptime : string -> string -> option datetime;
  int_of_str : string -> option Z }.

Definition and3 (a b : option bool) : option bool :=
  match a, b with
  | Some false, _ | _, Some false => Some false
  | Some true, Some true => Some true
  | _, _ => None
  end.

Definition or3 (a b : option bool) : option bool :=
  match a, b with
  | Some true, _ | _, Some true => Some true
  | Some false, Some false => Some false
  | _, _ => None
  end.

(** An [and_]/[or_] without arguments renders as nothing, and a list that
    renders as nothing is left out of the list around it. *)
Fixpoint void (c : clause) : bool :=
  match c with
  | CAnd args | COr args => forallb void args
  | _ => false
  end.

Section Backend.
Context {BE : SqlBackend}.

(** The truth value of a predicate on a stored row. [column == None]
    renders as [IS NULL]; any other comparison with a NULL cell is UNKNOWN.
    Two cells that are not NULL are equal when the values are (no
    collation, no padding). *)
Fixpoint holds (c : clause) (r : row) : option bool :=
  match c with
  | CEq col VNone => Some (py_eq (cell r col) VNone)
  | CEq col v =>
      match cell r col with
      | VNone => None
      | w => Some (py_eq w v)
      end
  | CCol col => sql_truth (cell r col)
  | COp op col v => eval_operator op (cell r col) v
  | CAnd args =>
      fold_right (fun a acc => if void a then acc else and3 (holds a r) acc)
                 (Some true) args
  | COr args =>
      if forallb void args then Some true
      else fold_right (fun a acc => if void a then acc else or3 (holds a r) acc)
                      (Some false) args
  end.

(** A statement touches the rows on which its WHERE clause is true; without
    a clause it touches every row. *)
Definition matches (w : option clause) (r : row) : bool :=
  match w with
  | None => true
  | Some c =>
      match holds c r with
      | Some true => true
      | _ => false
      end
  end.

Definition project (cols : list string) (r : row) : row :=
  map (fun c => (c, cell r c)) cols.

Fixpoint row_eqb (a b : row) : bool :=
  match a, b with
  | [], [] => true
  | (k, v) :: a', (k', v') :: b' => String.eqb k k' && value_eqb v v' && row_eqb a' b'
  | _, _ => false
  end.

(** SELECT DISTINCT keeps the first of equal rows. *)
Fixpoint distinct_rows (seen rows : list row) : list row :=
  match rows with
  | [] => []
  | r :: rest =>
      if existsb (row_eqb r) seen then distinct_rows seen rest
      else r :: distinct_rows (r :: seen) rest
  end.

Definition assign (r : row) (vs : dict value) : row :=
  fold_left (fun acc kv => dset acc (fst kv) (snd kv)) vs r.

(** [stmt.execute()]: the rows it returns and the database it leaves. An
    UPDATE without a SET list is not a statement the database accepts. *)
Definition execute (s : statement) (db : database) : result (list row) * database :=
  let name := t_name (s_table s) in
  match dget db name with
  | None => (Err (Raised DatabaseError), db)
  | Some stored =>
      match s_verb s with
      | SELECT =>
          let found := map (project (t_columns (s_table s)))
                           (filter (matches (s_where s)) stored) in
          let found := if s_distinct s then distinct_rows [] found else found in
          let found := if s_count s then count_rows found else found in
          (Ok found, db)
      | INSERT => (Ok [], dset db name (stored ++ [s_values s]))
      | UPDATE =>
          match s_values s with
          | [] => (Err (Raised DatabaseError), db)
          | vs =>
              (Ok [], dset db name
                 (map (fun r => if matches (s_where s) r then assign r vs else r) stored))
          end
      | DELETE =>
          (Ok [], dset db name (filter (fun r => negb (matches (s_where s) r)) stored))
      end
  end.

End Backend.

(** ** Effects *)

Record world := World {
  w_db : database;
  w_ticks : nat;
  w_log : list statement }.

Definition M (A : Type) := world -> result A * world.

Definition ret {A} (a : A) : M A := fun w => (Ok a, w).

Definition bind {A B} (m : M A) (k : A -> M B) : M B :=
  fun w =>
    match m w with
    | (Ok a, w') => k a w'
    | (Err f, w') => (Err f, w')
    end.

Definition lift {A} (r : result A) : M A := fun w => (r, w).

Definition raise {A} (e : exn) : M A := lift (Err (Raised e)).

Notation "x <- m ;; k" := (bind m (fun x => k))
  (at level 61, m at next level, right associativity).

Notation "' pat <- m ;; k" := (bind m (fun x => match x with pat => k end))
  (at level 61, pat pattern, m at next level, right associativity).

Notation "m ;; k" := (bind m (fun _ => k))
  (at level 61, right associativity).

(** Python's [d[k]]. *)
Definition getitem {V} (d : dict V) (k : string) : result V :=
  match dget d k with
  | Some v => Ok v
  | None => Err (Raised KeyError)
  end.

(** ** The module *)

Section Module.
Context {RT : PyRuntime} {BE : SqlBackend}.

(** [datetime.datetime.now()] *)
Definition now : M value :=
  fun w => (Ok (VDateTime (clock (w_ticks w))),
            World (w_db w) (S (w_ticks w)) (w_log w)).

(** [datetime.datetime.strptime(x, fmt)] *)
Definition py_strptime (x : value) (fmt : string) : M value :=
  match x with
  | VStr s =>
      match strptime s fmt with
      | Some t => ret (VDateTime t)
      | None => raise ValueError
      end
  | _ => raise TypeError
  end.

(** [x.strip()], an attribute only text has. *)
Definition py_strip (x : value) : M string :=
  match x with
  | VStr s => ret (strip s)
  | _ => raise AttributeError
  end.

(** [x.date()] *)
Definition py_date (x : value) : M value :=
  match x with
  | VDateTime t => ret (VDate (date_of t))
  | _ => raise AttributeError
  end.

Definition to_datetime (x : value) (date : bool) : M value :=
  x <- (if negb (is_datetime x) && negb (is_date x) then
          s <- py_strip x ;;
          if String.eqb s "now" then now
          else if date then py_strptime x "%Y-%m-%d"
          else py_strptime x "%Y-%m-%d %H:%M:%S"
        else ret x) ;;
  if date && is_datetime x then py_date x else ret x.

(** [int(x)] *)
Definition py_int (x : value) : M value :=
  match x with
  | VBool b => ret (VInt (Z.b2z b))
  | VInt z => ret (VInt z)
  | VStr s =>
      match int_of_str s with
      | Some z => ret (VInt z)
      | None => raise ValueError
      end
  | VNone | VDate _ | VDateTime _ => raise TypeError
  end.

Inductive sqltype :=
| SaString | SaInteger | SaBigInteger | SaBoolean | SaDate | SaDateTime | SaText.

Record type_entry := {
  sqlalchemy : sqltype;
  python : value -> M value }.

Definition TYPE_FOR_NAME : dict type_entry :=
  [ ("String",     {| sqlalchemy := SaString;     python := fun x => ret (VStr (py_str x)) |});
    ("Integer",    {| sqlalchemy := SaInteger;    python := fun x => py_int x |});
    ("BigInteger", {| sqlalchemy := SaBigInteger; python := fun x => py_int x |});
    ("Boolean",    {| sqlalchemy := SaBoolean;    python := fun x => ret (VBool (py_bool x)) |});
    ("Date",       {| sqlalchemy := SaDate;       python := fun x => to_datetime x true |});
    ("DateTime",   {| sqlalchemy := SaDateTime;   python := fun x => to_datetime x false |});
    ("Text",       {| sqlalchemy := SaText;       python := fun x => ret (VStr (py_str x)) |}) ].

(** *** The request

    [module.params] and [module.check_mode]. An entry of [columns] has a
    name, a type name and, when the key [value] is there, a value (which
    may be null). *)
Record column_arg := {
  arg_name : string;
  arg_type : string;
  arg_value : option value }.

Inductive state := present | absent | select | insert | count.

Definition state_eqb (a b : state) : bool :=
  match a, b with
  | present, present | absent, absent | select, select
  | insert, insert | count, count => true
  | _, _ => false
  end.

(** The value under a key of [filter]: the mapping below an [and]/[or], or
    the [{column: ..., value: ...}] of an operator. *)
Inductive fnode :=
| FGroup (sub : list (string * fnode))
| FCond (column : string) (v : value).

Record params := {
  p_table : string;
  p_keys : list string;
  p_columns : list column_arg;
  p_state : state;
  p_distinct : bool;
  p_filter : dict fnode;
  check_mode : bool }.

(** The attributes [create_table] sets on [self]. *)
Record SQLQuery := {
  keys : list string;
  new_values : dict value;
  type_for_column : dict type_entry;
  table : Table }.

(** [sqlalchemy.Table(name, metadata, *columns)]: a column given twice
    replaces the earlier one. *)
Definition sa_Table (name : string) (columns : list string) : Table :=
  {| t_name := name; t_columns := nodup string_dec columns |}.

Fixpoint create_table_loop (args : list column_arg) (columns : list string)
    (nv : dict value) (tfc : dict type_entry)
    : M (list string * dict value * dict type_entry) :=
  match args with
  | [] => ret (columns, nv, tfc)
  | arg :: rest =>
      let column_name := arg_name arg in
      let type_name := arg_type arg in
      let '(value, value_exists) :=
        match arg_value arg with
        | Some v => (v, true)
        | None => (VNone, false)
        end in
      entry <- lift (getitem TYPE_FOR_NAME type_name) ;;
      let columns := columns ++ [column_name] in
      value <- (match value with
                | VNone => ret value
                | _ => python entry value
                end) ;;
      let nv := if value_exists then dset nv column_name value else nv in
      let tfc := dset tfc column_name entry in
      create_table_loop rest columns nv tfc
  end.

Definition create_table (p : params) : M SQLQuery :=
  '(columns, nv, tfc) <- create_table_loop (p_columns p) [] [] [] ;;
  ret {| keys := p_keys p;
         new_values := nv;
         type_for_column := tfc;
         table := sa_Table (p_table p) columns |}.

(** [getattr(self.table.c, column_name)], a [ValueError] when the table
    has no such column. A column is referred to by its name; names that
    the column collection itself has as attributes are left aside. *)
Definition _where_column_helper (self : SQLQuery) (column_name : string) : result string :=
  if mem column_name (t_columns (table self)) then Ok column_name
  else Err (Raised ValueError).

(** One pass of the loop of [_split_filter]: the predicate that the entry
    [key: node] appends to [args]. The mapping below [and]/[or] goes
    through the same loop, from an empty list. Where the entry has the
    other shape, indexing fails as Python's does. *)
Fixpoint split_entry (self : SQLQuery) (key : string) (node : fnode) {struct node}
    : result clause :=
  let split_sub :=
    fix loop (args : list clause) (fltrs : list (string * fnode)) : result (list clause) :=
      match fltrs with
      | [] => Ok args
      | (k, n) :: rest =>
          let? c := split_entry self k n in
          loop (args ++ [c]) rest
      end in
  if String.eqb key "and" then
    match node with
    | FGroup sub => let? sub_args := split_sub [] sub in Ok (CAnd sub_args)
    | FCond _ _ => Err (Raised TypeError)
    end
  else if String.eqb key "or" then
    match node with
    | FGroup sub => let? sub_args := split_sub [] sub in Ok (COr sub_args)
    | FCond _ _ => Err (Raised TypeError)
    end
  else
    match node with
    | FCond column_name column_value =>
        let? column := _where_column_helper self column_name in
        if String.eqb key "eq" then Ok (CEq column column_value)
        else if String.eqb key "ne" then Ok (CCol column)
        else if has_operator key then Ok (COp key column column_value)
        else Err (Raised ValueError)
    | FGroup sub =>
        match dget sub "column" with
        | None => Err (Raised KeyError)
        | Some _ => Err (Raised TypeError)
        end
    end.

(** [_split_filter(args, fltrs)] appends to [args]; here it returns the
    longer list. *)
Fixpoint _split_filter (self : SQLQuery) (args : list clause) (fltrs : dict fnode)
    : result (list clause) :=
  match fltrs with
  | [] => Ok args
  | (key, node) :: rest =>
      let? c := split_entry self key node in
      _split_filter self (args ++ [c]) rest
  end.

Fixpoint where_keys_loop (self : SQLQuery) (cols : list string) (args : list clause)
    : result (list clause) :=
  match cols with
  | [] => Ok args
  | col :: rest =>
      match dget (new_values self) col with
      | None => where_keys_loop self rest args
      | Some new_value =>
          let? column := _where_column_helper self col in
          where_keys_loop self rest (args ++ [CEq column new_value])
      end
  end.

Definition where_keys (self : SQLQuery) (p : params) (stmt : statement) : result statement :=
  let? args := where_keys_loop self (keys self) [] in
  let fltrs := p_filter p in
  let? args := match fltrs with
               | [] => Ok args
               | _ => _split_filter self args fltrs
               end in
  if (0 <? length args)%nat then Ok (stmt_where stmt (CAnd args))
  else Ok stmt.

Definition stmt_execute (s : statement) : M (list row) :=
  fun w =>
    let '(r, db') := execute s (w_db w) in
    (r, World db' (w_ticks w) (w_log w ++ [s])).

Definition select_rows (self : SQLQuery) (p : params) : M (list row) :=
  let stmt := table_select (table self) in
  stmt <- lift (where_keys self p stmt) ;;
  let stmt := if p_distinct p then stmt_distinct stmt else stmt in
  let stmt := if state_eqb (p_state p) count then stmt_count stmt else stmt in
  stmt_execute stmt.

Definition insert_row (self : SQLQuery) : M unit :=
  let stmt := table_insert (table self) in
  let stmt := stmt_values stmt (new_values self) in
  stmt_execute stmt ;; ret tt.

Definition update_rows (self : SQLQuery) (p : params) : M unit :=
  let stmt := table_update (table self) in
  stmt <- lift (where_keys self p stmt) ;;
  let args :=
    fold_left (fun args item =>
                 let '(col, new_value) := item in
                 if negb (mem col (keys self)) then dset args col new_value
                 else args)
              (new_values self) [] in
  let stmt := stmt_values stmt args in
  stmt_execute stmt ;; ret tt.

Definition delete_rows (self : SQLQuery) (p : params) : M unit :=
  let stmt := table_delete (table self) in
  stmt <- lift (where_keys self p stmt) ;;
  stmt_execute stmt ;; ret tt.

(** What [format_rows] is called with: the list a read returned or, in
    check mode, the dictionary [new_values] itself. Iterating the list
    gives rows; iterating the dictionary gives its keys, which are text. *)
Inductive rows_arg :=
| RowList (rows : list row)
| Mapping (d : dict value).

Definition iterate (rows : rows_arg) : list (row + string) :=
  match rows with
  | RowList l => map inl l
  | Mapping d => map inr (dkeys d)
  end.

Fixpoint format_cols (tfc : dict type_entry) (r : row) (cols : list string)
    (frow : dict value) : M (dict value) :=
  match cols with
  | [] => ret frow
  | col :: rest =>
      entry <- lift (getitem tfc col) ;;
      let type_func := python entry in
      value <- lift (getitem r col) ;;
      frow <- (match value with
               | VNone => ret (dset frow col value)
               | _ => v <- type_func value ;; ret (dset frow col v)
               end) ;;
      format_cols tfc r rest frow
  end.

Fixpoint format_loop (tfc : dict type_entry) (items : list (row + string))
    (frows : list row) : M (list row) :=
  match items with
  | [] => ret frows
  | inl r :: rest =>
      frow <- format_cols tfc r (dkeys r) [] ;;
      format_loop tfc rest (frows ++ [frow])
  | inr _ :: _ => raise AttributeError
  end.

Definition format_rows (self : SQLQuery) (rows : rows_arg) : M (list row) :=
  format_loop (type_for_column self) (iterate rows) [].

Fixpoint compare_row (nv : dict value) (r : row) (cols : list string) : result bool :=
  match cols with
  | [] => Ok false
  | col :: rest =>
      let? a := getitem nv col in
      let? b := getitem r col in
      if py_ne a b then Ok true else compare_row nv r rest
  end.

Fixpoint compare_loop (nv : dict value) (rows : list row) : result bool :=
  match rows with
  | [] => Ok false
  | r :: rest =>
      let? differs := compare_row nv r (dkeys nv) in
      if differs then Ok true else compare_loop nv rest
  end.

Definition compare_rows (self : SQLQuery) (rows : list row) : result bool :=
  compare_loop (new_values self) rows.

Definition table_exists (name : string) : M bool :=
  fun w => (Ok (dmem (w_db w) name), w).

Definition fail_json {A} (msg : string) : M A := lift (Err (FailJson msg)).

(** [module.exit_json(changed=..., rows=...)]: the answer of the call;
    [rows=None] is [None]. *)
Definition answer : Type := bool * option (list row).

Definition exit_json (changed : bool) (rows : option (list row)) : M answer :=
  ret (changed, rows).

(** [SQLQuery.__init__], which is the whole call. *)
Definition SQLQuery_init (p : params) : M answer :=
  found <- table_exists (p_table p) ;;
  (if negb found then fail_json "table does not exist" else ret tt) ;;
  self <- create_table p ;;
  rows_after <- select_rows self p ;;
  let rows_after_len := length rows_after in
  if state_eqb (p_state p) select || state_eqb (p_state p) count then
    frows <- format_rows self (RowList rows_after) ;;
    exit_json false (Some frows)
  else if state_eqb (p_state p) absent then
    let changed := if (rows_after_len <? 1)%nat then false else true in
    (if changed && negb (check_mode p) then delete_rows self p else ret tt) ;;
    exit_json changed None
  else if state_eqb (p_state p) insert then
    let changed := true in
    (if negb (check_mode p) then insert_row self else ret tt) ;;
    rows_after <- select_rows self p ;;
    frows <- format_rows self (RowList rows_after) ;;
    exit_json changed (Some frows)
  else
    changed <- (if (rows_after_len <? 1)%nat then ret true
                else lift (compare_rows self rows_after)) ;;
    rows_after <- (if check_mode p then ret (Mapping (new_values self))
                   else if changed then
                     (if (rows_after_len <? 1)%nat then insert_row self
                      else update_rows self p) ;;
                     rows <- select_rows self p ;;
                     ret (RowList rows)
                   else ret (RowList rows_after)) ;;
    frows <- format_rows self rows_after ;;
    exit_json changed (Some frows).

End Module.

(** ** The entry point *)

Section Main.
Context {RT : PyRuntime} {BE : SqlBackend}.

(** [main()]: [AnsibleModule] has validated the arguments into [params];
    [has_sqlalchemy] is the flag [HAS_SQLALCHEMY] that the import sets.
    (The table [TYPE_FOR_NAME] names [sqlalchemy.String] where the module
    is loaded, so that a module that loads at all has the flag set; the
    test is kept as [main] has it.) [init_sqlalchemy] only binds the
    engine to the URL, which the database of the [world] stands for. *)
Definition main (has_sqlalchemy : bool) (p : params) : M answer :=
  (if negb has_sqlalchemy then fail_json "python-sqlalchemy not found" else ret tt) ;;
  SQLQuery_init p.

End Main.

(** ** Vocabulary of the properties *)

Definition tick (w : world) : world := World (w_db w) (S (w_ticks w)) (w_log w).

Definition date_format (date : bool) : string :=
  if date then "%Y-%m-%d" else "%Y-%m-%d %H:%M:%S".

(** What a [Date] column keeps of a timestamp, and a [DateTime] column. *)
Definition truncated (date : bool) (t : datetime) : value :=
  if date then VDate (date_of t) else VDateTime t.

(** [trail P w w']: from [w] to [w'] the log grew by statements that all
    satisfy [P], and if all of them were reads the database is the same. *)
Definition trail (P : statement -> Prop) (w w' : world) : Prop :=
  exists l, w_log w' = w_log w ++ l /\ Forall P l /\
            (Forall (fun s => is_read s = true) l -> w_db w' = w_db w).

(** [spec P Q m]: whatever the outcome, [m] leaves a trail of [P]
    statements, and a value it returns satisfies [Q]. *)
Definition spec {A} (P : statement -> Prop) (Q : A -> Prop) (m : M A) : Prop :=
  forall w, trail P w (snd (m w)) /\ forall a, fst (m w) = Ok a -> Q a.

Definition any {A} (_ : A) : Prop := True.

Section Vocabulary.
Context {RT : PyRuntime} {BE : SqlBackend}.

(** The type functions are the seven of [TYPE_FOR_NAME]. *)
Definition builtin (e : type_entry) : Prop := In e (map snd TYPE_FOR_NAME).

Definition typed (tfc : dict type_entry) : Prop :=
  forall col e, dget tfc col = Some e -> builtin e.


(** The statements a call with parameters [p] can execute: reads carry
    DISTINCT when [distinct] is set, and a statement that writes needs a
    call outside check mode in the state that leads to it. *)
Definition issued (p : params) (s : statement) : Prop :=
  match s_verb s with
  | SELECT => s_distinct s = p_distinct p
  | INSERT =>
      s_distinct s = false /\ check_mode p = false /\
      (p_state p = insert \/ p_state p = present)
  | UPDATE => s_distinct s = false /\ check_mode p = false /\ p_state p = present
  | DELETE => s_distinct s = false /\ check_mode p = false /\ p_state p = absent
  end.

Definition is_query (st : state) : bool :=
  match st with select | count => true | _ => false end.

(** What the answer of a call looks like in the states that fix it. *)
Definition answered (p : params) (a : answer) : Prop :=
  (is_query (p_state p) = true -> fst a = false) /\
  (p_state p = absent -> snd a = None) /\
  (p_state p = insert -> fst a = true).


(** The statements a run added to the log. *)
Definition executed (w w' : world) : list statement :=
  skipn (length (w_log w)) (w_log w').

Definition reads (l : list statement) : list statement := filter is_read l.

Definition with_distinct (b : bool) (p : params) : params :=
  {| p_table := p_table p; p_keys := p_keys p; p_columns := p_columns p;
     p_state := p_state p; p_distinct := b; p_filter := p_filter p;
     check_mode := check_mode p |}.







(** The statement [select_rows] executes, and the one of [delete_rows]. *)
Definition read_statement (self : SQLQuery) (p : params) : result statement :=
  let? stmt := where_keys self p (table_select (table self)) in
  let stmt := if p_distinct p then stmt_distinct stmt else stmt in
  Ok (if state_eqb (p_state p) count then stmt_count stmt else stmt).

Definition delete_statement (self : SQLQuery) (p : params) : result statement :=
  where_keys self p (table_delete (table self)).

(** The predicates [where_keys] collects. *)
Definition where_args (self : SQLQuery) (p : params) : result (list clause) :=
  let? args := where_keys_loop self (keys self) [] in
  match p_filter p with
  | [] => Ok args
  | _ => _split_filter self args (p_filter p)
  end.


(** Two tables of type functions that name the same columns and differ at
    most in what their functions do with [None]. *)
Definition agree_off_none (tfc tfc' : dict type_entry) : Prop :=
  forall col,
    match dget tfc col, dget tfc' col with
    | Some e, Some e' => forall v w, v <> VNone -> python e v w = python e' v w
    | None, None => True
    | _, _ => False
    end.

(** The formatted row has null wherever the row read has null. *)
Definition keeps_null (r frow : row) : Prop :=
  forall col, dget r col = Some VNone -> dget frow col = Some VNone.


(** A row agrees with the declared values when each declared column is
    there and its cell equals the declared value, by Python's [==]. *)
Definition agrees (nv : dict value) (r : row) : Prop :=
  forall col v, dget nv col = Some v ->
    exists c, dget r col = Some c /\ py_eq v c = true.


(** What [format_rows] makes the answer of a call in state [present]. *)
Definition answer_rows (changed : bool) (out : result (list row) * world)
    : result answer * world :=
  match out with
  | (Ok frows, w) => (Ok (changed, Some frows), w)
  | (Err f, w) => (Err f, w)
  end.


(** The rows a SELECT returns from the stored rows of its table. *)
Definition select_result (s : statement) (stored : list row) : list row :=
  let found := map (project (t_columns (s_table s)))
                   (filter (matches (s_where s)) stored) in
  let found := if s_distinct s then distinct_rows [] found else found in
  if s_count s then count_rows found else found.

(** The declared values a call derives from its request, which depend
    on the clock where a value is [now]. *)
Definition desired_state (p : params) (w : world) : result (dict value) :=
  match fst (create_table p w) with
  | Ok self => Ok (new_values self)
  | Err f => Err f
  end.


(** The SET list of [update_rows]. *)
Definition update_values (self : SQLQuery) : dict value :=
  fold_left (fun args item =>
               let '(col, new_value) := item in
               if negb (mem col (keys self)) then dset args col new_value
               else args)
            (new_values self) [].

(** What an UPDATE makes of a stored row. *)
Definition updated (w : option clause) (sets : dict value) (r : row) : row :=
  if matches w r then assign r sets else r.




(** The second half of [SQLQuery.__init__]: what the call does with the
    rows of the initial read ([SQLQuery_init_dispatch] below shows it is
    that very code). *)
Definition dispatch (p : params) (self : SQLQuery) (rows_after : list row) : M answer :=
  let rows_after_len := length rows_after in
  if state_eqb (p_state p) select || state_eqb (p_state p) count then
    frows <- format_rows self (RowList rows_after) ;;
    exit_json false (Some frows)
  else if state_eqb (p_state p) absent then
    let changed := if (rows_after_len <? 1)%nat then false else true in
    (if changed && negb (check_mode p) then delete_rows self p else ret tt) ;;
    exit_json changed None
  else if state_eqb (p_state p) insert then
    let changed := true in
    (if negb (check_mode p) then insert_row self else ret tt) ;;
    rows_after <- select_rows self p ;;
    frows <- format_rows self (RowList rows_after) ;;
    exit_json changed (Some frows)
  else
    changed <- (if (rows_after_len <? 1)%nat then ret true
                else lift (compare_rows self rows_after)) ;;
    rows_after <- (if check_mode p then ret (Mapping (new_values self))
                   else if changed then
                     (if (rows_after_len <? 1)%nat then insert_row self
                      else update_rows self p) ;;
                     rows <- select_rows self p ;;
                     ret (RowList rows)
                   else ret (RowList rows_after)) ;;
    frows <- format_rows self rows_after ;;
    exit_json changed (Some frows).

(** The database after executing a list of statements in order. *)
Definition replay (l : list statement) (db : database) : database :=
  fold_left (fun d s => snd (execute s d)) l db.

(** [history P w w']: from [w] to [w'] the log grew by statements that all
    satisfy [P], and the database is what executing them in order makes of
    the database of [w]. *)
Definition history (P : statement -> Prop) (w w' : world) : Prop :=
  exists l, w_log w' = w_log w ++ l /\ Forall P l /\ w_db w' = replay l (w_db w).

Definition hspec {A} (P : statement -> Prop) (Q : A -> Prop) (m : M A) : Prop :=
  forall w, history P w (snd (m w)) /\ forall a, fst (m w) = Ok a -> Q a.

(** The columns a predicate mentions. *)
Fixpoint columns_of (c : clause) : list string :=
  match c with
  | CEq col _ | CCol col | COp _ col _ => [col]
  | CAnd args | COr args => flat_map columns_of args
  end.

Definition where_columns (s : statement) : list string :=
  match s_where s with
  | Some c => columns_of c
  | None => []
  end.

(** A statement on the table of the request that names only columns the
    request declares. *)
Definition sound (p : params) (s : statement) : Prop :=
  t_name (s_table s) = p_table p /\
  t_columns (s_table s) = nodup string_dec (map arg_name (p_columns p)) /\
  incl (where_columns s) (t_columns (s_table s)) /\
  incl (dkeys (s_values s)) (t_columns (s_table s)).

(** What [create_table] guarantees about [self]. *)
Definition ready (p : params) (self : SQLQuery) : Prop :=
  typed (type_for_column self) /\
  table self = sa_Table (p_table p) (map arg_name (p_columns p)) /\
  incl (dkeys (new_values self)) (t_columns (table self)) /\
  NoDup (dkeys (new_values self)).



(** The statement of [insert_row]. *)
Definition insert_statement (self : SQLQuery) : statement :=
  stmt_values (table_insert (table self)) (new_values self).

(** The rows of a table a DELETE with the clause [w] leaves. *)
Definition kept (w : option clause) (stored : list row) : list row :=
  filter (fun r => negb (matches w r)) stored.


(** [v'] is what the type function of [entry] made of [v] at some moment
    between [w] and [w1], where only the clock may have moved. *)
Definition coerced (entry : type_entry) (v v' : value) (w w1 : world) : Prop :=
  exists wa wb,
    python entry v wa = (Ok v', wb) /\
    w_db wa = w_db w /\ w_log wa = w_log w /\
    w_ticks w <= w_ticks wa /\ w_ticks wa <= w_ticks w1.

Definition has_value (a : column_arg) : bool :=
  match arg_value a with Some _ => true | None => false end.


(** A row as [format_rows] returns it: no column twice, every column with
    a type function, and every cell null or a value that function
    returned. *)
Definition formatted (tfc : dict type_entry) (r : row) : Prop :=
  NoDup (dkeys r) /\
  forall c v, dget r c = Some v ->
    exists e, dget tfc c = Some e /\
      (v = VNone \/ exists v0 wa wb, python e v0 wa = (Ok v, wb)).


(** A failure that is an exception nothing catches, not a [fail_json]. *)
Definition uncaught (f : failure) : Prop :=
  match f with
  | Raised _ => True
  | FailJson _ => False
  end.

Definition raising {A} (r : result A) : Prop :=
  forall f, r = Err f -> uncaught f.

Definition raises {A} (m : M A) : Prop :=
  forall w f, fst (m w) = Err f -> uncaught f.


(** The statements of a list that write. *)
Definition writes (l : list statement) : list statement :=
  filter (fun s => negb (is_read s)) l.

(** [within n k m]: whatever the outcome, [m] executes at most [n]
    statements, at most [k] of which write. *)
Definition within {A} (n k : nat) (m : M A) : Prop :=
  forall w, exists l,
    w_log (snd (m w)) = w_log w ++ l /\ length l <= n /\ length (writes l) <= k.

End Vocabulary.

(** ** A small runtime and backend for the examples

    Strict readers for the two date formats and for integers, a clock that
    advances one second per call, and a backend with a few column operators.
    The theorems below hold for every runtime and backend; the examples
    run on this one. *)
Module Demo.

Definition digits (s : string) : option Z :=
  match s with
  | EmptyString => None
  | _ =>
      if forallb (fun c => (48 <=? nat_of_ascii c)%nat && (nat_of_ascii c <=? 57)%nat)
                 (list_ascii_of_string s)
      then option_map Z.of_int (NilZero.int_of_string s)
      else None
  end.

Definition field (s : string) (start len : nat) : option Z :=
  digits (substring start len s).

Definition sep (s : string) (i : nat) (c : ascii) : bool :=
  match get i s with
  | Some c' => Ascii.eqb c c'
  | None => false
  end.

Definition parse_date (s : string) : option datetime :=
  if (String.length s =? 10)%nat && sep s 4 "-" && sep s 7 "-" then
    match field s 0 4, field s 5 2, field s 8 2 with
    | Some y, Some m, Some d => Some (DateTime y m d 0 0 0 0)
    | _, _, _ => None
    end
  else None.

Definition parse_datetime (s : string) : option datetime :=
  if (String.length s =? 19)%nat && sep s 10 " " && sep s 13 ":" && sep s 16 ":" then
    match parse_date (substring 0 10 s), field s 11 2, field s 14 2, field s 17 2 with
    | Some t, Some h, Some mi, Some se =>
        Some (DateTime (year t) (month t) (day t) h mi se 0)
    | _, _, _, _ => None
    end
  else None.

Definition runtime : PyRuntime := {|
  clock := fun n => DateTime 2020 5 1 12 0 (Z.of_nat n) 0;
  strptime := fun s fmt =>
    if String.eqb fmt "%Y-%m-%d" then parse_date s
    else if String.eqb fmt "%Y-%m-%d %H:%M:%S" then parse_datetime s
    else None;
  int_of_str := fun s =>
    match strip s with
    | String "-" t => option_map Z.opp (digits t)
    | t => digits t
    end |}.

Definition backend : SqlBackend := {|
  has_operator := fun op => mem op ["__ne__"; "__gt__"; "__lt__"; "startswith"];
  eval_operator := fun op cellv v =>
    match cellv, v with
    | VNone, _ | _, VNone => None
    | VInt a, VInt b =>
        if String.eqb op "__gt__" then Some (b <? a)%Z
        else if String.eqb op "__lt__" then Some (a <? b)%Z
        else if String.eqb op "__ne__" then Some (negb (a =? b)%Z)
        else None
    | VStr a, VStr b =>
        if String.eqb op "startswith" then Some (prefix b a)
        else if String.eqb op "__ne__" then Some (negb (String.eqb a b))
        else None
    | _, _ => None
    end;
  sql_truth := fun v =>
    match v with
    | VBool b => Some b
    | VInt z => Some (negb (z =? 0)%Z)
    | _ => None
    end;
  count_rows := fun rows => [[("tbl_row_count", VInt (Z.of_nat (length rows)))]] |}.

Definition run (p : params) (w : world) : result answer * world :=
  @SQLQuery_init runtime backend p w.

(** The table [test] of the examples. *)
Definition test_rows : list row :=
  [ [("col1", VStr "blubb"); ("col2", VInt 21); ("col3", VNone)];
    [("col1", VStr "bla");   ("col2", VInt 0);
     ("col3", VDateTime (DateTime 2020 5 1 12 15 0 0))] ].

Definition w0 : world := World [("test", test_rows)] 0 [].

Definition col (n t : string) (v : option value) : column_arg :=
  {| arg_name := n; arg_type := t; arg_value := v |}.

Definition request (st : state) (dry distinct : bool) (ks : list string)
    (cols : list column_arg) (f : dict fnode) : params :=
  {| p_table := "test"; p_keys := ks; p_columns := cols; p_state := st;
     p_distinct := distinct; p_filter := f; check_mode := dry |}.

(** The requests of the examples. *)
Definition blubb : list column_arg :=
  [ col "col1" "String" (Some (VStr "blubb")); col "col2" "Integer" (Some (VInt 1)) ].

Definition select_blubb : params := request select false false ["col1"] blubb [].

Definition present_blubb : params := request present false false ["col1"] blubb [].

Definition present_distinct : params := request present false true ["col1"] blubb [].

Definition present_dry : params := request present true false ["col1"] blubb [].

Definition insert_dry : params :=
  request insert true false []
    [ col "col1" "String" (Some (VStr "log")); col "col3" "DateTime" (Some (VStr "now")) ] [].

Definition absent_bla : params :=
  request absent false false ["col1"] [ col "col1" "String" (Some (VStr "bla")) ] [].


(** What a call on the example table sets up: the attributes of [self],
    the read it executes and the rows that read returns. *)
Definition made (p : params) (w : world) : SQLQuery :=
  match fst (@create_table runtime p w) with
  | Ok self => self
  | Err _ => {| keys := []; new_values := []; type_for_column := [];
                table := sa_Table "" [] |}
  end.

Definition reading (p : params) (w : world) : statement :=
  match @read_statement backend (made p w) p with
  | Ok s => s
  | Err _ => table_select (table (made p w))
  end.


(** The world the first call of [present_blubb] leaves. *)
Definition after_first : world := snd (run present_blubb w0).

(** A type function that refuses [None]. *)
Definition strict (e : type_entry) : type_entry :=
  {| sqlalchemy := sqlalchemy e;
     python := fun v => match v with
                        | VNone => raise TypeError
                        | _ => python e v
                        end |}.

Definition made_strict (p : params) (w : world) : SQLQuery :=
  {| keys := keys (made p w);
     new_values := new_values (made p w);
     type_for_column := map (fun kv => (fst kv, strict (snd kv)))
                            (type_for_column (made p w));
     table := table (made p w) |}.

Definition null_rows : list row :=
  [ [("col1", VNone); ("col2", VInt 3)]; [("col1", VStr "a"); ("col2", VNone)] ].

(** A read with a filter [ne] on [col2]. *)
Definition select_ne : params :=
  request select false false []
    [ col "col1" "String" None; col "col2" "Integer" None ]
    [ ("ne", FCond "col2" (VInt 21)) ].

(** A request whose filter contradicts its declared values, and one with
    a value taken from the clock. *)
Definition present_filtered : params :=
  request present false false ["col1"] blubb [ ("eq", FCond "col2" (VInt 21)) ].

Definition present_now : params :=
  request present false false ["col1"]
    [ col "col1" "String" (Some (VStr "bla")); col "col3" "DateTime" (Some (VStr "now")) ] [].


(** An insert outside check mode, a delete without keys, a request in
    check mode that declares no value, and the example table beside
    another one. *)
Definition insert_log : params :=
  request insert false false []
    [ col "col1" "String" (Some (VStr "log")); col "col2" "Integer" (Some (VStr "7")) ] [].

Definition absent_all : params :=
  request absent false false [] [ col "col1" "String" None ] [].

Definition present_bare : params :=
  request present true false ["col1"]
    [ col "col1" "String" None; col "col2" "Integer" None ] [].

Definition w_two : world :=
  World [("test", test_rows); ("somelog", [[("logtext", VStr "kept")]])] 0 [].

End Demo.

(** * Properties *)

Section Properties.
Context {RT : PyRuntime} {BE : SqlBackend}.

(** ** Type coercion *)

Lemma to_datetime_native_datetime (t : datetime) (date : bool) (w : world) :
  to_datetime (VDateTime t) date w = (Ok (truncated date t), w).
Proof. destruct date; reflexivity. Qed.

Lemma to_datetime_native_date (d : date) (date : bool) (w : world) :
  to_datetime (VDate d) date w = (Ok (VDate d), w).
Proof. destruct date; reflexivity. Qed.

Lemma to_datetime_now (s : string) (date : bool) (w : world) :
  strip s = "now" ->
  to_datetime (VStr s) date w = (Ok (truncated date (clock (w_ticks w))), tick w).
Proof.
  intros Hs. unfold to_datetime, bind, py_strip, ret. simpl.
  rewrite Hs. simpl. destruct date; reflexivity.
Qed.

Lemma to_datetime_parse (s : string) (date : bool) (w : world) :
  strip s <> "now" ->
  to_datetime (VStr s) date w =
    match strptime s (date_format date) with
    | Some t => (Ok (truncated date t), w)
    | None => (Err (Raised ValueError), w)
    end.
Proof.
  intros Hs. unfold to_datetime, bind, py_strip, ret. simpl.
  destruct (String.eqb_spec (strip s) "now") as [E | _]; [contradiction |].
  destruct date; simpl; unfold py_strptime;
    destruct (strptime s _); reflexivity.
Qed.

(** C9. Date/DateTime coercion. A native datetime passes through, cut to
    its calendar date for [Date]; a native date passes through; text whose
    stripped form is exactly [now] becomes the clock's reading (cut to a
    date for [Date]) and uses up one reading; any other text goes to
    [strptime] with [%Y-%m-%d] for [Date] and [%Y-%m-%d %H:%M:%S] for
    [DateTime], and a mismatch raises [ValueError]; a raw value that is
    neither text nor a date has no [strip] and raises [AttributeError]. *)
Theorem to_datetime_coercion (x : value) (date : bool) (w : world) :
  to_datetime x date w =
    match x with
    | VDateTime t => (Ok (truncated date t), w)
    | VDate d => (Ok (VDate d), w)
    | VStr s =>
        if String.eqb (strip s) "now"
        then (Ok (truncated date (clock (w_ticks w))), tick w)
        else match strptime s (date_format date) with
             | Some t => (Ok (truncated date t), w)
             | None => (Err (Raised ValueError), w)
             end
    | VNone | VBool _ | VInt _ => (Err (Raised AttributeError), w)
    end.
Proof.
  destruct x as [| b | z | s | d | t].
  - reflexivity.
  - reflexivity.
  - reflexivity.
  - destruct (String.eqb_spec (strip s) "now") as [E | N].
    + now apply to_datetime_now.
    + now apply to_datetime_parse.
  - apply to_datetime_native_date.
  - apply to_datetime_native_datetime.
Qed.

(** ** The filter compiler *)

Lemma split_entry_group (self : SQLQuery) (sub : list (string * fnode)) (args : list clause) :
  (fix loop (args : list clause) (fltrs : list (string * fnode)) : result (list clause) :=
     match fltrs with
     | [] => Ok args
     | (k, n) :: rest =>
         let? c := split_entry self k n in
         loop (args ++ [c]) rest
     end) args sub = _split_filter self args sub.
Proof.
  revert args. induction sub as [| [k n] rest IH]; intros args; simpl.
  - reflexivity.
  - destruct (split_entry self k n); simpl; [apply IH | reflexivity].
Qed.

Lemma split_entry_and (self : SQLQuery) (sub : list (string * fnode)) :
  split_entry self "and" (FGroup sub) =
    (let? sub_args := _split_filter self [] sub in Ok (CAnd sub_args)).
Proof. simpl. rewrite split_entry_group. reflexivity. Qed.

Lemma split_entry_or (self : SQLQuery) (sub : list (string * fnode)) :
  split_entry self "or" (FGroup sub) =
    (let? sub_args := _split_filter self [] sub in Ok (COr sub_args)).
Proof. simpl. rewrite split_entry_group. reflexivity. Qed.

Lemma split_entry_eq (self : SQLQuery) (c : string) (v : value) :
  split_entry self "eq" (FCond c v) =
    (let? column := _where_column_helper self c in Ok (CEq column v)).
Proof. reflexivity. Qed.

(** The predicate compiled for a leaf [ne] is the bare column: the value
    of the leaf is not part of it, so two leaves that differ only in the
    value compile to the same predicate. *)
Lemma split_entry_ne (self : SQLQuery) (c : string) (v v' : value) :
  split_entry self "ne" (FCond c v) =
    (let? column := _where_column_helper self c in Ok (CCol column)) /\
  split_entry self "ne" (FCond c v) = split_entry self "ne" (FCond c v').
Proof. split; reflexivity. Qed.

(** ** Trails: which statements a computation executes *)

Section Trails.
Variable P : statement -> Prop.

Lemma trail_refl (w : world) : trail P w w.
Proof.
  exists []. rewrite app_nil_r. repeat split; auto.
Qed.

Lemma trail_trans (w1 w2 w3 : world) :
  trail P w1 w2 -> trail P w2 w3 -> trail P w1 w3.
Proof.
  intros (l1 & E1 & F1 & D1) (l2 & E2 & F2 & D2).
  exists (l1 ++ l2). split; [| split].
  - rewrite E2, E1, app_assoc. reflexivity.
  - apply Forall_app. split; assumption.
  - intros F. apply Forall_app in F. destruct F as [Fa Fb].
    rewrite (D2 Fb). apply (D1 Fa).
Qed.

(** A step that only reads the clock. *)
Lemma trail_quiet (w w' : world) :
  w_db w' = w_db w -> w_log w' = w_log w -> trail P w w'.
Proof.
  intros Hd Hl. exists []. rewrite app_nil_r. repeat split; auto.
Qed.

Lemma spec_ret {A} (Q : A -> Prop) (a : A) : Q a -> spec P Q (ret a).
Proof.
  intros Ha w. split; [apply trail_refl |].
  simpl. intros a' E. injection E as <-. exact Ha.
Qed.

Lemma spec_lift {A} (Q : A -> Prop) (r : result A) :
  (forall a, r = Ok a -> Q a) -> spec P Q (lift r).
Proof.
  intros Hr w. split; [apply trail_refl |]. simpl. exact Hr.
Qed.

Lemma spec_err {A} (Q : A -> Prop) (f : failure) : spec P Q (lift (Err f) : M A).
Proof. apply spec_lift. discriminate. Qed.

Lemma spec_bind {A B} (Q : A -> Prop) (Q' : B -> Prop) (m : M A) (k : A -> M B) :
  spec P Q m -> (forall a, Q a -> spec P Q' (k a)) -> spec P Q' (bind m k).
Proof.
  intros Hm Hk w. unfold bind.
  destruct (Hm w) as [Tm Qm]. destruct (m w) as [[a | f] w1]; simpl in *.
  - destruct (Hk a (Qm a eq_refl) w1) as [Tk Qk].
    split; [eapply trail_trans; eassumption | exact Qk].
  - split; [exact Tm | discriminate].
Qed.



Lemma spec_table_exists (name : string) : spec P any (table_exists name).
Proof.
  intros w. split; [apply trail_refl | intros; exact I].
Qed.

Lemma execute_read (s : statement) (db : database) :
  is_read s = true -> snd (execute s db) = db.
Proof.
  unfold is_read, execute. intros R.
  destruct (dget db (t_name (s_table s))); [| reflexivity].
  destruct (s_verb s); try discriminate. reflexivity.
Qed.

Lemma spec_stmt_execute (s : statement) : P s -> spec P any (stmt_execute s).
Proof.
  intros Hs w. split; [| intros; exact I].
  unfold stmt_execute. destruct (execute s (w_db w)) as [r db'] eqn:E. simpl.
  exists [s]. repeat split; auto.
  intros F. inversion F as [| ? ? R _]; subst.
  rewrite <- (execute_read s (w_db w) R), E. reflexivity.
Qed.

End Trails.

(** ** Dictionaries *)

Lemma dget_dset_same {V} (d : dict V) (k : string) (v : V) :
  dget (dset d k v) k = Some v.
Proof.
  induction d as [| [k' v'] d IH]; simpl.
  - rewrite String.eqb_refl. reflexivity.
  - destruct (String.eqb k k') eqn:E; simpl; rewrite E; [reflexivity | exact IH].
Qed.

Lemma dget_dset_other {V} (d : dict V) (k k' : string) (v : V) :
  k' <> k -> dget (dset d k v) k' = dget d k'.
Proof.
  intros N. induction d as [| [k0 v0] d IH]; simpl.
  - destruct (String.eqb_spec k' k); [contradiction | reflexivity].
  - destruct (String.eqb_spec k k0) as [-> | N0]; simpl.
    + destruct (String.eqb_spec k' k0); [contradiction | reflexivity].
    + destruct (String.eqb_spec k' k0); [reflexivity | exact IH].
Qed.

Lemma dget_dset {V} (d : dict V) (k k' : string) (v : V) :
  dget (dset d k v) k' = if String.eqb k' k then Some v else dget d k'.
Proof.
  destruct (String.eqb_spec k' k) as [-> | N].
  - apply dget_dset_same.
  - now apply dget_dset_other.
Qed.

Lemma dget_In {V} (d : dict V) (k : string) (v : V) :
  dget d k = Some v -> In (k, v) d.
Proof.
  induction d as [| [k' v'] d IH]; simpl; [discriminate |].
  destruct (String.eqb_spec k k') as [-> | N].
  - intros E. injection E as ->. now left.
  - intros E. right. now apply IH.
Qed.

Lemma dget_keys {V} (d : dict V) (k : string) :
  In k (dkeys d) <-> dget d k <> None.
Proof.
  unfold dkeys. induction d as [| [k' v'] d IH]; simpl.
  - split; [contradiction | congruence].
  - destruct (String.eqb_spec k k') as [-> | N].
    + split; [discriminate | now left].
    + rewrite <- IH. split; [intros [E | H]; [congruence | exact H] | now right].
Qed.

Lemma mem_In (k : string) (l : list string) : mem k l = true <-> In k l.
Proof.
  unfold mem. rewrite existsb_exists. split.
  - intros (x & Hx & E). apply String.eqb_eq in E. now subst.
  - intros H. exists k. split; [exact H | apply String.eqb_refl].
Qed.

(** ** The type functions leave database and log alone *)

Lemma typed_nil : typed [].
Proof. intros col e H. discriminate. Qed.

Lemma typed_dset (tfc : dict type_entry) (col : string) (e : type_entry) :
  typed tfc -> builtin e -> typed (dset tfc col e).
Proof.
  intros T B c e'. rewrite dget_dset.
  destruct (String.eqb c col); [intros E; injection E as <-; exact B | apply T].
Qed.

Lemma builtin_getitem (name : string) (e : type_entry) :
  getitem TYPE_FOR_NAME name = Ok e -> builtin e.
Proof.
  unfold getitem, builtin. destruct (dget TYPE_FOR_NAME name) eqn:E; [| discriminate].
  intros H. injection H as <-. apply dget_In in E.
  apply (in_map snd) in E. exact E.
Qed.

Lemma to_datetime_quiet (x : value) (date : bool) (w : world) :
  w_db (snd (to_datetime x date w)) = w_db w /\
  w_log (snd (to_datetime x date w)) = w_log w.
Proof.
  destruct x as [| b | z | s | d | t]; try (split; reflexivity).
  - destruct (String.eqb_spec (strip s) "now") as [E | N].
    + rewrite (to_datetime_now s date w E). split; reflexivity.
    + rewrite (to_datetime_parse s date w N).
      destruct (strptime s (date_format date)); split; reflexivity.
  - rewrite to_datetime_native_date. split; reflexivity.
  - rewrite to_datetime_native_datetime. split; reflexivity.
Qed.

Lemma py_int_quiet (x : value) (w : world) :
  w_db (snd (py_int x w)) = w_db w /\ w_log (snd (py_int x w)) = w_log w.
Proof.
  destruct x; simpl; try (split; reflexivity).
  destruct (int_of_str s); split; reflexivity.
Qed.

Lemma python_quiet (e : type_entry) (x : value) (w : world) :
  builtin e ->
  w_db (snd (python e x w)) = w_db w /\ w_log (snd (python e x w)) = w_log w.
Proof.
  unfold builtin. simpl.
  intros [<- | [<- | [<- | [<- | [<- | [<- | [<- | []]]]]]]]; simpl;
    first [ apply py_int_quiet | apply to_datetime_quiet | split; reflexivity ].
Qed.

Lemma spec_python (P : statement -> Prop) (e : type_entry) (x : value) :
  builtin e -> spec P any (python e x).
Proof.
  intros B w. split; [| intros; exact I].
  destruct (python_quiet x w B) as [Hd Hl]. now apply trail_quiet.
Qed.

(** ** Every statement of a call is an [issued] one *)

Lemma spec_bind_any {A B} (P : statement -> Prop) (Q' : B -> Prop)
    (m : M A) (k : A -> M B) :
  spec P any m -> (forall a, spec P Q' (k a)) -> spec P Q' (bind m k).
Proof. intros Hm Hk. apply spec_bind with (Q := any); auto. Qed.

Lemma where_keys_keeps (self : SQLQuery) (p : params) (stmt stmt' : statement) :
  where_keys self p stmt = Ok stmt' ->
  s_verb stmt' = s_verb stmt /\ s_table stmt' = s_table stmt /\
  s_distinct stmt' = s_distinct stmt /\ s_count stmt' = s_count stmt /\
  s_values stmt' = s_values stmt.
Proof.
  unfold where_keys.
  destruct (where_keys_loop self (keys self) []) as [args |]; simpl; [| discriminate].
  destruct (match p_filter p with [] => Ok args | _ => _ end) as [args' |];
    simpl; [| discriminate].
  destruct (0 <? length args')%nat; intros E; injection E as <-; repeat split.
Qed.

Section Issued.
Variable p : params.
Variable self : SQLQuery.

Lemma spec_select_rows : spec (issued p) any (select_rows self p).
Proof.
  unfold select_rows. apply spec_bind with (Q := fun s => s_verb s = SELECT /\ s_distinct s = false).
  - apply spec_lift. intros s E.
    destruct (where_keys_keeps _ _ _ E) as (V & _ & D & _). now rewrite V, D.
  - intros s [V D]. apply spec_stmt_execute. unfold issued.
    destruct (p_distinct p), (state_eqb (p_state p) count); simpl; rewrite V; simpl;
      first [reflexivity | exact D].
Qed.

Lemma spec_insert_row :
  check_mode p = false -> p_state p = insert \/ p_state p = present ->
  spec (issued p) any (insert_row self).
Proof.
  intros C S. unfold insert_row. apply spec_bind_any.
  - apply spec_stmt_execute. unfold issued. simpl. auto.
  - intros _. now apply spec_ret.
Qed.

Lemma spec_update_rows :
  check_mode p = false -> p_state p = present ->
  spec (issued p) any (update_rows self p).
Proof.
  intros C S. unfold update_rows.
  apply spec_bind with (Q := fun s => s_verb s = UPDATE /\ s_distinct s = false).
  - apply spec_lift. intros s E.
    destruct (where_keys_keeps _ _ _ E) as (V & _ & D & _). now rewrite V, D.
  - intros s [V D]. apply spec_bind_any; [| intros _; now apply spec_ret].
    apply spec_stmt_execute. unfold issued. simpl. rewrite V. auto.
Qed.

Lemma spec_delete_rows :
  check_mode p = false -> p_state p = absent ->
  spec (issued p) any (delete_rows self p).
Proof.
  intros C S. unfold delete_rows.
  apply spec_bind with (Q := fun s => s_verb s = DELETE /\ s_distinct s = false).
  - apply spec_lift. intros s E.
    destruct (where_keys_keeps _ _ _ E) as (V & _ & D & _). now rewrite V, D.
  - intros s [V D]. apply spec_bind_any; [| intros _; now apply spec_ret].
    apply spec_stmt_execute. unfold issued. rewrite V. auto.
Qed.

Lemma spec_format_cols (P : statement -> Prop) (tfc : dict type_entry) (r : row)
    (cols : list string) (frow : dict value) :
  typed tfc -> spec P any (format_cols tfc r cols frow).
Proof.
  intros T. revert frow. induction cols as [| col rest IH]; intros frow; simpl.
  - now apply spec_ret.
  - apply spec_bind with (Q := builtin).
    + apply spec_lift. unfold getitem. intros e.
      destruct (dget tfc col) eqn:E; [| discriminate].
      intros H. injection H as <-. eapply T, E.
    + intros e B. apply spec_bind_any; [apply spec_lift; intros; exact I |].
      intros v. apply spec_bind_any; [| intros; apply IH].
      destruct v; try (apply spec_bind_any; [now apply spec_python | intros]);
        now apply spec_ret.
Qed.

Lemma spec_format_loop (P : statement -> Prop) (tfc : dict type_entry)
    (items : list (row + string)) (frows : list row) :
  typed tfc -> spec P any (format_loop tfc items frows).
Proof.
  intros T. revert frows. induction items as [| [r | s] rest IH]; intros frows; simpl.
  - now apply spec_ret.
  - apply spec_bind_any; [now apply spec_format_cols | intros; apply IH].
  - apply spec_err.
Qed.

Lemma spec_format_rows (P : statement -> Prop) (rows : rows_arg) :
  typed (type_for_column self) -> spec P any (format_rows self rows).
Proof. intros T. now apply spec_format_loop. Qed.

End Issued.

Lemma spec_create_table_loop (P : statement -> Prop) (args : list column_arg)
    (columns : list string) (nv : dict value) (tfc : dict type_entry) :
  typed tfc ->
  spec P (fun out => typed (snd out)) (create_table_loop args columns nv tfc).
Proof.
  revert columns nv tfc.
  induction args as [| arg rest IH]; intros columns nv tfc T; simpl.
  - now apply spec_ret.
  - destruct (arg_value arg) as [v |].
    + apply spec_bind with (Q := builtin);
        [apply spec_lift; apply builtin_getitem |].
      intros e B. apply spec_bind_any.
      * destruct v; first [now apply spec_ret | now apply spec_python].
      * intros v'. apply IH. now apply typed_dset.
    + apply spec_bind with (Q := builtin);
        [apply spec_lift; apply builtin_getitem |].
      intros e B. apply spec_bind_any; [now apply spec_ret |].
      intros v'. apply IH. now apply typed_dset.
Qed.

Lemma spec_create_table (P : statement -> Prop) (p : params) :
  spec P (fun self => typed (type_for_column self)) (create_table p).
Proof.
  unfold create_table.
  apply spec_bind with (Q := fun out => typed (snd out)).
  - apply spec_create_table_loop, typed_nil.
  - intros [[columns nv] tfc] T. now apply spec_ret.
Qed.


(** The whole call: its statements are [issued] ones, and its answer is
    the one its state fixes. *)
Lemma spec_SQLQuery_init (p : params) :
  spec (issued p) (answered p) (SQLQuery_init p).
Proof.
  unfold SQLQuery_init.
  apply spec_bind_any; [apply spec_table_exists |]. intros found.
  apply spec_bind_any.
  { destruct (negb found); [apply spec_err | now apply spec_ret]. }
  intros _.
  apply spec_bind with (Q := fun self => typed (type_for_column self));
    [apply spec_create_table |].
  intros self T.
  apply spec_bind_any; [apply spec_select_rows |]. intros rows_after.
  unfold answered. destruct (p_state p) eqn:S; simpl.
  - (* present *)
    apply spec_bind_any.
    { destruct (length rows_after <? 1)%nat; [now apply spec_ret |].
      apply spec_lift. intros; exact I. }
    intros changed. apply spec_bind_any.
    { destruct (check_mode p) eqn:C; [now apply spec_ret |].
      destruct changed; [| now apply spec_ret].
      apply spec_bind_any.
      - destruct (length rows_after <? 1)%nat.
        + apply spec_insert_row; auto.
        + apply spec_update_rows; auto.
      - intros _. apply spec_bind_any; [apply spec_select_rows |].
        intros rows. now apply spec_ret. }
    intros rows. apply spec_bind_any; [now apply spec_format_rows |].
    intros frows. apply spec_ret. repeat split; simpl; intros; congruence.
  - (* absent *)
    apply spec_bind_any.
    { destruct (length rows_after <? 1)%nat; simpl; [now apply spec_ret |].
      destruct (check_mode p) eqn:C; simpl; [now apply spec_ret |].
      apply spec_delete_rows; auto. }
    intros _. apply spec_ret. repeat split; simpl; intros; congruence.
  - (* select *)
    apply spec_bind_any; [now apply spec_format_rows |].
    intros frows. apply spec_ret. repeat split; simpl; intros; congruence.
  - (* insert *)
    apply spec_bind_any.
    { destruct (check_mode p) eqn:C; simpl; [now apply spec_ret |].
      apply spec_insert_row; auto. }
    intros _. apply spec_bind_any; [apply spec_select_rows |].
    intros rows. apply spec_bind_any; [now apply spec_format_rows |].
    intros frows. apply spec_ret. repeat split; simpl; intros; congruence.
  - (* count *)
    apply spec_bind_any; [now apply spec_format_rows |].
    intros frows. apply spec_ret. repeat split; simpl; intros; congruence.
Qed.

(** ** The trail of a whole call *)

Lemma trail_executed (P : statement -> Prop) (w w' : world) :
  trail P w w' ->
  w_log w' = w_log w ++ executed w w' /\ Forall P (executed w w') /\
  (Forall (fun s => is_read s = true) (executed w w') -> w_db w' = w_db w).
Proof.
  intros (l & E & F & D). unfold executed. rewrite E.
  rewrite skipn_app, skipn_all, Nat.sub_diag. simpl. auto.
Qed.

Lemma issued_read (p : params) (l : list statement) :
  (forall s, issued p s -> s_verb s = SELECT) ->
  Forall (issued p) l -> Forall (fun s => is_read s = true) l.
Proof.
  intros H F. induction F as [| s l Hs _ IH]; constructor; [| exact IH].
  unfold is_read. now rewrite (H s Hs).
Qed.

Lemma issued_check_mode (p : params) (s : statement) :
  check_mode p = true -> issued p s -> s_verb s = SELECT.
Proof.
  unfold issued. intros C. destruct (s_verb s); [reflexivity | | |];
    intros (_ & C' & _); congruence.
Qed.

Lemma issued_query (p : params) (s : statement) :
  is_query (p_state p) = true -> issued p s -> s_verb s = SELECT.
Proof.
  unfold issued. intros Q. destruct (s_verb s); [reflexivity | | |].
  - intros (_ & _ & [S | S]); rewrite S in Q; discriminate.
  - intros (_ & _ & S); rewrite S in Q; discriminate.
  - intros (_ & _ & S); rewrite S in Q; discriminate.
Qed.

(** ** The WHERE clause *)

Lemma split_filter_app (self : SQLQuery) (fltrs : dict fnode) (args : list clause) :
  _split_filter self args fltrs =
    (let? compiled := _split_filter self [] fltrs in Ok (args ++ compiled)).
Proof.
  revert args. induction fltrs as [| [key node] rest IH]; intros args; simpl.
  - now rewrite app_nil_r.
  - destruct (split_entry self key node) as [c | f]; simpl; [| reflexivity].
    rewrite (IH (args ++ [c])), (IH [c]).
    destruct (_split_filter self [] rest) as [r | f]; simpl; [| reflexivity].
    now rewrite <- app_assoc.
Qed.












(** ** State [absent] *)

Lemma executed_app (w w' : world) (l : list statement) :
  w_log w' = w_log w ++ l -> executed w w' = l.
Proof.
  intros E. unfold executed. rewrite E, skipn_app, skipn_all, Nat.sub_diag. reflexivity.
Qed.

Lemma trail_silent (w w' : world) :
  trail (fun _ => False) w w' -> w_db w' = w_db w /\ w_log w' = w_log w.
Proof.
  intros (l & E & F & D). destruct l as [| s l].
  - rewrite app_nil_r in E. split; [apply D; constructor | exact E].
  - inversion F; contradiction.
Qed.

Lemma create_table_silent (p : params) (w : world) :
  w_db (snd (create_table p w)) = w_db w /\ w_log (snd (create_table p w)) = w_log w.
Proof.
  apply trail_silent. apply (spec_create_table (fun _ => False) p w).
Qed.

Lemma create_table_self (p : params) (w w1 : world) (self : SQLQuery) :
  create_table p w = (Ok self, w1) ->
  keys self = p_keys p /\ t_name (table self) = p_table p /\
  w_db w1 = w_db w /\ w_log w1 = w_log w.
Proof.
  intros E. destruct (create_table_silent p w) as [Hd Hl].
  rewrite E in Hd, Hl. simpl in Hd, Hl.
  unfold create_table, bind in E.
  destruct (create_table_loop (p_columns p) [] [] [] w) as [[[[columns nv] tfc] | f] w2];
    [| discriminate].
  unfold ret in E. injection E as <- _. auto.
Qed.

Lemma where_keys_args (self : SQLQuery) (p : params) (stmt : statement) :
  where_keys self p stmt =
    (let? args := where_args self p in
     Ok (if (0 <? length args)%nat then stmt_where stmt (CAnd args) else stmt)).
Proof.
  unfold where_keys, where_args.
  destruct (where_keys_loop self (keys self) []) as [args |]; cbn [rbind]; [| reflexivity].
  destruct (match p_filter p with [] => _ | _ => _ end) as [args' |]; cbn [rbind];
    [| reflexivity].
  destruct (0 <? length args')%nat; reflexivity.
Qed.

Lemma select_rows_read (self : SQLQuery) (p : params) (w : world) :
  select_rows self p w =
    match read_statement self p with
    | Ok s => stmt_execute s w
    | Err f => (Err f, w)
    end.
Proof.
  unfold select_rows, read_statement, bind, lift.
  destruct (where_keys self p (table_select (table self))); reflexivity.
Qed.

Lemma read_statement_shape (self : SQLQuery) (p : params) (s : statement) :
  read_statement self p = Ok s ->
  s_verb s = SELECT /\ s_table s = table self /\
  exists args, where_args self p = Ok args /\
  s_where s = (if (0 <? length args)%nat then Some (CAnd args) else None).
Proof.
  unfold read_statement. rewrite where_keys_args.
  destruct (where_args self p) as [args |]; simpl; [| discriminate].
  intros E. injection E as <-. repeat split.
  - destruct (state_eqb (p_state p) count), (p_distinct p), (0 <? length args)%nat; reflexivity.
  - destruct (state_eqb (p_state p) count), (p_distinct p), (0 <? length args)%nat; reflexivity.
  - exists args. split; [reflexivity |].
    destruct (state_eqb (p_state p) count), (p_distinct p), (0 <? length args)%nat; reflexivity.
Qed.

Lemma stmt_execute_read (s : statement) (w : world) (stored : list row) :
  s_verb s = SELECT -> dget (w_db w) (t_name (s_table s)) = Some stored ->
  exists current,
    execute s (w_db w) = (Ok current, w_db w) /\
    stmt_execute s w = (Ok current, World (w_db w) (w_ticks w) (w_log w ++ [s])).
Proof.
  intros V T. unfold stmt_execute, execute. rewrite T, V.
  eexists. split; reflexivity.
Qed.

Lemma dmem_dget {V} (d : dict V) (k : string) :
  dmem d k = true -> exists v, dget d k = Some v.
Proof.
  unfold dmem. destruct (dget d k) as [v |]; [now exists v | discriminate].
Qed.

Lemma delete_statement_shape (self : SQLQuery) (p : params) (read : statement) :
  read_statement self p = Ok read ->
  exists del, delete_statement self p = Ok del /\
    s_verb del = DELETE /\ s_table del = table self /\ s_where del = s_where read.
Proof.
  intros R. destruct (read_statement_shape _ _ R) as (_ & _ & args & A & W).
  unfold delete_statement. rewrite where_keys_args, A. simpl.
  eexists. split; [reflexivity |]. rewrite W.
  destruct (0 <? length args)%nat; repeat split.
Qed.

Lemma stmt_execute_delete (s : statement) (w : world) (stored : list row) :
  s_verb s = DELETE -> dget (w_db w) (t_name (s_table s)) = Some stored ->
  stmt_execute s w =
    (Ok [], World (snd (execute s (w_db w))) (w_ticks w) (w_log w ++ [s])).
Proof.
  intros V T. unfold stmt_execute, execute. rewrite T, V. reflexivity.
Qed.

(** C8. State [absent], for a request whose table exists and whose columns
    and filter are accepted. The call answers; [changed] is true exactly
    when the initial read returned a row; the rows of the answer are
    [None]; and the delete is executed, after the read, exactly when
    [changed] holds outside check mode: otherwise the read is the only
    statement and the database is untouched. *)
Theorem absent_decision (p : params) (w w1 : world) (self : SQLQuery) (read : statement) :
  p_state p = absent ->
  dmem (w_db w) (p_table p) = true ->
  create_table p w = (Ok self, w1) ->
  read_statement self p = Ok read ->
  exists current del changed,
    execute read (w_db w) = (Ok current, w_db w) /\
    delete_statement self p = Ok del /\ s_verb del = DELETE /\
    s_where del = s_where read /\
    (changed = true <-> current <> []) /\
    fst (SQLQuery_init p w) = Ok (changed, None) /\
    executed w (snd (SQLQuery_init p w)) =
      (if changed && negb (check_mode p) then [read; del] else [read]) /\
    w_db (snd (SQLQuery_init p w)) =
      (if changed && negb (check_mode p) then snd (execute del (w_db w)) else w_db w).
Proof.
  intros S X C R.
  destruct (create_table_self _ _ C) as (_ & N & Hd & Hl).
  destruct (read_statement_shape _ _ R) as (V & T & _).
  destruct (dmem_dget _ _ X) as (stored & G).
  assert (G1 : dget (w_db w1) (t_name (s_table read)) = Some stored)
    by now rewrite T, N, Hd.
  destruct (stmt_execute_read read w1 V G1) as (current & E & SE).
  destruct (delete_statement_shape _ _ R) as (del & D & DV & DT & DW).
  exists current, del, (negb (length current <? 1)%nat).
  rewrite Hd in E.
  assert (Run : SQLQuery_init p w =
    if negb (length current <? 1)%nat && negb (check_mode p)
    then (Ok (negb (length current <? 1)%nat, None),
          World (snd (execute del (w_db w))) (w_ticks w1) (w_log w ++ [read] ++ [del]))
    else (Ok (negb (length current <? 1)%nat, None),
          World (w_db w) (w_ticks w1) (w_log w ++ [read]))).
  { unfold SQLQuery_init, bind at 1. unfold table_exists. rewrite X. simpl.
    unfold bind at 1. unfold ret at 1. unfold bind at 1. rewrite C.
    unfold bind at 1. rewrite select_rows_read, R, SE. rewrite S. simpl.
    rewrite Hd, Hl.
    destruct (length current <? 1)%nat; simpl; [reflexivity |].
    destruct (check_mode p); simpl; [reflexivity |].
    unfold bind at 1. unfold delete_rows, bind at 1, lift.
    fold (delete_statement self p). rewrite D.
    unfold bind at 1.
    rewrite (stmt_execute_delete del _ DV (stored := stored));
      [| simpl; now rewrite DT, N].
    simpl. now rewrite <- app_assoc. }
  repeat split; try assumption.
  - intros H Z. subst current. discriminate.
  - intros H. destruct current; [contradiction | reflexivity].
  - rewrite Run. destruct (_ && _); reflexivity.
  - rewrite Run. destruct (_ && _); simpl; apply executed_app; reflexivity.
  - rewrite Run. destruct (_ && _); reflexivity.
Qed.

(** ** Formatting rows *)

Lemma format_cols_agree (tfc tfc' : dict type_entry) (r : row) (cols : list string) :
  agree_off_none tfc tfc' ->
  forall frow w, format_cols tfc r cols frow w = format_cols tfc' r cols frow w.
Proof.
  intros A. induction cols as [| col rest IH]; intros frow w; simpl; [reflexivity |].
  unfold bind, lift, getitem. specialize (A col).
  destruct (dget tfc col) as [e |], (dget tfc' col) as [e' |]; try contradiction;
    [| reflexivity].
  destruct (dget r col) as [v |]; [| reflexivity].
  destruct v; try (rewrite (A _ w); [| discriminate]);
    try (destruct (python e' _ w) as [[v' | f] w1]; [apply IH | reflexivity]).
  apply IH.
Qed.

Lemma format_loop_agree (tfc tfc' : dict type_entry) (items : list (row + string)) :
  agree_off_none tfc tfc' ->
  forall frows w, format_loop tfc items frows w = format_loop tfc' items frows w.
Proof.
  intros A. induction items as [| [r | s] rest IH]; intros frows w; simpl;
    [reflexivity | | reflexivity].
  unfold bind. rewrite (format_cols_agree r (dkeys r) A).
  destruct (format_cols tfc' r (dkeys r) [] w) as [[frow | f] w1]; [apply IH | reflexivity].
Qed.

Lemma format_cols_null (tfc : dict type_entry) (r : row) (cols : list string) :
  forall frow w frow' w',
    format_cols tfc r cols frow w = (Ok frow', w') ->
    forall col, dget r col = Some VNone ->
      In col cols \/ dget frow col = Some VNone -> dget frow' col = Some VNone.
Proof.
  induction cols as [| c rest IH]; intros frow w frow' w'; simpl.
  - unfold ret. intros E col _ [[] | H]. now injection E as <- _.
  - unfold bind, lift, getitem.
    destruct (dget tfc c) as [e |]; [| discriminate].
    destruct (dget r c) as [v |] eqn:Rc; [| discriminate].
    intros E col Hcol Hin.
    assert (Step : forall frow1 w1,
               format_cols tfc r rest frow1 w1 = (Ok frow', w') ->
               (col = c -> dget frow1 col = Some VNone) ->
               (col <> c -> dget frow1 col = dget frow col) ->
               dget frow' col = Some VNone).
    { intros frow1 w1 E1 Hsame Hother.
      apply (IH _ _ _ _ E1 col Hcol).
      destruct (string_dec col c) as [-> | N]; [right; now apply Hsame |].
      destruct Hin as [[C | H] | H]; [congruence | now left |].
      right. now rewrite Hother. }
    destruct v.
    + apply (Step _ _ E).
      * intros ->. apply dget_dset_same.
      * intros N. now apply dget_dset_other.
    + destruct (python e (VBool b) w) as [[v' | f] w1]; [| discriminate].
      apply (Step _ _ E); [intros ->; congruence | intros N; now apply dget_dset_other].
    + destruct (python e (VInt z) w) as [[v' | f] w1]; [| discriminate].
      apply (Step _ _ E); [intros ->; congruence | intros N; now apply dget_dset_other].
    + destruct (python e (VStr s) w) as [[v' | f] w1]; [| discriminate].
      apply (Step _ _ E); [intros ->; congruence | intros N; now apply dget_dset_other].
    + destruct (python e (VDate d) w) as [[v' | f] w1]; [| discriminate].
      apply (Step _ _ E); [intros ->; congruence | intros N; now apply dget_dset_other].
    + destruct (python e (VDateTime t) w) as [[v' | f] w1]; [| discriminate].
      apply (Step _ _ E); [intros ->; congruence | intros N; now apply dget_dset_other].
Qed.

Lemma format_loop_null (tfc : dict type_entry) (rows : list row) :
  forall acc w out w',
    format_loop tfc (map inl rows) acc w = (Ok out, w') ->
    exists frows, out = acc ++ frows /\ Forall2 keeps_null rows frows.
Proof.
  induction rows as [| r rest IH]; intros acc w out w'; simpl.
  - unfold ret. intros E. injection E as <- _. exists []. now rewrite app_nil_r.
  - unfold bind.
    destruct (format_cols tfc r (dkeys r) [] w) as [[frow | f] w1] eqn:F; [| discriminate].
    intros E. apply IH in E. destruct E as (frows & -> & H).
    exists (frow :: frows). split; [now rewrite <- app_assoc |].
    constructor; [| exact H].
    intros col Hcol. eapply format_cols_null; [exact F | exact Hcol |].
    left. apply dget_keys. congruence.
Qed.

(** C10. [format_rows] hands a type function only cells that are not
    null. A null cell comes back as null: each formatted row has [None]
    wherever the row read has it. And the type functions are never asked
    about [None]: replacing them by functions that differ on [None] alone
    changes neither the outcome nor the rows. *)
Theorem format_rows_skips_null (self self' : SQLQuery) (rows : list row) (w : world) :
  agree_off_none (type_for_column self) (type_for_column self') ->
  format_rows self (RowList rows) w = format_rows self' (RowList rows) w /\
  forall frows w', format_rows self (RowList rows) w = (Ok frows, w') ->
    Forall2 keeps_null rows frows.
Proof.
  intros A. split.
  - unfold format_rows. now apply format_loop_agree.
  - unfold format_rows. simpl. intros frows w' E.
    apply format_loop_null in E. destruct E as (out & -> & H). exact H.
Qed.

(** ** State [present]: a table that shows the desired state is left alone *)

Lemma compare_row_agrees (nv : dict value) (r : row) (cols : list string) :
  incl cols (dkeys nv) -> agrees nv r -> compare_row nv r cols = Ok false.
Proof.
  intros I A. induction cols as [| col rest IH]; simpl; [reflexivity |].
  assert (K : In col (dkeys nv)) by (apply I; now left).
  apply dget_keys in K. unfold getitem.
  destruct (dget nv col) as [a |] eqn:Ea; [| contradiction]. simpl.
  destruct (A col a Ea) as (b & Eb & Q). rewrite Eb. simpl.
  unfold py_ne. rewrite Q. simpl. apply IH.
  intros c Hc. apply I. now right.
Qed.

Lemma compare_rows_converged (self : SQLQuery) (rows : list row) :
  Forall (agrees (new_values self)) rows -> compare_rows self rows = Ok false.
Proof.
  unfold compare_rows. induction 1 as [| r rest A _ IH]; simpl; [reflexivity |].
  rewrite (compare_row_agrees (incl_refl _) A). simpl. exact IH.
Qed.

(** The converse: when [compare_rows] finds no difference, every row
    agrees with the declared values. *)
Lemma compare_row_false (nv : dict value) (r : row) (cols : list string) :
  compare_row nv r cols = Ok false ->
  forall col, In col cols ->
    exists a b, dget nv col = Some a /\ dget r col = Some b /\ py_eq a b = true.
Proof.
  induction cols as [| c rest IH]; simpl; [intros _ col [] |].
  unfold getitem.
  destruct (dget nv c) as [a |] eqn:Ea; simpl; [| discriminate].
  destruct (dget r c) as [b |] eqn:Eb; simpl; [| discriminate].
  unfold py_ne. destruct (py_eq a b) eqn:Q; simpl; [| discriminate].
  intros E col [<- | H]; [now exists a, b | now apply IH].
Qed.

Lemma compare_rows_false (self : SQLQuery) (rows : list row) :
  compare_rows self rows = Ok false -> Forall (agrees (new_values self)) rows.
Proof.
  unfold compare_rows. induction rows as [| r rest IH]; simpl; [constructor |].
  destruct (compare_row (new_values self) r (dkeys (new_values self))) as [[|] |] eqn:C;
    simpl; try discriminate.
  intros E. constructor; [| now apply IH].
  intros col v Hv.
  destruct (compare_row_false _ _ _ C col) as (a & b & Ea & Eb & Q).
  - apply dget_keys. congruence.
  - exists b. split; [exact Eb |]. congruence.
Qed.



Lemma answer_rows_world (changed : bool) (out : result (list row) * world) :
  snd (answer_rows changed out) = snd out.
Proof. now destruct out as [[frows | f] w]. Qed.


(** ** State [present]: the first call establishes the desired state *)





(** *** Dictionaries built by assignment have distinct keys *)

Lemma dset_fresh {V} (d : dict V) (k : string) (v : V) :
  dget d k = None -> dset d k v = d ++ [(k, v)].
Proof.
  induction d as [| [k' v'] d IH]; simpl; [reflexivity |].
  destruct (String.eqb k k'); [discriminate |].
  intros H. now rewrite IH.
Qed.

Lemma dkeys_dset {V} (d : dict V) (k : string) (v : V) :
  dkeys (dset d k v) = if dmem d k then dkeys d else dkeys d ++ [k].
Proof.
  unfold dmem, dkeys. induction d as [| [k' v'] d IH]; simpl; [reflexivity |].
  destruct (String.eqb k k') eqn:E; simpl; [reflexivity |].
  rewrite IH. now destruct (dget d k).
Qed.

Lemma NoDup_snoc (l : list string) (k : string) :
  NoDup l -> ~ In k l -> NoDup (l ++ [k]).
Proof.
  intros N H. induction N as [| x l Hx N IH]; simpl.
  - constructor; [intros [] | constructor].
  - constructor.
    + rewrite in_app_iff. intros [I | [-> | []]]; [contradiction |].
      apply H. now left.
    + apply IH. intros I. apply H. now right.
Qed.

Lemma NoDup_dset {V} (d : dict V) (k : string) (v : V) :
  NoDup (dkeys d) -> NoDup (dkeys (dset d k v)).
Proof.
  intros N. rewrite dkeys_dset. unfold dmem.
  destruct (dget d k) eqn:E; [exact N |].
  apply NoDup_snoc; [exact N |]. rewrite dget_keys. congruence.
Qed.

Lemma dget_filter {V} (f : string -> bool) (d : dict V) (k : string) :
  dget (filter (fun kv => f (fst kv)) d) k = if f k then dget d k else None.
Proof.
  induction d as [| [k' v'] d IH]; simpl; [now destruct (f k) |].
  destruct (f k') eqn:F; simpl.
  - destruct (String.eqb_spec k k') as [-> | N]; [now rewrite F | exact IH].
  - destruct (String.eqb_spec k k') as [-> | N]; [now rewrite IH, F | exact IH].
Qed.


(** The SET list of [update_rows]: the declared values that are not keys. *)
Lemma update_args_filter (ks : list string) (nv acc : dict value) :
  NoDup (dkeys acc ++ dkeys nv) ->
  fold_left (fun args item =>
               let '(col, new_value) := item in
               if negb (mem col ks) then dset args col new_value else args)
            nv acc =
  acc ++ filter (fun kv => negb (mem (fst kv) ks)) nv.
Proof.
  revert acc. induction nv as [| [c v] nv IH]; intros acc N; simpl.
  - now rewrite app_nil_r.
  - assert (Fresh : dget acc c = None).
    { destruct (dget acc c) eqn:E; [| reflexivity]. exfalso.
      apply NoDup_remove_2 in N. apply N. rewrite in_app_iff. left.
      apply (proj2 (dget_keys acc c)). rewrite E. discriminate. }
    assert (N' : NoDup (dkeys acc ++ dkeys nv)) by now apply NoDup_remove_1 in N.
    destruct (negb (mem c ks)) eqn:K; simpl.
    + rewrite IH.
      * rewrite dset_fresh by exact Fresh. rewrite <- app_assoc. reflexivity.
      * rewrite dkeys_dset. unfold dmem. rewrite Fresh.
        unfold dkeys in *. rewrite <- app_assoc. exact N.
    + apply IH. exact N'.
Qed.

(** *** What [create_table] sets up *)

Lemma bind_ok {A B} (m : M A) (k : A -> M B) (w w' : world) (b : B) :
  bind m k w = (Ok b, w') ->
  exists a w0, m w = (Ok a, w0) /\ k a w0 = (Ok b, w').
Proof.
  unfold bind. destruct (m w) as [[a | f] w0]; [| discriminate].
  intros E. now exists a, w0.
Qed.

Lemma create_table_loop_keys (args : list column_arg) :
  forall columns nv tfc w columns' nv' tfc' w',
    create_table_loop args columns nv tfc w = (Ok (columns', nv', tfc'), w') ->
    columns' = columns ++ map arg_name args /\
    (NoDup (dkeys nv) -> NoDup (dkeys nv')) /\
    (incl (dkeys nv) columns -> incl (dkeys nv') columns').
Proof.
  induction args as [| arg rest IH]; intros columns nv tfc w columns' nv' tfc' w'; simpl.
  - unfold ret. intros E. injection E as <- <- <- <-.
    rewrite app_nil_r. auto.
  - destruct (arg_value arg) as [v |]; intros E;
      apply bind_ok in E; destruct E as (e & w0 & _ & E);
      apply bind_ok in E; destruct E as (v' & w1 & _ & E);
      apply IH in E; destruct E as (-> & HN & HI);
      (split; [now rewrite <- app_assoc |]); split.
    + intros N. now apply HN, NoDup_dset.
    + intros I. apply HI. rewrite dkeys_dset. destruct (dmem nv (arg_name arg)).
      * now apply incl_appl.
      * apply incl_app; [now apply incl_appl | apply incl_appr, incl_refl].
    + exact HN.
    + intros I. apply HI. now apply incl_appl.
Qed.

Lemma create_table_loop_same (args : list column_arg) :
  forall columns tfc nv1 nv2 w1 w2 out1 out2 w1' w2',
    create_table_loop args columns nv1 tfc w1 = (Ok out1, w1') ->
    create_table_loop args columns nv2 tfc w2 = (Ok out2, w2') ->
    fst (fst out1) = fst (fst out2) /\ snd out1 = snd out2.
Proof.
  induction args as [| arg rest IH];
    intros columns tfc nv1 nv2 w1 w2 out1 out2 w1' w2'; simpl.
  - unfold ret. intros E1 E2. injection E1 as <- _. injection E2 as <- _. auto.
  - intros E1 E2.
    destruct (arg_value arg) as [v |];
      apply bind_ok in E1; destruct E1 as (e1 & u1 & G1 & E1);
      apply bind_ok in E2; destruct E2 as (e2 & u2 & G2 & E2);
      unfold lift in G1, G2; injection G1 as G1 _; injection G2 as G2 _;
      rewrite G1 in G2; injection G2 as <-;
      apply bind_ok in E1; destruct E1 as (v1 & u1' & _ & E1);
      apply bind_ok in E2; destruct E2 as (v2 & u2' & _ & E2);
      exact (IH _ _ _ _ _ _ _ _ _ _ E1 E2).
Qed.

Lemma create_table_shape (p : params) (w w1 : world) (self : SQLQuery) :
  create_table p w = (Ok self, w1) ->
  NoDup (dkeys (new_values self)) /\
  incl (dkeys (new_values self)) (t_columns (table self)).
Proof.
  unfold create_table. intros E. apply bind_ok in E.
  destruct E as ([[columns nv] tfc] & w0 & L & E).
  unfold ret in E. injection E as <- _. simpl.
  apply create_table_loop_keys in L. destruct L as (_ & HN & HI).
  split; [apply HN; constructor |].
  intros c Hc. apply nodup_In. apply HI; [intros x [] | exact Hc].
Qed.

(** Two calls with the same request set up the same [self], but for the
    declared values, which may have read the clock. *)
Lemma create_table_same (p : params) (w1 w2 w1' w2' : world) (self1 self2 : SQLQuery) :
  create_table p w1 = (Ok self1, w1') ->
  create_table p w2 = (Ok self2, w2') ->
  new_values self1 = new_values self2 -> self1 = self2.
Proof.
  unfold create_table. intros E1 E2.
  apply bind_ok in E1. destruct E1 as ([[c1 nv1] t1] & u1 & L1 & E1).
  apply bind_ok in E2. destruct E2 as ([[c2 nv2] t2] & u2 & L2 & E2).
  destruct (create_table_loop_same _ _ _ _ _ _ _ L1 L2) as [Hc Ht].
  simpl in Hc, Ht. subst c2 t2.
  unfold ret in E1, E2. injection E1 as <- _. injection E2 as <- _.
  simpl. intros ->. reflexivity.
Qed.

(** *** The key equalities on a stored row *)








(** *** Assignment to a stored row *)

Lemma cell_assign (sets : dict value) :
  NoDup (dkeys sets) ->
  forall r c, cell (assign r sets) c =
    match dget sets c with
    | Some v => v
    | None => cell r c
    end.
Proof.
  unfold assign. induction sets as [| [k v] rest IH]; intros N r c; simpl; [reflexivity |].
  inversion N as [| ? ? Hk N']; subst.
  rewrite (IH N').
  destruct (String.eqb_spec c k) as [-> | D].
  - destruct (dget rest k) eqn:E.
    + exfalso. apply Hk. apply (proj2 (dget_keys rest k)). rewrite E. discriminate.
    + unfold cell. now rewrite dget_dset_same.
  - destruct (dget rest c); [reflexivity |].
    unfold cell. now rewrite dget_dset_other.
Qed.

(** *** DISTINCT keeps some of the rows, and at least one *)


Lemma distinct_rows_nil (rows : list row) : distinct_rows [] rows = [] -> rows = [].
Proof. destruct rows; simpl; [reflexivity | discriminate]. Qed.


Lemma execute_select (s : statement) (db : database) (stored : list row) :
  s_verb s = SELECT -> dget db (t_name (s_table s)) = Some stored ->
  execute s db = (Ok (select_result s stored), db).
Proof.
  intros V T. unfold execute, select_result. now rewrite T, V.
Qed.

(** *** The first call, step by step *)

Lemma spec_reads_select_rows (self : SQLQuery) (p : params) :
  spec (fun s => s_verb s = SELECT) any (select_rows self p).
Proof.
  unfold select_rows. apply spec_bind with (Q := fun s => s_verb s = SELECT).
  - apply spec_lift. intros s E.
    destruct (where_keys_keeps _ _ _ E) as (V & _). now rewrite V.
  - intros s V. apply spec_stmt_execute.
    destruct (p_distinct p), (state_eqb (p_state p) count); exact V.
Qed.

Lemma select_rows_db (self : SQLQuery) (p : params) (w : world) :
  w_db (snd (select_rows self p w)) = w_db w.
Proof.
  destruct (spec_reads_select_rows self p w) as [(l & _ & F & D) _].
  apply D. eapply Forall_impl; [| exact F].
  intros s V. unfold is_read. now rewrite V.
Qed.

Lemma format_rows_db (self : SQLQuery) (rows : rows_arg) (w : world) :
  typed (type_for_column self) -> w_db (snd (format_rows self rows w)) = w_db w.
Proof.
  intros T. destruct (spec_format_rows self (fun _ => False) rows T w) as [Tr _].
  now apply trail_silent in Tr.
Qed.

Lemma create_table_typed (p : params) (w w1 : world) (self : SQLQuery) :
  create_table p w = (Ok self, w1) -> typed (type_for_column self).
Proof.
  intros C. destruct (spec_create_table (fun _ => False) p w) as [_ T].
  apply T. now rewrite C.
Qed.

Lemma insert_row_db (self : SQLQuery) (w w' : world) (stored : list row) :
  dget (w_db w) (t_name (table self)) = Some stored ->
  insert_row self w = (Ok tt, w') ->
  dget (w_db w') (t_name (table self)) = Some (stored ++ [new_values self]).
Proof.
  intros G. unfold insert_row, bind, stmt_execute, execute. simpl. rewrite G.
  intros E. injection E as <-. simpl. apply dget_dset_same.
Qed.

Lemma update_rows_db (self : SQLQuery) (p : params) (w w' : world) (stored : list row) :
  dget (w_db w) (t_name (table self)) = Some stored ->
  update_rows self p w = (Ok tt, w') ->
  exists upd,
    where_keys self p (table_update (table self)) = Ok upd /\
    dget (w_db w') (t_name (table self)) =
      Some (map (updated (s_where upd) (update_values self)) stored).
Proof.
  intros G. unfold update_rows. fold (update_values self). intros E.
  apply bind_ok in E. destruct E as (upd & w0 & U & E).
  unfold lift in U. injection U as U <-. exists upd. split; [exact U |].
  destruct (where_keys_keeps _ _ _ U) as (V & T & _). simpl in V, T.
  apply bind_ok in E. destruct E as (rows & w1 & X & E).
  unfold ret in E. injection E as <-.
  unfold stmt_execute, execute in X. simpl in X. rewrite T, G, V in X.
  destruct (update_values self) as [| kv rest] eqn:Sets; [discriminate |].
  injection X as _ <-. simpl. rewrite dget_dset_same. reflexivity.
Qed.

Lemma select_rows_result (self : SQLQuery) (p : params) (read : statement)
    (w w' : world) (rows stored : list row) :
  read_statement self p = Ok read ->
  dget (w_db w) (t_name (table self)) = Some stored ->
  select_rows self p w = (Ok rows, w') ->
  rows = select_result read stored /\ w_db w' = w_db w.
Proof.
  intros RS G Sel. rewrite select_rows_read, RS in Sel.
  destruct (read_statement_shape _ _ RS) as (V & T & _).
  unfold stmt_execute in Sel. rewrite <- T in G.
  rewrite (execute_select _ _ V G) in Sel. injection Sel as <- <-. auto.
Qed.

(** A first call in state [present], outside check mode, that answers:
    what it set up, the table it leaves, the rows it formats, and which of
    the three paths it took (insert, nothing, update). *)
Lemma present_first_call (p : params) (w w1 : world) (a1 : answer) :
  p_state p = present -> check_mode p = false ->
  SQLQuery_init p w = (Ok a1, w1) ->
  exists self wa read stored stored' wd frows changed,
    create_table p w = (Ok self, wa) /\
    read_statement self p = Ok read /\
    dget (w_db w) (p_table p) = Some stored /\
    dget (w_db w1) (p_table p) = Some stored' /\
    format_rows self (RowList (select_result read stored')) wd = (Ok frows, w1) /\
    a1 = (changed, Some frows) /\
    ((select_result read stored = [] /\ changed = true /\
      stored' = stored ++ [new_values self])
     \/ (select_result read stored <> [] /\ changed = false /\
         compare_rows self (select_result read stored) = Ok false /\
         stored' = stored)
     \/ (select_result read stored <> [] /\ changed = true /\
         exists upd,
           where_keys self p (table_update (table self)) = Ok upd /\
           stored' = map (updated (s_where upd) (update_values self)) stored)).
Proof.
  intros S C E. unfold SQLQuery_init in E.
  apply bind_ok in E. destruct E as (found & w0 & X & E).
  unfold table_exists in X. injection X as <- <-.
  apply bind_ok in E. destruct E as ([] & w0 & X & E).
  destruct (dmem (w_db w) (p_table p)) eqn:D; [| discriminate].
  simpl in X. unfold ret in X. injection X as <-.
  destruct (dmem_dget _ _ D) as (stored & G).
  apply bind_ok in E. destruct E as (self & wa & CT & E).
  destruct (create_table_self _ _ CT) as (_ & N & Hd & _).
  pose proof (create_table_typed _ _ CT) as Ty.
  apply bind_ok in E. destruct E as (rows0 & wb & R & E).
  destruct (read_statement self p) as [read |] eqn:RS;
    [| rewrite select_rows_read, RS in R; discriminate].
  assert (Ga : dget (w_db wa) (t_name (table self)) = Some stored) by now rewrite N, Hd.
  destruct (select_rows_result _ _ _ RS Ga R) as [-> Hb].
  rewrite S, C in E. simpl in E.
  apply bind_ok in E. destruct E as (changed & wc & Hc & E).
  apply bind_ok in E. destruct E as (ra & wd & Hra & E).
  apply bind_ok in E. destruct E as (frows & we & Hf & E).
  unfold exit_json, ret in E. injection E as <- <-.
  pose proof (format_rows_db self ra wd Ty) as Dbf. rewrite Hf in Dbf. simpl in Dbf.
  exists self, wa, read, stored.
  destruct (length (select_result read stored) <? 1)%nat eqn:L.
  - (* no row: insert *)
    unfold ret in Hc. injection Hc as <- <-.
    apply bind_ok in Hra. destruct Hra as ([] & wx & I & Hra).
    apply bind_ok in Hra. destruct Hra as (rows & wy & Sel & Hra).
    unfold ret in Hra. injection Hra as <- <-.
    assert (Gx : dget (w_db wx) (t_name (table self)) =
                 Some (stored ++ [new_values self])).
    { eapply insert_row_db; [| exact I]. now rewrite Hb. }
    destruct (select_rows_result _ _ _ RS Gx Sel) as [-> Hy].
    exists (stored ++ [new_values self]), wy, frows, true.
    repeat split; try assumption.
    + now rewrite Dbf, Hy, <- N.
    + left. repeat split.
      destruct (select_result read stored); [reflexivity | discriminate].
  - assert (NE : select_result read stored <> [])
      by (destruct (select_result read stored); discriminate).
    unfold lift in Hc. injection Hc as Hc <-.
    destruct changed.
    + (* a difference: update *)
      apply bind_ok in Hra. destruct Hra as ([] & wx & U & Hra).
      apply bind_ok in Hra. destruct Hra as (rows & wy & Sel & Hra).
      unfold ret in Hra. injection Hra as <- <-.
      assert (Gb : dget (w_db wb) (t_name (table self)) = Some stored)
        by now rewrite Hb.
      destruct (update_rows_db self p wb Gb U) as (upd & Hu & Gx).
      destruct (select_rows_result _ _ _ RS Gx Sel) as [-> Hy].
      exists (map (updated (s_where upd) (update_values self)) stored), wy, frows, true.
      repeat split; try assumption.
      * now rewrite Dbf, Hy, <- N.
      * right. right. repeat split; [exact NE |]. now exists upd.
    + (* no difference: nothing to do *)
      unfold ret in Hra. injection Hra as <- <-.
      exists stored, wb, frows, false.
      repeat split; try assumption.
      * now rewrite Dbf, Hb, Hd.
      * right. left. repeat split; assumption.
Qed.

(** *** The rows read after the first call *)


Lemma select_result_nil (s : statement) (stored : list row) :
  s_count s = false -> select_result s stored = [] ->
  filter (matches (s_where s)) stored = [].
Proof.
  unfold select_result. intros ->.
  destruct (s_distinct s); intros Z; [apply distinct_rows_nil in Z |];
    now apply map_eq_nil in Z.
Qed.


Lemma dkeys_filter {V} (f : string -> bool) (d : dict V) :
  dkeys (filter (fun kv => f (fst kv)) d) = filter f (dkeys d).
Proof.
  unfold dkeys. induction d as [| [k v] d IH]; simpl; [reflexivity |].
  destruct (f k); simpl; now rewrite IH.
Qed.

Section Converges.
Variables (self : SQLQuery) (p : params) (read : statement).
Hypothesis no_filter : p_filter p = [].
Hypothesis is_present : p_state p = present.
Hypothesis the_read : read_statement self p = Ok read.
Hypothesis distinct_keys : NoDup (dkeys (new_values self)).
Hypothesis declared : incl (dkeys (new_values self)) (t_columns (table self)).

Lemma update_values_filter :
  update_values self =
    filter (fun kv => negb (mem (fst kv) (keys self))) (new_values self).
Proof.
  unfold update_values. now rewrite update_args_filter.
Qed.

Lemma dget_update_values (c : string) :
  dget (update_values self) c =
    if mem c (keys self) then None else dget (new_values self) c.
Proof.
  rewrite update_values_filter.
  rewrite (dget_filter (fun k => negb (mem k (keys self)))).
  now destruct (mem c (keys self)).
Qed.

Lemma NoDup_update_values : NoDup (dkeys (update_values self)).
Proof.
  rewrite update_values_filter.
  rewrite (dkeys_filter (fun k => negb (mem k (keys self)))).
  now apply NoDup_filter.
Qed.






End Converges.

(** *** Whether rows can be formatted does not depend on the clock *)







(** *** Two calls in a row *)




(** ** State [present] in check mode *)

Lemma format_rows_mapping (self : SQLQuery) (d : dict value) (w : world) :
  format_rows self (Mapping d) w =
    match d with
    | [] => (Ok [], w)
    | _ :: _ => (Err (Raised AttributeError), w)
    end.
Proof. destruct d as [| [k v] d]; reflexivity. Qed.

(** X19. In check mode the state [present] never answers with the declared
    values as rows: the call answers only when no value is declared, and
    then with an empty list of rows. *)
Lemma present_check_mode_answer (p : params) (w w' : world) (changed : bool)
    (rows : option (list row)) :
  p_state p = present -> check_mode p = true ->
  SQLQuery_init p w = (Ok (changed, rows), w') ->
  rows = Some [] /\ desired_state p w = Ok [].
Proof.
  intros S C E. unfold SQLQuery_init in E.
  apply bind_ok in E. destruct E as (found & w0 & X & E).
  unfold table_exists in X. injection X as <- <-.
  apply bind_ok in E. destruct E as ([] & w0 & X & E).
  destruct (dmem (w_db w) (p_table p)); [| discriminate].
  simpl in X. unfold ret in X. injection X as <-.
  apply bind_ok in E. destruct E as (self & wa & CT & E).
  apply bind_ok in E. destruct E as (rows0 & wb & _ & E).
  rewrite S, C in E. simpl in E.
  apply bind_ok in E. destruct E as (ch & wc & _ & E).
  apply bind_ok in E. destruct E as (ra & wd & Hra & E).
  unfold ret in Hra. injection Hra as <- <-.
  apply bind_ok in E. destruct E as (frows & we & Hf & E).
  unfold exit_json, ret in E. injection E as <- <- <-.
  rewrite format_rows_mapping in Hf.
  unfold desired_state.
  destruct (new_values self) as [| kv nv] eqn:NV; [| discriminate].
  injection Hf as <- <-. split; [reflexivity |].
  rewrite CT. simpl. now rewrite NV.
Qed.

(** ** Which statements a call executes *)

Lemma query_call (p : params) (w w1 : world) (self : SQLQuery) (read : statement)
    (stored : list row) :
  is_query (p_state p) = true ->
  dget (w_db w) (p_table p) = Some stored ->
  create_table p w = (Ok self, w1) ->
  read_statement self p = Ok read ->
  SQLQuery_init p w =
    answer_rows false
      (format_rows self (RowList (select_result read stored))
         (World (w_db w) (w_ticks w1) (w_log w ++ [read]))).
Proof.
  intros Q G CT RS.
  destruct (create_table_self _ _ CT) as (_ & N & Hd & Hl).
  destruct (read_statement_shape _ _ RS) as (V & T & _).
  assert (G1 : dget (w_db w1) (t_name (s_table read)) = Some stored)
    by now rewrite T, N, Hd.
  unfold SQLQuery_init, bind at 1. unfold table_exists, dmem. rewrite G. simpl.
  unfold bind at 1. unfold ret at 1. unfold bind at 1. rewrite CT.
  unfold bind at 1. rewrite select_rows_read, RS.
  unfold stmt_execute. rewrite (execute_select _ _ V G1). rewrite Hd, Hl.
  assert (B : state_eqb (p_state p) select || state_eqb (p_state p) count = true)
    by (destruct (p_state p); simpl in *; congruence).
  rewrite B. unfold bind, answer_rows, exit_json, ret.
  match goal with
  | |- context [format_rows ?s ?r ?w0] => destruct (format_rows s r w0) as [[frows | f] w3]
  end; reflexivity.
Qed.

(** C5. In the states [select] and [count] a call executes reads only and
    leaves the database as it found it, whatever the outcome and whether or
    not it runs in check mode; and when it answers, it answers
    [changed=False]. It answers when the table exists, the columns and the
    filter are accepted and the rows read can be formatted: the call is
    then the formatting of those rows, with [changed=False]. *)
Theorem query_states_change_nothing (p : params) (w : world) :
  p_state p = select \/ p_state p = count ->
  w_db (snd (SQLQuery_init p w)) = w_db w /\
  Forall (fun s => s_verb s = SELECT) (executed w (snd (SQLQuery_init p w))) /\
  w_log (snd (SQLQuery_init p w)) = w_log w ++ executed w (snd (SQLQuery_init p w)) /\
  (forall changed rows, fst (SQLQuery_init p w) = Ok (changed, rows) -> changed = false) /\
  (forall self w1 read stored,
     dget (w_db w) (p_table p) = Some stored ->
     create_table p w = (Ok self, w1) ->
     read_statement self p = Ok read ->
     SQLQuery_init p w =
       answer_rows false
         (format_rows self (RowList (select_result read stored))
            (World (w_db w) (w_ticks w1) (w_log w ++ [read])))).
Proof.
  intros S.
  assert (Q : is_query (p_state p) = true) by (destruct S as [-> | ->]; reflexivity).
  destruct (spec_SQLQuery_init p w) as [T A].
  apply trail_executed in T. destruct T as (E & F & D).
  assert (V : Forall (fun s => s_verb s = SELECT) (executed w (snd (SQLQuery_init p w)))).
  { eapply Forall_impl; [| exact F]. intros s. now apply issued_query. }
  repeat split.
  - apply D. eapply issued_read; [| exact F]. intros s. now apply issued_query.
  - exact V.
  - exact E.
  - intros changed rows R. destruct (A _ R) as (H & _). now apply H.
  - intros self w1 read stored G CT RS. now apply query_call.
Qed.

(** C6, amended. In check mode, in every state and whatever the outcome,
    a call executes reads only (in state [insert] two of them) and the
    database is the same after the call as before. *)
Theorem check_mode_changes_nothing (p : params) (w : world) :
  check_mode p = true ->
  w_db (snd (SQLQuery_init p w)) = w_db w /\
  Forall (fun s => s_verb s = SELECT) (executed w (snd (SQLQuery_init p w))) /\
  w_log (snd (SQLQuery_init p w)) = w_log w ++ executed w (snd (SQLQuery_init p w)).
Proof.
  intros C. destruct (spec_SQLQuery_init p w) as [T _].
  apply trail_executed in T. destruct T as (E & F & D).
  repeat split.
  - apply D. eapply issued_read; [| exact F]. intros s. now apply issued_check_mode.
  - eapply Forall_impl; [| exact F]. intros s. now apply issued_check_mode.
  - exact E.
Qed.

(** C4, amended. [distinct] marks the read of every state, not only of
    [select]: each read a call executes carries DISTINCT exactly when
    [distinct] is set, and no insert, update or delete carries it. *)
Theorem distinct_marks_every_read (p : params) (w : world) :
  Forall (fun s => s_distinct s = is_read s && p_distinct p)
         (executed w (snd (SQLQuery_init p w))).
Proof.
  destruct (spec_SQLQuery_init p w) as [T _].
  apply trail_executed in T. destruct T as (_ & F & _).
  eapply Forall_impl; [| exact F].
  intros s. unfold issued, is_read. destruct (s_verb s); simpl.
  - auto.
  - now intros (H & _).
  - now intros (H & _).
  - now intros (H & _).
Qed.

(** * Further properties of the module *)

(** ** Coercion *)

Lemma to_datetime_result (x : value) (date : bool) (w w1 : world) (v' : value) :
  to_datetime x date w = (Ok v', w1) ->
  (exists d, v' = VDate d) \/ (date = false /\ exists t, v' = VDateTime t).
Proof.
  destruct x as [| b | z | s | d | t]; try discriminate.
  - destruct (String.eqb_spec (strip s) "now") as [E | N].
    + rewrite (to_datetime_now s date w E). intros H. injection H as <- _.
      destruct date; [left; eexists; reflexivity | right; split; [| eexists]; reflexivity].
    + rewrite (to_datetime_parse s date w N).
      destruct (strptime s (date_format date)) as [t |]; [| discriminate].
      intros H. injection H as <- _.
      destruct date; [left; eexists; reflexivity | right; split; [| eexists]; reflexivity].
  - rewrite to_datetime_native_date. intros H. injection H as <- _.
    left. now exists d.
  - rewrite to_datetime_native_datetime. intros H. injection H as <- _.
    destruct date; [left; eexists; reflexivity | right; split; [| eexists]; reflexivity].
Qed.

(** Coercion is stable. A value that one of the seven type functions of
    [TYPE_FOR_NAME] returned is accepted by the same function again and
    comes back unchanged, without reading the clock. *)
Lemma python_fixed_point (e : type_entry) (v v' : value) (w w1 w' : world) :
  builtin e ->
  python e v w = (Ok v', w1) ->
  python e v' w' = (Ok v', w').
Proof.
  unfold builtin. simpl.
  intros [<- | [<- | [<- | [<- | [<- | [<- | [<- | []]]]]]]]; simpl; intros H.
  - unfold ret in H. injection H as <- _. reflexivity.
  - destruct v; simpl in H; try discriminate;
      try (destruct (int_of_str s); [| discriminate]);
      unfold ret in H; injection H as <- _; reflexivity.
  - destruct v; simpl in H; try discriminate;
      try (destruct (int_of_str s); [| discriminate]);
      unfold ret in H; injection H as <- _; reflexivity.
  - unfold ret in H. injection H as <- _. reflexivity.
  - destruct (to_datetime_result _ _ _ H) as [(d & ->) | (F & _)]; [| discriminate].
    apply to_datetime_native_date.
  - destruct (to_datetime_result _ _ _ H) as [(d & ->) | (_ & t & ->)].
    + apply to_datetime_native_date.
    + apply to_datetime_native_datetime.
  - unfold ret in H. injection H as <- _. reflexivity.
Qed.

(** ** Formatting what was formatted *)

Lemma bind_run {A B} (m : M A) (k : A -> M B) (w w0 : world) (a : A) :
  m w = (Ok a, w0) -> bind m k w = k a w0.
Proof. unfold bind. now intros ->. Qed.

Lemma dget_app_fresh {V} (pre post : dict V) (k : string) :
  dget pre k = None -> dget (pre ++ post) k = dget post k.
Proof.
  induction pre as [| [k' v'] pre IH]; simpl; [reflexivity |].
  destruct (String.eqb k k'); [discriminate | exact IH].
Qed.

Lemma format_cols_formatted (tfc : dict type_entry) (r : row) (cols : list string) :
  forall frow w out w1,
    formatted tfc frow ->
    format_cols tfc r cols frow w = (Ok out, w1) ->
    formatted tfc out.
Proof.
  induction cols as [| col rest IH]; intros frow w out w1 F E; simpl in E.
  - unfold ret in E. now injection E as <- _.
  - apply bind_ok in E. destruct E as (e & w0 & G & E).
    unfold lift, getitem in G.
    destruct (dget tfc col) as [e' |] eqn:T; [| discriminate]. injection G as <- <-.
    apply bind_ok in E. destruct E as (v & w0 & G & E).
    unfold lift in G. injection G as _ <-.
    apply bind_ok in E. destruct E as (frow' & w2 & Fv & E).
    apply (IH _ _ _ _) in E; [exact E |].
    assert (Cell : exists v', frow' = dset frow col v' /\
                     (v' = VNone \/ exists v0 wa wb, python e' v0 wa = (Ok v', wb))).
    { destruct v;
        try (unfold ret in Fv; injection Fv as <- _; exists VNone; split;
             [reflexivity | now left]);
        (apply bind_ok in Fv; destruct Fv as (v' & w3 & P & Fv);
         unfold ret in Fv; injection Fv as <- _; exists v'; split; [reflexivity |];
         right; eauto). }
    destruct Cell as (v' & -> & Hv'). destruct F as [N F].
    split; [now apply NoDup_dset |].
    intros c x. rewrite dget_dset.
    destruct (String.eqb_spec c col) as [-> | _]; [| apply F].
    intros X. injection X as <-. now exists e'.
Qed.

Lemma format_loop_formatted (tfc : dict type_entry) (rows : list row) :
  forall frows w out w1,
    Forall (formatted tfc) frows ->
    format_loop tfc (map inl rows) frows w = (Ok out, w1) ->
    Forall (formatted tfc) out.
Proof.
  induction rows as [| r rest IH]; intros frows w out w1 F E; simpl in E.
  - unfold ret in E. now injection E as <- _.
  - apply bind_ok in E. destruct E as (frow & w0 & C & E).
    apply (IH _ _ _ _) in E; [exact E |].
    apply Forall_app. split; [exact F |]. constructor; [| constructor].
    eapply format_cols_formatted; [| exact C].
    split; [constructor | intros c v; discriminate].
Qed.

Lemma format_cols_fixed (tfc : dict type_entry) (r : row) (w : world) :
  typed tfc -> formatted tfc r ->
  forall post pre, r = pre ++ post ->
    format_cols tfc r (dkeys post) pre w = (Ok r, w).
Proof.
  intros Ty [N F]. induction post as [| [c v] post IH]; intros pre R; simpl.
  - unfold ret. now rewrite R, app_nil_r.
  - assert (Fresh : dget pre c = None).
    { destruct (dget pre c) eqn:D; [| reflexivity]. exfalso.
      assert (I : In c (dkeys pre)) by (apply dget_keys; congruence).
      rewrite R in N. unfold dkeys in N. rewrite map_app in N. simpl in N.
      apply NoDup_remove_2 in N. apply N. apply in_or_app. now left. }
    assert (G : dget r c = Some v).
    { rewrite R, dget_app_fresh by exact Fresh. simpl. now rewrite String.eqb_refl. }
    destruct (F c v G) as (e & T & Hv).
    unfold lift, getitem. rewrite T, G.
    unfold bind at 1. unfold bind at 1.
    assert (Cell : (match v with
                    | VNone => ret (dset pre c v)
                    | _ => v' <- python e v ;; ret (dset pre c v')
                    end) w = (Ok (pre ++ [(c, v)]), w)).
    { rewrite <- (dset_fresh pre c v Fresh).
      destruct Hv as [-> | (v0 & wa & wb & P)]; [reflexivity |].
      pose proof (python_fixed_point v0 wa w (Ty _ _ T) P) as Fix.
      destruct v; try reflexivity; unfold bind; now rewrite Fix. }
    erewrite bind_run; [| exact Cell]. apply IH. now rewrite R, <- app_assoc.
Qed.

Lemma format_loop_fixed (tfc : dict type_entry) (w : world) (rows : list row) :
  typed tfc -> Forall (formatted tfc) rows ->
  forall frows, format_loop tfc (map inl rows) frows w = (Ok (frows ++ rows), w).
Proof.
  intros Ty F. induction F as [| r rest Hr _ IH]; intros frows; simpl.
  - unfold ret. now rewrite app_nil_r.
  - erewrite bind_run; [| exact (@format_cols_fixed tfc r w Ty Hr r [] eq_refl)].
    rewrite IH. now rewrite <- app_assoc.
Qed.

(** X1. [format_rows] is idempotent. The rows it returns are formatted
    to themselves, whenever and however often, without reading the clock:
    every cell it returns is null or a value that the type function of its
    column returned, and each of the seven type functions of
    [TYPE_FOR_NAME] gives back unchanged what it returned once. *)
Theorem format_rows_idempotent (self : SQLQuery) (rows frows : list row)
    (w w1 w' : world) :
  typed (type_for_column self) ->
  format_rows self (RowList rows) w = (Ok frows, w1) ->
  Forall (formatted (type_for_column self)) frows /\
  format_rows self (RowList frows) w' = (Ok frows, w').
Proof.
  intros Ty E. unfold format_rows in *. simpl in *.
  assert (F : Forall (formatted (type_for_column self)) frows)
    by (eapply format_loop_formatted; [| exact E]; constructor).
  split; [exact F |]. apply (format_loop_fixed w' Ty F []).
Qed.

(** ** Comparing rows *)

(** X2. [compare_rows] answers [False] exactly when every row has every
    declared column with a cell equal to the declared value: in particular
    for no rows at all and for no declared values. It answers [True] or
    raises [KeyError] (a row without a declared column) otherwise. *)
Theorem compare_rows_false_iff (self : SQLQuery) (rows : list row) :
  (compare_rows self rows = Ok false <-> Forall (agrees (new_values self)) rows) /\
  compare_rows self [] = Ok false /\
  (new_values self = [] -> compare_rows self rows = Ok false) /\
  (compare_rows self rows <> Ok false ->
   compare_rows self rows = Ok true \/ compare_rows self rows = Err (Raised KeyError)).
Proof.
  split; [| split; [| split]].
  - split; [apply compare_rows_false | apply compare_rows_converged].
  - reflexivity.
  - intros E. apply compare_rows_converged. apply Forall_forall.
    intros r _ col v. rewrite E. discriminate.
  - unfold compare_rows. induction rows as [| r rest IH]; simpl; [congruence |].
    assert (Row : forall cols,
               compare_row (new_values self) r cols = Ok true \/
               compare_row (new_values self) r cols = Ok false \/
               compare_row (new_values self) r cols = Err (Raised KeyError)).
    { induction cols as [| c cols IHc]; simpl; [auto |]. unfold getitem.
      destruct (dget (new_values self) c); simpl; [| auto].
      destruct (dget r c); simpl; [| auto].
      destruct (py_ne v v0); auto. }
    destruct (Row (dkeys (new_values self))) as [-> | [-> | ->]]; simpl; auto.
Qed.

(** ** The filter compiler *)

(** X3. [_split_filter] compiles the entries of a mapping in the order
    given and appends the predicates, in that order, to the list it
    received: it succeeds exactly when every entry compiles, and then one
    predicate per entry has been added. *)
Theorem split_filter_in_order (self : SQLQuery) (fltrs : dict fnode)
    (args out : list clause) :
  _split_filter self args fltrs = Ok out <->
  exists compiled,
    out = args ++ compiled /\
    Forall2 (fun entry c => split_entry self (fst entry) (snd entry) = Ok c)
            fltrs compiled.
Proof.
  revert args out. induction fltrs as [| [key node] rest IH]; intros args out; simpl.
  - split.
    + intros E. injection E as <-. exists []. split; [now rewrite app_nil_r | constructor].
    + intros (compiled & -> & F). inversion F. now rewrite app_nil_r.
  - split.
    + destruct (split_entry self key node) as [c |] eqn:E; simpl; [| discriminate].
      intros H. apply IH in H. destruct H as (compiled & -> & F).
      exists (c :: compiled). split; [now rewrite <- app_assoc |].
      constructor; [exact E | exact F].
    + intros (compiled & -> & F). inversion F as [| e c l l' Hc Hl]; subst.
      simpl in Hc. rewrite Hc. simpl. apply IH.
      exists l'. split; [now rewrite <- app_assoc | exact Hl].
Qed.

Lemma where_keys_loop_total (self : SQLQuery) :
  incl (dkeys (new_values self)) (t_columns (table self)) ->
  forall cols args, exists out, where_keys_loop self cols args = Ok out.
Proof.
  intros I. induction cols as [| col rest IH]; intros args; simpl.
  - now exists args.
  - destruct (dget (new_values self) col) as [v |] eqn:E; [| apply IH].
    unfold _where_column_helper.
    assert (M : mem col (t_columns (table self)) = true).
    { apply mem_In, I. apply (proj2 (dget_keys _ col)). congruence. }
    rewrite M. simpl. apply IH.
Qed.

(** X4. The key columns never make [where_keys] fail. For the [self] that
    [create_table] sets up, the [ValueError] of [_where_column_helper] cannot
    come from a key: a key with a declared value is a column of the table and
    a key without one is skipped. So [where_keys] succeeds whenever there is
    no filter, and when it fails the failure is the one of compiling the
    filter. *)
Theorem where_keys_fails_only_on_filter (p : params) (w w1 : world) (self : SQLQuery)
    (stmt : statement) :
  create_table p w = (Ok self, w1) ->
  (p_filter p = [] -> exists stmt', where_keys self p stmt = Ok stmt') /\
  (forall f, where_keys self p stmt = Err f ->
     _split_filter self [] (p_filter p) = Err f).
Proof.
  intros CT. destruct (create_table_shape _ _ CT) as [_ Inc].
  destruct (where_keys_loop_total self Inc (keys self) []) as (args & L).
  rewrite where_keys_args. unfold where_args. rewrite L. cbn [rbind].
  rewrite split_filter_app. split.
  - intros ->. cbn. eexists. reflexivity.
  - intros f.
    destruct (_split_filter self [] (p_filter p)) as [compiled | f'] eqn:C;
      destruct (p_filter p) as [| e rest]; cbn; try discriminate.
    congruence.
Qed.

(** ** The statements of a call, and the database they leave *)

Lemma SQLQuery_init_dispatch (p : params) :
  SQLQuery_init p =
    (found <- table_exists (p_table p) ;;
     (if negb found then fail_json "table does not exist" else ret tt) ;;
     self <- create_table p ;;
     rows_after <- select_rows self p ;;
     dispatch p self rows_after).
Proof. reflexivity. Qed.

Lemma replay_app (l1 l2 : list statement) (db : database) :
  replay (l1 ++ l2) db = replay l2 (replay l1 db).
Proof. unfold replay. apply fold_left_app. Qed.

Section Histories.
Variable P : statement -> Prop.

Lemma history_refl (w : world) : history P w w.
Proof. exists []. rewrite app_nil_r. repeat split. constructor. Qed.

Lemma history_trans (w1 w2 w3 : world) :
  history P w1 w2 -> history P w2 w3 -> history P w1 w3.
Proof.
  intros (l1 & E1 & F1 & D1) (l2 & E2 & F2 & D2).
  exists (l1 ++ l2). split; [| split].
  - now rewrite E2, E1, app_assoc.
  - apply Forall_app. now split.
  - now rewrite replay_app, <- D1.
Qed.

Lemma history_quiet (w w' : world) :
  w_db w' = w_db w /\ w_log w' = w_log w -> history P w w'.
Proof.
  intros [Hd Hl]. exists []. rewrite app_nil_r. repeat split; auto.
Qed.

Lemma hspec_ret {A} (Q : A -> Prop) (a : A) : Q a -> hspec P Q (ret a).
Proof.
  intros Ha w. split; [apply history_refl |].
  simpl. intros a' E. now injection E as <-.
Qed.

Lemma hspec_lift {A} (Q : A -> Prop) (r : result A) :
  (forall a, r = Ok a -> Q a) -> hspec P Q (lift r).
Proof. intros Hr w. split; [apply history_refl | exact Hr]. Qed.

Lemma hspec_bind {A B} (Q : A -> Prop) (Q' : B -> Prop) (m : M A) (k : A -> M B) :
  hspec P Q m -> (forall a, Q a -> hspec P Q' (k a)) -> hspec P Q' (bind m k).
Proof.
  intros Hm Hk w. unfold bind.
  destruct (Hm w) as [Tm Qm]. destruct (m w) as [[a | f] w1]; simpl in *.
  - destruct (Hk a (Qm a eq_refl) w1) as [Tk Qk].
    split; [eapply history_trans; eassumption | exact Qk].
  - split; [exact Tm | discriminate].
Qed.

Lemma hspec_then {A B} (Q' : B -> Prop) (m : M A) (k : A -> M B) :
  hspec P any m -> (forall a, hspec P Q' (k a)) -> hspec P Q' (bind m k).
Proof. intros Hm Hk. apply hspec_bind with (Q := any); auto. Qed.

Lemma hspec_stmt_execute (s : statement) : P s -> hspec P any (stmt_execute s).
Proof.
  intros Hs w. split; [| intros; exact I].
  unfold stmt_execute. destruct (execute s (w_db w)) as [r db'] eqn:E. simpl.
  exists [s]. repeat split; auto. simpl. now rewrite E.
Qed.

Lemma hspec_format_rows (self : SQLQuery) (rows : rows_arg) :
  typed (type_for_column self) -> hspec P any (format_rows self rows).
Proof.
  intros T w. split; [| intros; exact I].
  apply history_quiet.
  destruct (spec_format_rows self (fun _ => False) rows T w) as [Tr _].
  now apply trail_silent in Tr.
Qed.

End Histories.

Lemma create_table_table (p : params) (w w1 : world) (self : SQLQuery) :
  create_table p w = (Ok self, w1) ->
  table self = sa_Table (p_table p) (map arg_name (p_columns p)).
Proof.
  unfold create_table. intros E. apply bind_ok in E.
  destruct E as ([[columns nv] tfc] & w0 & L & E).
  unfold ret in E. injection E as <- _. simpl.
  apply create_table_loop_keys in L. destruct L as (-> & _). reflexivity.
Qed.

Lemma create_table_ready (p : params) (w w1 : world) (self : SQLQuery) :
  create_table p w = (Ok self, w1) -> ready p self.
Proof.
  intros CT. destruct (create_table_shape _ _ CT) as [N I].
  repeat split; try assumption.
  - exact (create_table_typed _ _ CT).
  - exact (create_table_table _ _ CT).
Qed.

Lemma hspec_create_table (P : statement -> Prop) (p : params) :
  hspec P (ready p) (create_table p).
Proof.
  intros w. split.
  - apply history_quiet, create_table_silent.
  - intros self E. destruct (create_table p w) as [[self' | f] w1] eqn:CT;
      simpl in E; [| discriminate].
    injection E as <-. exact (create_table_ready _ _ CT).
Qed.

(** *** Predicates name columns of the table *)

Lemma fnode_induction (Pn : fnode -> Prop) :
  (forall sub, Forall (fun kv => Pn (snd kv)) sub -> Pn (FGroup sub)) ->
  (forall c v, Pn (FCond c v)) ->
  forall n, Pn n.
Proof.
  intros HG HC.
  refine (fix IH (n : fnode) : Pn n :=
            match n with
            | FGroup sub =>
                HG sub ((fix go (l : list (string * fnode))
                           : Forall (fun kv => Pn (snd kv)) l :=
                           match l with
                           | [] => Forall_nil _
                           | kv :: rest =>
                               Forall_cons kv
                                 (match kv as kv0 return Pn (snd kv0) with
                                  | (k, m) => IH m
                                  end)
                                 (go rest)
                           end) sub)
            | FCond c v => HC c v
            end).
Qed.

Lemma split_filter_each (self : SQLQuery) (Pc : clause -> Prop) (fltrs : dict fnode) :
  Forall (fun kv => forall c, split_entry self (fst kv) (snd kv) = Ok c -> Pc c) fltrs ->
  forall args out,
    Forall Pc args -> _split_filter self args fltrs = Ok out -> Forall Pc out.
Proof.
  induction 1 as [| [key node] rest H _ IH]; intros args out A; simpl.
  - intros E. now injection E as <-.
  - simpl in H. destruct (split_entry self key node) as [c |]; simpl; [| discriminate].
    apply IH. apply Forall_app. split; [exact A |]. constructor; [now apply H | constructor].
Qed.

Lemma columns_of_each (cols : list string) (args : list clause) :
  Forall (fun c => incl (columns_of c) cols) args ->
  incl (flat_map columns_of args) cols.
Proof.
  induction 1 as [| c rest Hc _ IH]; simpl; [intros x [] |].
  now apply incl_app.
Qed.

Lemma split_entry_columns (self : SQLQuery) (node : fnode) :
  forall key c, split_entry self key node = Ok c ->
    incl (columns_of c) (t_columns (table self)).
Proof.
  induction node as [sub IH | col v] using fnode_induction; intros key c.
  - simpl. rewrite !split_entry_group.
    assert (Sub : forall out, _split_filter self [] sub = Ok out ->
                    incl (flat_map columns_of out) (t_columns (table self))).
    { intros out E. apply columns_of_each.
      eapply (@split_filter_each self
                (fun c0 => incl (columns_of c0) (t_columns (table self))) sub);
        [| | exact E]; [| constructor].
      eapply Forall_impl; [| exact IH]. intros [k n] H c'. apply H. }
    destruct (String.eqb key "and").
    { destruct (_split_filter self [] sub) as [out |] eqn:E; simpl; [| discriminate].
      intros H. injection H as <-. now apply Sub. }
    destruct (String.eqb key "or").
    { destruct (_split_filter self [] sub) as [out |] eqn:E; simpl; [| discriminate].
      intros H. injection H as <-. now apply Sub. }
    destruct (dget sub "column"); discriminate.
  - simpl. destruct (String.eqb key "and"); [discriminate |].
    destruct (String.eqb key "or"); [discriminate |].
    unfold _where_column_helper.
    destruct (mem col (t_columns (table self))) eqn:Mc; simpl; [| discriminate].
    apply mem_In in Mc.
    assert (One : incl [col] (t_columns (table self)))
      by (intros x [<- | []]; exact Mc).
    destruct (String.eqb key "eq"); [intros H; injection H as <-; exact One |].
    destruct (String.eqb key "ne"); [intros H; injection H as <-; exact One |].
    destruct (has_operator key); [intros H; injection H as <-; exact One | discriminate].
Qed.

Lemma where_keys_loop_columns (self : SQLQuery) (cols : list string) :
  forall args out,
    where_keys_loop self cols args = Ok out ->
    Forall (fun c => incl (columns_of c) (t_columns (table self))) args ->
    Forall (fun c => incl (columns_of c) (t_columns (table self))) out.
Proof.
  induction cols as [| col rest IH]; intros args out; simpl.
  - intros E A. now injection E as <-.
  - destruct (dget (new_values self) col) as [v |]; [| apply IH].
    unfold _where_column_helper.
    destruct (mem col (t_columns (table self))) eqn:Mc; simpl; [| discriminate].
    intros E A. apply (IH _ _ E). apply Forall_app. split; [exact A |].
    constructor; [| constructor]. intros x [<- | []]. now apply mem_In.
Qed.

Lemma where_args_columns (self : SQLQuery) (p : params) (args : list clause) :
  where_args self p = Ok args ->
  incl (flat_map columns_of args) (t_columns (table self)).
Proof.
  unfold where_args.
  destruct (where_keys_loop self (keys self) []) as [keq |] eqn:L; simpl; [| discriminate].
  apply where_keys_loop_columns in L; [| constructor].
  intros E. apply columns_of_each.
  destruct (p_filter p) as [| e rest] eqn:F; [now injection E as <- |].
  rewrite <- F in E.
  eapply (@split_filter_each self
            (fun c0 => incl (columns_of c0) (t_columns (table self))) (p_filter p));
    [| exact L | exact E].
  apply Forall_forall. intros [k n] _ c. apply split_entry_columns.
Qed.

Lemma where_keys_columns (self : SQLQuery) (p : params) (stmt stmt' : statement) :
  where_keys self p stmt = Ok stmt' -> s_where stmt = None ->
  incl (where_columns stmt') (t_columns (table self)).
Proof.
  rewrite where_keys_args.
  destruct (where_args self p) as [args |] eqn:A; simpl; [| discriminate].
  intros E W. injection E as <-. unfold where_columns.
  destruct (0 <? length args)%nat; simpl; [| rewrite W; intros x []].
  now apply where_args_columns with (p := p).
Qed.

(** *** Every statement of a call is [sound] *)

Lemma sound_flags (p : params) (s s' : statement) :
  s_table s' = s_table s -> s_where s' = s_where s -> s_values s' = s_values s ->
  sound p s -> sound p s'.
Proof.
  unfold sound, where_columns. intros -> -> ->. auto.
Qed.

Section Sound.
Variables (p : params) (self : SQLQuery).
Hypothesis is_ready : ready p self.

Lemma ready_table :
  t_name (table self) = p_table p /\
  t_columns (table self) = nodup string_dec (map arg_name (p_columns p)).
Proof. destruct is_ready as (_ & -> & _). split; reflexivity. Qed.

Lemma where_keys_sound (stmt stmt' : statement) :
  s_table stmt = table self -> s_where stmt = None -> s_values stmt = [] ->
  where_keys self p stmt = Ok stmt' ->
  s_table stmt' = table self /\ sound p stmt'.
Proof.
  intros T W V E. destruct ready_table as [N C].
  destruct (where_keys_keeps _ _ _ E) as (_ & T' & _ & _ & V').
  split; [now rewrite T' |].
  unfold sound. rewrite T', T, V', V. repeat split; try assumption.
  - exact (where_keys_columns _ _ _ E W).
  - intros x [].
Qed.

Lemma hspec_select_rows : hspec (sound p) any (select_rows self p).
Proof.
  unfold select_rows. apply hspec_bind with (Q := sound p).
  - apply hspec_lift. intros s E. now apply (where_keys_sound (table_select (table self))).
  - intros s H. apply hspec_stmt_execute.
    apply sound_flags with (s := s); [| | | exact H];
      destruct (p_distinct p), (state_eqb (p_state p) count); reflexivity.
Qed.

Lemma hspec_insert_row : hspec (sound p) any (insert_row self).
Proof.
  unfold insert_row. apply hspec_then; [| intros; now apply hspec_ret].
  apply hspec_stmt_execute. destruct ready_table as [N C].
  destruct is_ready as (_ & _ & I & _).
  unfold sound, where_columns. simpl. repeat split; try assumption. intros x [].
Qed.

Lemma update_values_declared : incl (dkeys (update_values self)) (dkeys (new_values self)).
Proof.
  destruct is_ready as (_ & _ & _ & N).
  rewrite (update_values_filter self N).
  rewrite (dkeys_filter (fun k => negb (mem k (keys self)))).
  apply incl_filter.
Qed.

Lemma hspec_update_rows : hspec (sound p) any (update_rows self p).
Proof.
  unfold update_rows. fold (update_values self).
  apply hspec_bind with (Q := fun s => s_table s = table self /\ sound p s).
  - apply hspec_lift. intros s E. now apply (where_keys_sound (table_update (table self))).
  - intros s (T & N & C & W & _). apply hspec_then; [| intros; now apply hspec_ret].
    apply hspec_stmt_execute. unfold sound, where_columns in *. simpl.
    repeat split; try assumption.
    rewrite T. destruct is_ready as (_ & _ & I & _).
    eapply incl_tran; [apply update_values_declared | exact I].
Qed.

Lemma hspec_delete_rows : hspec (sound p) any (delete_rows self p).
Proof.
  unfold delete_rows. apply hspec_bind with (Q := sound p).
  - apply hspec_lift. intros s E. now apply (where_keys_sound (table_delete (table self))).
  - intros s H. apply hspec_then; [| intros; now apply hspec_ret].
    now apply hspec_stmt_execute.
Qed.

Lemma hspec_dispatch (rows_after : list row) :
  hspec (sound p) any (dispatch p self rows_after).
Proof.
  assert (Ty : typed (type_for_column self)) by apply is_ready.
  unfold dispatch.
  destruct (state_eqb (p_state p) select || state_eqb (p_state p) count).
  { apply hspec_then; [now apply hspec_format_rows | intros; now apply hspec_ret]. }
  destruct (state_eqb (p_state p) absent).
  { apply hspec_then; [| intros; now apply hspec_ret].
    destruct ((if (length rows_after <? 1)%nat then false else true) && negb (check_mode p));
      [apply hspec_delete_rows | now apply hspec_ret]. }
  destruct (state_eqb (p_state p) insert).
  { apply hspec_then.
    - destruct (negb (check_mode p)); [apply hspec_insert_row | now apply hspec_ret].
    - intros _. apply hspec_then; [apply hspec_select_rows |]. intros rows.
      apply hspec_then; [now apply hspec_format_rows | intros; now apply hspec_ret]. }
  apply hspec_then.
  { destruct (length rows_after <? 1)%nat; [now apply hspec_ret |].
    apply hspec_lift. intros; exact I. }
  intros changed. apply hspec_then.
  { destruct (check_mode p); [now apply hspec_ret |].
    destruct changed; [| now apply hspec_ret].
    apply hspec_then.
    - destruct (length rows_after <? 1)%nat; [apply hspec_insert_row | apply hspec_update_rows].
    - intros _. apply hspec_then; [apply hspec_select_rows |].
      intros rows. now apply hspec_ret. }
  intros rows. apply hspec_then; [now apply hspec_format_rows | intros; now apply hspec_ret].
Qed.

End Sound.

Lemma hspec_SQLQuery_init (p : params) : hspec (sound p) any (SQLQuery_init p).
Proof.
  rewrite SQLQuery_init_dispatch.
  apply hspec_then.
  { intros w. split; [apply history_refl | intros; exact I]. }
  intros found. apply hspec_then.
  { destruct (negb found); [apply hspec_lift; discriminate | now apply hspec_ret]. }
  intros _. apply hspec_bind with (Q := ready p); [apply hspec_create_table |].
  intros self R. apply hspec_then; [now apply hspec_select_rows |].
  intros rows. now apply hspec_dispatch.
Qed.

Lemma history_executed (P : statement -> Prop) (w w' : world) :
  history P w w' ->
  Forall P (executed w w') /\ w_db w' = replay (executed w w') (w_db w).
Proof.
  intros (l & E & F & D). rewrite (executed_app w w' l E). auto.
Qed.

Lemma execute_other_table (s : statement) (db : database) (n : string) :
  n <> t_name (s_table s) -> dget (snd (execute s db)) n = dget db n.
Proof.
  intros N. unfold execute.
  destruct (dget db (t_name (s_table s))) as [stored |]; [| reflexivity].
  destruct (s_verb s); simpl; try reflexivity; try now apply dget_dset_other.
  destruct (s_values s); simpl; [reflexivity | now apply dget_dset_other].
Qed.

Lemma replay_other_table (name n : string) (l : list statement) :
  Forall (fun s => t_name (s_table s) = name) l -> n <> name ->
  forall db, dget (replay l db) n = dget db n.
Proof.
  intros F N. induction F as [| s l Hs _ IH]; intros db; simpl; [reflexivity |].
  unfold replay in *. simpl. rewrite IH. apply execute_other_table. now rewrite Hs.
Qed.

(** X5. Every statement a call executes, whatever its state and outcome,
    is a statement on the table named in the request, built on exactly the
    declared columns, whose WHERE clause and whose values name declared
    columns only: a key or a filter column that is not declared never
    reaches the database. *)
Theorem statements_are_sound (p : params) (w : world) :
  Forall (sound p) (executed w (snd (SQLQuery_init p w))).
Proof.
  destruct (hspec_SQLQuery_init p w) as [H _].
  now apply history_executed in H.
Qed.

(** X6. A call never touches another table: for every table name other
    than the one of the request, the rows stored under it are the same
    after the call as before, whatever the state and the outcome. *)
Theorem other_tables_untouched (p : params) (w : world) (n : string) :
  n <> p_table p ->
  dget (w_db (snd (SQLQuery_init p w))) n = dget (w_db w) n.
Proof.
  intros N. destruct (hspec_SQLQuery_init p w) as [H _].
  apply history_executed in H. destruct H as [F ->].
  apply (replay_other_table (name := p_table p)); [| exact N].
  eapply Forall_impl; [| exact F]. now intros s (T & _).
Qed.

(** ** Setup, then the read *)

Lemma run_after_setup (p : params) (w w1 : world) (self : SQLQuery)
    (read : statement) (stored : list row) :
  dget (w_db w) (p_table p) = Some stored ->
  create_table p w = (Ok self, w1) ->
  read_statement self p = Ok read ->
  SQLQuery_init p w =
    dispatch p self (select_result read stored)
      (World (w_db w) (w_ticks w1) (w_log w ++ [read])).
Proof.
  intros G CT RS.
  destruct (create_table_self _ _ CT) as (_ & N & Hd & Hl).
  destruct (read_statement_shape _ _ RS) as (V & T & _).
  assert (G1 : dget (w_db w1) (t_name (s_table read)) = Some stored)
    by now rewrite T, N, Hd.
  rewrite SQLQuery_init_dispatch.
  unfold bind at 1. unfold table_exists, dmem. rewrite G. simpl.
  unfold bind at 1. unfold ret at 1. unfold bind at 1. rewrite CT.
  unfold bind at 1. rewrite select_rows_read, RS.
  unfold stmt_execute. rewrite (execute_select _ _ V G1). now rewrite Hd, Hl.
Qed.

(** X7. A call sets up, then reads. When the table does not exist the
    call fails with [table does not exist] before anything else; when a
    column is not accepted ([create_table] raises) or the filter does not
    compile, the call fails with that error; in all three cases no statement
    is executed and the database is untouched. Otherwise the first
    statement the call executes is the read built from keys and filter. *)
Theorem call_sets_up_then_reads (p : params) (w : world) :
  (dmem (w_db w) (p_table p) = false ->
   SQLQuery_init p w = (Err (FailJson "table does not exist"), w)) /\
  (dmem (w_db w) (p_table p) = true ->
   (forall f w1, create_table p w = (Err f, w1) ->
      fst (SQLQuery_init p w) = Err f /\
      executed w (snd (SQLQuery_init p w)) = [] /\
      w_db (snd (SQLQuery_init p w)) = w_db w) /\
   (forall self w1 f, create_table p w = (Ok self, w1) ->
      read_statement self p = Err f ->
      fst (SQLQuery_init p w) = Err f /\
      executed w (snd (SQLQuery_init p w)) = [] /\
      w_db (snd (SQLQuery_init p w)) = w_db w) /\
   (forall self w1 read, create_table p w = (Ok self, w1) ->
      read_statement self p = Ok read ->
      exists l, executed w (snd (SQLQuery_init p w)) = read :: l)).
Proof.
  split; [| intros X; split; [| split]].
  - intros X. rewrite SQLQuery_init_dispatch.
    unfold bind at 1. unfold table_exists. now rewrite X.
  - intros f w1 CT.
    destruct (create_table_silent p w) as [Hd Hl]. rewrite CT in Hd, Hl.
    assert (Run : SQLQuery_init p w = (Err f, w1)).
    { rewrite SQLQuery_init_dispatch.
      unfold bind at 1. unfold table_exists. rewrite X. simpl.
      unfold bind at 1. unfold ret at 1. unfold bind at 1. now rewrite CT. }
    rewrite Run. simpl in *. repeat split; [| exact Hd].
    apply executed_app. now rewrite app_nil_r.
  - intros self w1 f CT RS.
    destruct (create_table_silent p w) as [Hd Hl]. rewrite CT in Hd, Hl.
    assert (Run : SQLQuery_init p w = (Err f, w1)).
    { rewrite SQLQuery_init_dispatch.
      unfold bind at 1. unfold table_exists. rewrite X. simpl.
      unfold bind at 1. unfold ret at 1. unfold bind at 1. rewrite CT.
      unfold bind at 1. now rewrite select_rows_read, RS. }
    rewrite Run. simpl in *. repeat split; [| exact Hd].
    apply executed_app. now rewrite app_nil_r.
  - intros self w1 read CT RS.
    destruct (dmem_dget _ _ X) as (stored & G).
    rewrite (@run_after_setup p w w1 self read stored G CT RS).
    destruct (@hspec_dispatch p self (@create_table_ready p w w1 self CT)
                (select_result read stored)
                (World (w_db w) (w_ticks w1) (w_log w ++ [read]))) as [(l & E & _) _].
    exists l. apply executed_app. rewrite E. simpl. now rewrite <- app_assoc.
Qed.

(** ** The three statements that write *)

Section Runs.
Variables (p : params) (self : SQLQuery) (read : statement).
Hypothesis the_read : read_statement self p = Ok read.

Lemma select_rows_run (w : world) (stored : list row) :
  dget (w_db w) (t_name (table self)) = Some stored ->
  select_rows self p w =
    (Ok (select_result read stored), World (w_db w) (w_ticks w) (w_log w ++ [read])).
Proof.
  intros G. rewrite select_rows_read, the_read.
  destruct (read_statement_shape _ _ the_read) as (V & T & _).
  unfold stmt_execute. rewrite <- T in G. now rewrite (execute_select _ _ V G).
Qed.

Lemma insert_row_run (w : world) (stored : list row) :
  dget (w_db w) (t_name (table self)) = Some stored ->
  insert_row self w =
    (Ok tt, World (dset (w_db w) (t_name (table self)) (stored ++ [new_values self]))
              (w_ticks w) (w_log w ++ [insert_statement self])).
Proof.
  intros G. unfold insert_row, bind, stmt_execute, execute. simpl. now rewrite G.
Qed.

Lemma delete_rows_run (w : world) (stored : list row) :
  dget (w_db w) (t_name (table self)) = Some stored ->
  exists del,
    delete_statement self p = Ok del /\ s_verb del = DELETE /\
    s_where del = s_where read /\
    delete_rows self p w =
      (Ok tt, World (dset (w_db w) (t_name (table self)) (kept (s_where read) stored))
                (w_ticks w) (w_log w ++ [del])).
Proof.
  intros G. destruct (delete_statement_shape _ _ the_read) as (del & D & V & T & W).
  exists del. repeat split; try assumption.
  unfold delete_rows, bind, lift. fold (delete_statement self p). rewrite D.
  unfold stmt_execute, execute. rewrite T, G, V, W. reflexivity.
Qed.

End Runs.

(** A call that answers has passed setup. *)
Lemma answer_needs_setup (p : params) (w w' : world) (a : answer) :
  SQLQuery_init p w = (Ok a, w') ->
  exists stored self w1 read,
    dget (w_db w) (p_table p) = Some stored /\
    create_table p w = (Ok self, w1) /\
    read_statement self p = Ok read.
Proof.
  rewrite SQLQuery_init_dispatch. intros E.
  apply bind_ok in E. destruct E as (found & w0 & X & E).
  unfold table_exists in X. injection X as <- <-.
  apply bind_ok in E. destruct E as ([] & w0 & X & E).
  destruct (dmem (w_db w) (p_table p)) eqn:D; [| discriminate].
  simpl in X. unfold ret in X. injection X as <-.
  destruct (dmem_dget _ _ D) as (stored & G).
  apply bind_ok in E. destruct E as (self & w1 & CT & E).
  apply bind_ok in E. destruct E as (rows & w2 & R & _).
  rewrite select_rows_read in R.
  destruct (read_statement self p) as [read |] eqn:RS; [| discriminate].
  now exists stored, self, w1, read.
Qed.

(** ** State [insert] *)

Lemma formatted_answer_world (self : SQLQuery) (rows : rows_arg) (changed : bool)
    (wf : world) :
  typed (type_for_column self) ->
  w_db (snd (answer_rows changed (format_rows self rows wf))) = w_db wf /\
  w_log (snd (answer_rows changed (format_rows self rows wf))) = w_log wf.
Proof.
  intros Ty. rewrite answer_rows_world.
  destruct (spec_format_rows self (fun _ => False) rows Ty wf) as [Tr _].
  now apply trail_silent in Tr.
Qed.

Lemma format_then_exit (self : SQLQuery) (rows : rows_arg) (changed : bool) (wf : world) :
  (frows <- format_rows self rows ;; exit_json changed (Some frows)) wf =
    answer_rows changed (format_rows self rows wf).
Proof.
  unfold bind, answer_rows, exit_json, ret.
  now destruct (format_rows self rows wf) as [[frows | f] w3].
Qed.

(** X8. State [insert], for a request that passes setup. Outside check
    mode the call executes the read, the insert and the read again, and the
    table gains exactly one row, the declared values, after the rows it
    had: calling again adds another. In check mode it executes the two
    reads and the database stays as it is. Either way the answer, there
    when the rows read last can be formatted, has [changed=True]. *)
Theorem insert_adds_one_row (p : params) (w w1 : world) (self : SQLQuery)
    (read : statement) (stored : list row) :
  p_state p = insert ->
  dget (w_db w) (p_table p) = Some stored ->
  create_table p w = (Ok self, w1) ->
  read_statement self p = Ok read ->
  let stored' := if check_mode p then stored else stored ++ [new_values self] in
  let run := SQLQuery_init p w in
  dget (w_db (snd run)) (p_table p) = Some stored' /\
  executed w (snd run) =
    (if check_mode p then [read; read] else [read; insert_statement self; read]) /\
  (check_mode p = true -> w_db (snd run) = w_db w) /\
  (exists wf, run = answer_rows true
                      (format_rows self (RowList (select_result read stored')) wf)).
Proof.
  intros S G CT RS stored' run.
  destruct (create_table_self _ _ CT) as (_ & N & _).
  pose proof (create_table_typed _ _ CT) as Ty.
  assert (Run : exists wf,
             run = answer_rows true
                     (format_rows self (RowList (select_result read stored')) wf) /\
             w_log wf = w_log w ++
               (if check_mode p then [read; read]
                else [read; insert_statement self; read]) /\
             dget (w_db wf) (p_table p) = Some stored' /\
             (check_mode p = true -> w_db wf = w_db w)).
  { unfold run, stored'.
    rewrite (@run_after_setup p w w1 self read stored G CT RS).
    unfold dispatch. rewrite S. simpl.
    destruct (check_mode p); simpl.
    - unfold bind at 1. unfold ret at 1. unfold bind at 1.
      erewrite (@select_rows_run p self read RS _ stored); [| simpl; now rewrite N].
      rewrite format_then_exit. eexists. split; [reflexivity |]. simpl.
      rewrite <- app_assoc. auto.
    - unfold bind at 1.
      erewrite (@insert_row_run self _ stored); [| simpl; now rewrite N].
      cbv beta iota. unfold bind at 1.
      erewrite (@select_rows_run p self read RS _ (stored ++ [new_values self]));
        [| simpl; apply dget_dset_same].
      rewrite format_then_exit. eexists. split; [reflexivity |]. simpl.
      rewrite <- !app_assoc, N. split; [reflexivity |].
      split; [apply dget_dset_same | discriminate]. }
  destruct Run as (wf & Run & Log & Tab & Dry).
  destruct (formatted_answer_world self
              (RowList (select_result read stored')) true wf Ty) as [Db Lg].
  rewrite <- Run in Db, Lg.
  split; [| split; [| split]].
  - now rewrite Db.
  - apply executed_app. now rewrite Lg.
  - intros C. rewrite Db. now apply Dry.
  - now exists wf.
Qed.

(** ** State [absent]: what is left *)

Lemma read_statement_count (self : SQLQuery) (p : params) (read : statement) :
  read_statement self p = Ok read -> s_count read = state_eqb (p_state p) count.
Proof.
  unfold read_statement. rewrite where_keys_args.
  destruct (where_args self p) as [args |]; simpl; [| discriminate].
  intros E. injection E as <-.
  destruct (state_eqb (p_state p) count), (p_distinct p), (0 <? length args)%nat; reflexivity.
Qed.

Lemma filter_none {A} (f : A -> bool) (l : list A) :
  filter f l = [] -> filter (fun x => negb (f x)) l = l.
Proof.
  induction l as [| x l IH]; simpl; [reflexivity |].
  destruct (f x); simpl; [discriminate |]. intros E. now rewrite IH.
Qed.

Lemma filter_kept (w : option clause) (stored : list row) :
  filter (matches w) (kept w stored) = [].
Proof.
  unfold kept. induction stored as [| r rest IH]; simpl; [reflexivity |].
  destruct (matches w r) eqn:E; simpl; [exact IH |]. now rewrite E.
Qed.

Lemma select_result_kept (read : statement) (stored : list row) :
  s_count read = false -> select_result read (kept (s_where read) stored) = [].
Proof.
  intros C. unfold select_result. rewrite filter_kept, C. simpl.
  now destruct (s_distinct read).
Qed.

Lemma absent_run (p : params) (w w1 : world) (self : SQLQuery)
    (read : statement) (stored : list row) :
  p_state p = absent -> check_mode p = false ->
  dget (w_db w) (p_table p) = Some stored ->
  create_table p w = (Ok self, w1) ->
  read_statement self p = Ok read ->
  exists changed w',
    SQLQuery_init p w = (Ok (changed, None), w') /\
    (changed = true <-> select_result read stored <> []) /\
    dget (w_db w') (p_table p) = Some (kept (s_where read) stored) /\
    (changed = false -> w_db w' = w_db w).
Proof.
  intros S C G CT RS.
  destruct (create_table_self _ _ CT) as (_ & N & _).
  pose proof (read_statement_count _ _ RS) as Cn. rewrite S in Cn. simpl in Cn.
  rewrite (@run_after_setup p w w1 self read stored G CT RS).
  unfold dispatch. rewrite S, C. simpl.
  destruct (select_result read stored) as [| r0 rest] eqn:Rows; simpl.
  - exists false. eexists. split; [reflexivity |]. simpl.
    split; [split; [discriminate | congruence] |].
    split; [| reflexivity].
    apply (select_result_nil _ _ Cn) in Rows.
    unfold kept. now rewrite (filter_none _ _ Rows).
  - destruct (@delete_rows_run p self read RS
                (World (w_db w) (w_ticks w1) (w_log w ++ [read])) stored)
      as (del & _ & _ & _ & D); [simpl; now rewrite N |].
    unfold bind at 1. rewrite D. unfold exit_json, ret.
    exists true. eexists. split; [reflexivity |]. simpl.
    split; [split; [discriminate | reflexivity] |].
    split; [rewrite N; apply dget_dset_same | discriminate].
Qed.

(** X9. State [absent], outside check mode, for a request that passes
    setup. After the call the table holds, in their order, exactly the
    rows that did not match the WHERE clause of the read (key equalities
    and filter), and the same read now returns no row. *)
Theorem absent_removes_matching_rows (p : params) (w w1 : world) (self : SQLQuery)
    (read : statement) (stored : list row) :
  p_state p = absent -> check_mode p = false ->
  dget (w_db w) (p_table p) = Some stored ->
  create_table p w = (Ok self, w1) ->
  read_statement self p = Ok read ->
  let after := kept (s_where read) stored in
  dget (w_db (snd (SQLQuery_init p w))) (p_table p) = Some after /\
  (forall r, In r after <-> In r stored /\ matches (s_where read) r = false) /\
  select_result read after = [] /\
  (forall n, n <> p_table p ->
     dget (w_db (snd (SQLQuery_init p w))) n = dget (w_db w) n).
Proof.
  intros S C G CT RS after.
  destruct (absent_run p w S C G CT RS) as (changed & w' & Run & _ & Tab & _).
  pose proof (read_statement_count _ _ RS) as Cn. rewrite S in Cn. simpl in Cn.
  rewrite Run. simpl. split; [exact Tab |]. split; [| split].
  - intros r. unfold after, kept. rewrite filter_In.
    now destruct (matches (s_where read) r); simpl; split; intros [? ?]; split.
  - now apply select_result_kept.
  - intros n Hn. destruct (hspec_SQLQuery_init p w) as [H _].
    rewrite Run in H. simpl in H.
    apply history_executed in H. destruct H as [F ->].
    apply (replay_other_table (name := p_table p)); [| exact Hn].
    eapply Forall_impl; [| exact F]. now intros s (T & _).
Qed.

(** X10. State [absent] without keys and without a filter deletes every
    row: with no key equality and no filter the DELETE has no WHERE clause,
    and outside check mode the call leaves the table empty. *)
Theorem absent_without_keys_empties_table (p : params) (w w1 : world)
    (self : SQLQuery) (stored : list row) :
  p_state p = absent -> check_mode p = false ->
  p_keys p = [] -> p_filter p = [] ->
  dget (w_db w) (p_table p) = Some stored ->
  create_table p w = (Ok self, w1) ->
  exists changed w',
    SQLQuery_init p w = (Ok (changed, None), w') /\
    (changed = true <-> stored <> []) /\
    dget (w_db w') (p_table p) = Some [].
Proof.
  intros S C K F G CT.
  destruct (create_table_self _ _ CT) as (Ks & _).
  assert (A : where_args self p = Ok []).
  { unfold where_args. now rewrite Ks, K, F. }
  assert (RS : exists read, read_statement self p = Ok read /\ s_where read = None /\
                            s_distinct read = p_distinct p /\ s_count read = false /\
                            t_columns (s_table read) = t_columns (table self)).
  { unfold read_statement. rewrite where_keys_args, A, S. simpl.
    eexists. split; [reflexivity |]. now destruct (p_distinct p). }
  destruct RS as (read & RS & W & Di & Cn & Tc).
  destruct (absent_run p w S C G CT RS) as (changed & w' & Run & Ch & Tab & _).
  exists changed, w'. split; [exact Run |]. split.
  - rewrite Ch. unfold select_result. rewrite W, Cn. simpl.
    assert (Fl : filter (matches None) stored = stored)
      by (clear; induction stored as [| r l IH]; simpl; [| rewrite IH]; reflexivity).
    unfold select_result in *. rewrite Fl.
    destruct stored as [| r rest]; simpl.
    + now destruct (s_distinct read).
    + destruct (s_distinct read); simpl; split; discriminate.
  - rewrite Tab, W. unfold kept. simpl.
    clear. induction stored as [| r l IH]; simpl; [reflexivity | exact IH].
Qed.

(** X11. Calling [absent] twice. After a call in state [absent], outside
    check mode, that answers, the same call again finds no row, answers
    [changed=False] with rows [None] and leaves the database as it is,
    provided the declared values are the same in both calls. *)
Theorem absent_twice (p : params) (w w1 : world) (a1 : answer) :
  p_state p = absent -> check_mode p = false ->
  SQLQuery_init p w = (Ok a1, w1) ->
  desired_state p w1 = desired_state p w ->
  exists w2, SQLQuery_init p w1 = (Ok (false, None), w2) /\ w_db w2 = w_db w1.
Proof.
  intros S C E D.
  destruct (answer_needs_setup _ _ E) as (stored & self & w0 & read & G & CT & RS).
  destruct (absent_run p w S C G CT RS) as (changed & w' & Run & _ & Tab & _).
  rewrite E in Run. injection Run as _ <-.
  unfold desired_state in D. rewrite CT in D. simpl in D.
  destruct (create_table p w1) as [[self2 | f] w2] eqn:C2; simpl in D; [| discriminate].
  injection D as D.
  pose proof (@create_table_same p w1 w w2 w0 self2 self C2 CT D) as Same.
  subst self2. clear D.
  destruct (absent_run p w1 S C Tab C2 RS) as (changed2 & w3 & Run2 & Ch & _ & Db).
  pose proof (read_statement_count _ _ RS) as Cn. rewrite S in Cn. simpl in Cn.
  assert (changed2 = false).
  { destruct changed2; [| reflexivity].
    exfalso. apply (proj1 Ch eq_refl). now apply select_result_kept. }
  subst changed2. exists w3. split; [exact Run2 | now apply Db].
Qed.

(** ** State [present]: what a call leaves alone *)

Lemma update_where_is_read_where (self : SQLQuery) (p : params) (read upd : statement) :
  read_statement self p = Ok read ->
  where_keys self p (table_update (table self)) = Ok upd ->
  s_where upd = s_where read.
Proof.
  intros RS U.
  destruct (@read_statement_shape self p read RS) as (_ & _ & args & A & Wr).
  rewrite where_keys_args, A in U. simpl in U. injection U as <-.
  rewrite Wr. now destruct (0 <? length args)%nat.
Qed.

(** X12. State [present], outside check mode, for a call that answers.
    When the read finds no row, the call appends the declared values as one
    row. Otherwise it neither adds nor removes a row; a row that the WHERE
    clause does not match is left as it is; in every row the cells of key
    columns and of columns without a declared value are left as they are;
    and when the call reports a change, each matched row holds the declared
    value in every declared column that is not a key. *)
Theorem present_changes_declared_cells_only (p : params) (w w1 : world) (a1 : answer) :
  p_state p = present -> check_mode p = false ->
  SQLQuery_init p w = (Ok a1, w1) ->
  exists self wa read stored stored',
    create_table p w = (Ok self, wa) /\
    read_statement self p = Ok read /\
    dget (w_db w) (p_table p) = Some stored /\
    dget (w_db w1) (p_table p) = Some stored' /\
    (select_result read stored = [] ->
       fst a1 = true /\ stored' = stored ++ [new_values self]) /\
    (select_result read stored <> [] ->
       length stored' = length stored /\
       forall i r r',
         nth_error stored i = Some r -> nth_error stored' i = Some r' ->
         (matches (s_where read) r = false -> r' = r) /\
         (forall c, mem c (keys self) = true \/ dget (new_values self) c = None ->
                    cell r' c = cell r c) /\
         (fst a1 = true -> matches (s_where read) r = true ->
          forall c v, mem c (keys self) = false ->
                      dget (new_values self) c = Some v -> cell r' c = v)).
Proof.
  intros S C E.
  destruct (@present_first_call p w w1 a1 S C E)
    as (self & wa & read & stored & stored' & wd & frows & changed
        & CT & RS & G & G' & _ & -> & Cases).
  destruct (@create_table_shape p w wa self CT) as [ND _].
  exists self, wa, read, stored, stored'.
  do 4 (split; [assumption |]).
  destruct Cases as [(Z & -> & ->) | [(NE & -> & _ & ->) | (NE & -> & upd & U & ->)]].
  - split; [now split | intros N; contradiction].
  - split; [intros Z; contradiction |]. intros _. split; [reflexivity |].
    intros i r r' H H'. rewrite H in H'. injection H' as <-.
    split; [reflexivity |]. split; [reflexivity | discriminate].
  - split; [intros Z; contradiction |]. intros _. split; [apply length_map |].
    intros i r r' H H'. rewrite nth_error_map, H in H'. simpl in H'. injection H' as <-.
    rewrite (update_where_is_read_where _ _ RS U). unfold updated.
    destruct (matches (s_where read) r); (split; [| split]); try reflexivity;
      try discriminate.
    + intros c Hc. rewrite cell_assign by now apply NoDup_update_values.
      rewrite dget_update_values by exact ND.
      destruct Hc as [-> | ->]; [reflexivity | now destruct (mem c (keys self))].
    + intros _ _ c v K V. rewrite cell_assign by now apply NoDup_update_values.
      rewrite dget_update_values by exact ND. now rewrite K, V.
Qed.

(** ** [present], then [absent] *)




(** ** What [create_table] makes of [columns] *)

Lemma py_int_ticks (x : value) (w : world) : w_ticks (snd (py_int x w)) = w_ticks w.
Proof. destruct x; simpl; try reflexivity. now destruct (int_of_str s). Qed.

Lemma to_datetime_ticks (x : value) (date : bool) (w : world) :
  w_ticks w <= w_ticks (snd (to_datetime x date w)).
Proof.
  destruct x as [| b | z | s | d | t]; try (simpl; lia).
  - destruct (String.eqb_spec (strip s) "now") as [E | N].
    + rewrite (to_datetime_now s date w E). simpl. lia.
    + rewrite (to_datetime_parse s date w N).
      destruct (strptime s (date_format date)); simpl; lia.
  - rewrite to_datetime_native_date. simpl. lia.
  - rewrite to_datetime_native_datetime. simpl. lia.
Qed.

Lemma python_ticks (e : type_entry) (x : value) (w : world) :
  builtin e -> w_ticks w <= w_ticks (snd (python e x w)).
Proof.
  unfold builtin. simpl.
  intros [<- | [<- | [<- | [<- | [<- | [<- | [<- | []]]]]]]]; simpl;
    first [ rewrite py_int_ticks; lia | apply to_datetime_ticks | lia ].
Qed.

Lemma coerced_wider (entry : type_entry) (v v' : value) (w w0 w1 : world) :
  w_db w0 = w_db w -> w_log w0 = w_log w -> w_ticks w <= w_ticks w0 ->
  coerced entry v v' w0 w1 -> coerced entry v v' w w1.
Proof.
  intros Hd Hl Ht (wa & wb & P & Da & La & T1 & T2).
  exists wa, wb. repeat split; try congruence; lia.
Qed.

Lemma create_table_loop_values (args : list column_arg) :
  NoDup (map arg_name args) ->
  forall columns nv tfc w columns' nv' tfc' w',
    (forall a, In a args -> dget nv (arg_name a) = None) ->
    create_table_loop args columns nv tfc w = (Ok (columns', nv', tfc'), w') ->
    (w_db w' = w_db w /\ w_log w' = w_log w /\ w_ticks w <= w_ticks w') /\
    dkeys nv' = dkeys nv ++ map arg_name (filter has_value args) /\
    (forall c, ~ In c (map arg_name args) ->
       dget nv' c = dget nv c /\ dget tfc' c = dget tfc c) /\
    (forall a, In a args ->
       exists entry,
         dget TYPE_FOR_NAME (arg_type a) = Some entry /\
         dget tfc' (arg_name a) = Some entry /\
         (arg_value a = None -> dget nv' (arg_name a) = None) /\
         (arg_value a = Some VNone -> dget nv' (arg_name a) = Some VNone) /\
         (forall v, arg_value a = Some v -> v <> VNone ->
            exists v', dget nv' (arg_name a) = Some v' /\ coerced entry v v' w w')).
Proof.
  induction args as [| arg rest IH];
    intros ND columns nv tfc w columns' nv' tfc' w' Fresh E.
  - simpl in E. unfold ret in E. injection E as <- <- <- <-.
    split; [repeat split; lia |]. split; [simpl; now rewrite app_nil_r |].
    split; [now split | intros a []].
  - inversion ND as [| ? ? Hn ND']; subst.
    simpl in E.
    assert (Step : exists entry v' w0,
               dget TYPE_FOR_NAME (arg_type arg) = Some entry /\
               w_db w0 = w_db w /\ w_log w0 = w_log w /\ w_ticks w <= w_ticks w0 /\
               (arg_value arg = None \/ arg_value arg = Some VNone -> v' = VNone) /\
               (forall v, arg_value arg = Some v -> v <> VNone ->
                          python entry v w = (Ok v', w0)) /\
               create_table_loop rest (columns ++ [arg_name arg])
                 (if has_value arg then dset nv (arg_name arg) v' else nv)
                 (dset tfc (arg_name arg) entry) w0 = (Ok (columns', nv', tfc'), w')).
    { unfold has_value.
      destruct (arg_value arg) as [v |];
        apply bind_ok in E; destruct E as (entry & w0 & G & E);
        unfold lift, getitem in G;
        (destruct (dget TYPE_FOR_NAME (arg_type arg)) as [e |] eqn:D; [| discriminate]);
        injection G as <- <-;
        apply bind_ok in E; destruct E as (v' & w1 & Pv & E);
        exists e, v', w1; (split; [reflexivity |]).
      - assert (B : builtin e) by (apply (builtin_getitem (arg_type arg));
                                   unfold getitem; now rewrite D).
        destruct v; try (unfold ret in Pv; injection Pv as <- <-;
                         repeat split; auto; try lia;
                         intros v Hv; injection Hv as <-; congruence);
          (match type of Pv with
           | python _ ?x _ = _ =>
               pose proof (python_quiet x w B) as Q; pose proof (python_ticks x w B) as T
           end;
           rewrite Pv in Q, T; simpl in Q, T; destruct Q as [Qd Ql];
           repeat split; auto;
           [ intros [X | X]; discriminate
           | intros v Hv _; injection Hv as <-; exact Pv ]).
      - unfold ret in Pv. injection Pv as <- <-.
        repeat split; auto; intros v Hv; discriminate. }
    destruct Step as (entry & v' & w0 & D & Hd0 & Hl0 & Ht0 & Vn & Vp & E').
    assert (Fresh' : forall a, In a rest ->
              dget (if has_value arg then dset nv (arg_name arg) v' else nv)
                   (arg_name a) = None).
    { intros a Ha. assert (N : arg_name a <> arg_name arg).
      { intros X. apply Hn. rewrite <- X. now apply in_map. }
      destruct (has_value arg); [rewrite dget_dset_other by exact N |];
        apply Fresh; now right. }
    destruct (IH ND' _ _ _ _ _ _ _ _ Fresh' E') as ((Hd & Hl & Ht) & Hk & Hold & Hall).
    destruct (Hold (arg_name arg) Hn) as [Onv Otfc].
    split; [repeat split; try congruence; lia |]. split; [| split].
    + rewrite Hk. simpl. destruct (has_value arg); [| reflexivity].
      rewrite dkeys_dset. unfold dmem. rewrite (Fresh arg (or_introl eq_refl)).
      simpl. now rewrite <- app_assoc.
    + intros c Hc. simpl in Hc.
      assert (N1 : c <> arg_name arg) by (intros X; apply Hc; now left).
      assert (N2 : ~ In c (map arg_name rest)) by (intros X; apply Hc; now right).
      destruct (Hold c N2) as [A1 A2]. rewrite A1, A2.
      split; [| now apply dget_dset_other].
      destruct (has_value arg); [now apply dget_dset_other | reflexivity].
    + intros a [<- | Ha].
      * exists entry. split; [exact D |].
        split; [rewrite Otfc; apply dget_dset_same |].
        rewrite Onv. unfold has_value.
        split; [| split].
        -- intros X. rewrite X. now apply (Fresh arg); left.
        -- intros X. rewrite X. rewrite (Vn (or_intror X)). apply dget_dset_same.
        -- intros v X NV. rewrite X. exists v'. split; [apply dget_dset_same |].
           exists w, w0. split; [now apply Vp |]. repeat split; lia.
      * destruct (Hall a Ha) as (e & De & Te & H1 & H2 & H3).
        exists e. do 2 (split; [assumption |]).
        split; [exact H1 |]. split; [exact H2 |].
        intros v X NV. destruct (H3 v X NV) as (v2 & G2 & Co).
        exists v2. split; [exact G2 |]. eapply coerced_wider; [exact Hd0 | exact Hl0 | exact Ht0 | exact Co].
Qed.

(** X14. What [create_table] makes of [columns] when no name is declared
    twice. The table has the declared names as columns, in their order;
    [new_values] has the names of the entries with a [value] key, in their
    order. For every entry the type name is one of [TYPE_FOR_NAME] (else
    the call raises), [type_for_column] has that type under the name, an
    entry without [value] declares nothing, a null value is declared as
    null without a call of the type function, and any other value is
    declared as what the type function returns for it. *)
Theorem create_table_declares (p : params) (w w1 : world) (self : SQLQuery) :
  NoDup (map arg_name (p_columns p)) ->
  create_table p w = (Ok self, w1) ->
  keys self = p_keys p /\
  table self = {| t_name := p_table p; t_columns := map arg_name (p_columns p) |} /\
  dkeys (new_values self) = map arg_name (filter has_value (p_columns p)) /\
  forall a, In a (p_columns p) ->
    exists entry,
      dget TYPE_FOR_NAME (arg_type a) = Some entry /\
      dget (type_for_column self) (arg_name a) = Some entry /\
      (arg_value a = None -> dget (new_values self) (arg_name a) = None) /\
      (arg_value a = Some VNone -> dget (new_values self) (arg_name a) = Some VNone) /\
      (forall v, arg_value a = Some v -> v <> VNone ->
         exists v', dget (new_values self) (arg_name a) = Some v' /\
                    coerced entry v v' w w1).
Proof.
  intros ND E. unfold create_table in E.
  apply bind_ok in E. destruct E as ([[columns nv] tfc] & w0 & L & E).
  unfold ret in E. injection E as <- <-. simpl.
  pose proof (create_table_loop_keys _ _ _ _ _ L) as (Hc & _).
  destruct (@create_table_loop_values (p_columns p) ND [] [] [] w columns nv tfc w0
              (fun a _ => eq_refl) L)
    as (_ & Hk & _ & Hall).
  split; [reflexivity |]. split; [| split; [exact Hk | exact Hall]].
  unfold sa_Table. rewrite Hc. simpl. now rewrite nodup_fixed_point.
Qed.

(** ** States [select] and [count]: the answer *)


(** ** How a call fails *)

Lemma raising_rbind {A B} (r : result A) (k : A -> result B) :
  raising r -> (forall a, raising (k a)) -> raising (rbind r k).
Proof.
  intros Hr Hk f. destruct r as [a | f']; simpl; [apply Hk |].
  intros E. injection E as <-. now apply Hr.
Qed.

Lemma raising_getitem {V} (d : dict V) (k : string) : raising (getitem d k).
Proof.
  intros f. unfold getitem. destruct (dget d k); [discriminate |].
  intros E. now injection E as <-.
Qed.

Lemma raising_where_column_helper (self : SQLQuery) (c : string) :
  raising (_where_column_helper self c).
Proof.
  intros f. unfold _where_column_helper.
  destruct (mem c (t_columns (table self))); [discriminate |].
  intros E. now injection E as <-.
Qed.

Lemma raising_split_filter (self : SQLQuery) (fltrs : dict fnode) :
  Forall (fun kv => raising (split_entry self (fst kv) (snd kv))) fltrs ->
  forall args, raising (_split_filter self args fltrs).
Proof.
  induction 1 as [| [key node] rest H _ IH]; intros args; simpl.
  - intros f; discriminate.
  - apply raising_rbind; [exact H | intros c; apply IH].
Qed.

Lemma raising_split_entry (self : SQLQuery) (node : fnode) :
  forall key, raising (split_entry self key node).
Proof.
  induction node as [sub IH | col v] using fnode_induction; intros key.
  - simpl. rewrite !split_entry_group.
    assert (Sub : raising (_split_filter self [] sub)).
    { apply raising_split_filter. eapply Forall_impl; [| exact IH].
      intros [k n] H. apply H. }
    destruct (String.eqb key "and");
      [apply raising_rbind; [exact Sub | intros a f; discriminate] |].
    destruct (String.eqb key "or");
      [apply raising_rbind; [exact Sub | intros a f; discriminate] |].
    intros f. destruct (dget sub "column"); intros E; now injection E as <-.
  - simpl. intros f.
    destruct (String.eqb key "and"); [intros E; now injection E as <- |].
    destruct (String.eqb key "or"); [intros E; now injection E as <- |].
    revert f. apply raising_rbind; [apply raising_where_column_helper |].
    intros c f.
    destruct (String.eqb key "eq"); [discriminate |].
    destruct (String.eqb key "ne"); [discriminate |].
    destruct (has_operator key); [discriminate |].
    intros E. now injection E as <-.
Qed.

Lemma raising_where_keys_loop (self : SQLQuery) (cols : list string) :
  forall args, raising (where_keys_loop self cols args).
Proof.
  induction cols as [| col rest IH]; intros args; simpl.
  - intros f; discriminate.
  - destruct (dget (new_values self) col); [| apply IH].
    apply raising_rbind; [apply raising_where_column_helper | intros c; apply IH].
Qed.

Lemma raising_where_keys (self : SQLQuery) (p : params) (stmt : statement) :
  raising (where_keys self p stmt).
Proof.
  unfold where_keys.
  apply raising_rbind; [apply raising_where_keys_loop |]. intros args.
  apply raising_rbind.
  - destruct (p_filter p) as [| kv rest] eqn:F; [intros f; discriminate |].
    apply raising_split_filter. apply Forall_forall.
    intros [k n] _. apply raising_split_entry.
  - intros args' f. destruct (0 <? length args')%nat; discriminate.
Qed.

Lemma raising_compare_row (nv : dict value) (r : row) (cols : list string) :
  raising (compare_row nv r cols).
Proof.
  induction cols as [| col rest IH]; simpl; [intros f; discriminate |].
  apply raising_rbind; [apply raising_getitem |]. intros a.
  apply raising_rbind; [apply raising_getitem |]. intros b.
  destruct (py_ne a b); [intros f; discriminate | exact IH].
Qed.

Lemma raising_compare_rows (self : SQLQuery) (rows : list row) :
  raising (compare_rows self rows).
Proof.
  unfold compare_rows. induction rows as [| r rest IH]; simpl; [intros f; discriminate |].
  apply raising_rbind; [apply raising_compare_row |].
  intros differs. destruct differs; [intros f; discriminate | exact IH].
Qed.

Lemma raises_ret {A} (a : A) : raises (ret a).
Proof. intros w f; discriminate. Qed.

Lemma raises_lift {A} (r : result A) : raising r -> raises (lift r).
Proof. intros H w f. apply H. Qed.

Lemma raises_raise {A} (e : exn) : raises (@raise A e).
Proof. intros w f E. simpl in E. now injection E as <-. Qed.

Lemma raises_bind_ok {A B} (m : M A) (k : A -> M B) :
  raises m -> (forall w a w0, m w = (Ok a, w0) -> raises (k a)) -> raises (bind m k).
Proof.
  intros Hm Hk w f. unfold bind. specialize (Hm w). specialize (Hk w).
  destruct (m w) as [[a | f'] w0]; simpl in *.
  - now apply (Hk a w0).
  - intros E. injection E as <-. now apply Hm.
Qed.

Lemma raises_bind {A B} (m : M A) (k : A -> M B) :
  raises m -> (forall a, raises (k a)) -> raises (bind m k).
Proof. intros Hm Hk. apply raises_bind_ok; [exact Hm | intros; apply Hk]. Qed.

Lemma raises_py_int (x : value) : raises (py_int x).
Proof.
  destruct x; simpl; try apply raises_ret; try apply raises_raise.
  destruct (int_of_str s); [apply raises_ret | apply raises_raise].
Qed.

Lemma raises_to_datetime (x : value) (date : bool) : raises (to_datetime x date).
Proof.
  intros w f.
  destruct x as [| b | z | s | d | t];
    try (destruct date; simpl; intros E; now injection E as <-).
  - destruct (String.eqb_spec (strip s) "now") as [E | N].
    + rewrite (to_datetime_now s date w E). discriminate.
    + rewrite (to_datetime_parse s date w N).
      destruct (strptime s (date_format date)); [discriminate |].
      intros E. now injection E as <-.
  - rewrite to_datetime_native_date. discriminate.
  - rewrite to_datetime_native_datetime. discriminate.
Qed.

Lemma raises_python (e : type_entry) (x : value) : builtin e -> raises (python e x).
Proof.
  unfold builtin. simpl.
  intros [<- | [<- | [<- | [<- | [<- | [<- | [<- | []]]]]]]]; simpl;
    first [ apply raises_py_int | apply raises_to_datetime | apply raises_ret ].
Qed.

Lemma raises_create_table_loop (args : list column_arg) :
  forall columns nv tfc, raises (create_table_loop args columns nv tfc).
Proof.
  induction args as [| arg rest IH]; intros columns nv tfc; simpl;
    [apply raises_ret |].
  destruct (arg_value arg) as [v |];
    (apply raises_bind_ok; [apply raises_lift, raising_getitem |]);
    intros w e w0 G; unfold lift in G; injection G as G _;
    apply builtin_getitem in G;
    (apply raises_bind; [| intros v'; apply IH]).
  - destruct v; first [apply raises_ret | now apply raises_python].
  - apply raises_ret.
Qed.

Lemma raises_create_table (p : params) : raises (create_table p).
Proof.
  unfold create_table. apply raises_bind; [apply raises_create_table_loop |].
  intros [[columns nv] tfc]. apply raises_ret.
Qed.

Lemma raises_stmt_execute (s : statement) : raises (stmt_execute s).
Proof.
  intros w f. unfold stmt_execute, execute.
  destruct (dget (w_db w) (t_name (s_table s)));
    [| simpl; intros E; now injection E as <-].
  destruct (s_verb s); simpl; try discriminate.
  destruct (s_values s); simpl; [intros E; now injection E as <- | discriminate].
Qed.

Lemma raises_select_rows (self : SQLQuery) (p : params) : raises (select_rows self p).
Proof.
  unfold select_rows.
  apply raises_bind; [apply raises_lift, raising_where_keys |].
  intros stmt. apply raises_stmt_execute.
Qed.

Lemma raises_insert_row (self : SQLQuery) : raises (insert_row self).
Proof.
  unfold insert_row.
  apply raises_bind; [apply raises_stmt_execute | intros; apply raises_ret].
Qed.

Lemma raises_update_rows (self : SQLQuery) (p : params) : raises (update_rows self p).
Proof.
  unfold update_rows.
  apply raises_bind; [apply raises_lift, raising_where_keys |]. intros stmt.
  apply raises_bind; [apply raises_stmt_execute | intros; apply raises_ret].
Qed.

Lemma raises_delete_rows (self : SQLQuery) (p : params) : raises (delete_rows self p).
Proof.
  unfold delete_rows.
  apply raises_bind; [apply raises_lift, raising_where_keys |]. intros stmt.
  apply raises_bind; [apply raises_stmt_execute | intros; apply raises_ret].
Qed.

Lemma raises_format_cols (tfc : dict type_entry) (r : row) (cols : list string) :
  typed tfc -> forall frow, raises (format_cols tfc r cols frow).
Proof.
  intros Ty. induction cols as [| col rest IH]; intros frow; simpl;
    [apply raises_ret |].
  apply raises_bind_ok; [apply raises_lift, raising_getitem |].
  intros w e w0 G. unfold lift, getitem in G.
  destruct (dget tfc col) as [e' |] eqn:T; [| discriminate]. injection G as <- _.
  apply raises_bind; [apply raises_lift, raising_getitem |]. intros v.
  apply raises_bind; [| intros; apply IH].
  destruct v; try apply raises_ret;
    (apply raises_bind; [apply raises_python, (Ty _ _ T) | intros; apply raises_ret]).
Qed.

Lemma raises_format_rows (self : SQLQuery) (rows : rows_arg) :
  typed (type_for_column self) -> raises (format_rows self rows).
Proof.
  intros Ty. unfold format_rows.
  generalize (@nil row). induction (iterate rows) as [| [r | s] rest IH]; intros acc; simpl.
  - apply raises_ret.
  - apply raises_bind; [now apply raises_format_cols | intros; apply IH].
  - apply raises_raise.
Qed.

Lemma raises_dispatch (p : params) (self : SQLQuery) (rows : list row) :
  typed (type_for_column self) -> raises (dispatch p self rows).
Proof.
  intros Ty. unfold dispatch, exit_json.
  destruct (state_eqb (p_state p) select || state_eqb (p_state p) count).
  { apply raises_bind; [now apply raises_format_rows | intros; apply raises_ret]. }
  destruct (state_eqb (p_state p) absent).
  { apply raises_bind; [| intros; apply raises_ret].
    destruct ((if (length rows <? 1)%nat then false else true) && negb (check_mode p));
      [apply raises_delete_rows | apply raises_ret]. }
  destruct (state_eqb (p_state p) insert).
  { apply raises_bind;
      [destruct (negb (check_mode p)); [apply raises_insert_row | apply raises_ret] |].
    intros _. apply raises_bind; [apply raises_select_rows |]. intros rows'.
    apply raises_bind; [now apply raises_format_rows | intros; apply raises_ret]. }
  apply raises_bind.
  { destruct (length rows <? 1)%nat;
      [apply raises_ret | apply raises_lift, raising_compare_rows]. }
  intros changed. apply raises_bind.
  { destruct (check_mode p); [apply raises_ret |].
    destruct changed; [| apply raises_ret].
    apply raises_bind;
      [destruct (length rows <? 1)%nat; [apply raises_insert_row | apply raises_update_rows] |].
    intros _. apply raises_bind; [apply raises_select_rows | intros; apply raises_ret]. }
  intros ra. apply raises_bind; [now apply raises_format_rows | intros; apply raises_ret].
Qed.

(** X16. How a call fails. [main] reports a failure through [fail_json]
    in two places only, both before anything is set up or executed and
    with the world as it was: where the flag [HAS_SQLALCHEMY] is not set,
    and where the table does not exist. Every other failure of a call is
    an exception that nothing catches: for an unknown type name, column or
    operator, a value that cannot be coerced, a statement the database
    rejects. *)
Theorem fail_json_only_before_setup (has_sqlalchemy : bool) (p : params) (w : world)
    (f : failure) :
  fst (main has_sqlalchemy p w) = Err f ->
  (exists e, f = Raised e) \/
  (snd (main has_sqlalchemy p w) = w /\
   ((has_sqlalchemy = false /\ f = FailJson "python-sqlalchemy not found") \/
    (has_sqlalchemy = true /\ dmem (w_db w) (p_table p) = false /\
     f = FailJson "table does not exist"))).
Proof.
  destruct has_sqlalchemy.
  - destruct (dmem (w_db w) (p_table p)) eqn:D.
    + intros E. left. revert E.
      unfold main. simpl. unfold bind at 1. unfold ret at 1.
      rewrite SQLQuery_init_dispatch.
      unfold bind at 1. unfold table_exists. rewrite D. simpl.
      unfold bind at 1. unfold ret at 1.
      intros E.
      assert (R : raises (self <- create_table p ;;
                          rows_after <- select_rows self p ;;
                          dispatch p self rows_after)).
      { apply raises_bind_ok; [apply raises_create_table |].
        intros w1 self w2 CT.
        apply raises_bind; [apply raises_select_rows |].
        intros rows. apply raises_dispatch. exact (create_table_typed _ _ CT). }
      specialize (R w f E). destruct f as [msg | e]; [contradiction | now exists e].
    + assert (M : main true p w = (Err (FailJson "table does not exist"), w)).
      { unfold main. simpl. unfold bind at 1. unfold ret at 1.
        unfold SQLQuery_init, bind, table_exists. now rewrite D. }
      rewrite M. simpl. intros E. injection E as <-.
      right. split; [reflexivity |]. right. auto.
  - intros E. right. split; [reflexivity |]. left.
    split; [reflexivity |]. simpl in E. now injection E as <-.
Qed.

(** ** How many statements a call executes *)

Lemma within_quiet {A} (m : M A) :
  (forall w, w_log (snd (m w)) = w_log w) -> within 0 0 m.
Proof.
  intros H w. exists []. rewrite app_nil_r. split; [apply H | split; simpl; lia].
Qed.

Lemma within_ret {A} (a : A) : within 0 0 (ret a).
Proof. now apply within_quiet. Qed.

Lemma within_lift {A} (r : result A) : within 0 0 (lift r).
Proof. now apply within_quiet. Qed.

Lemma within_weaken {A} (n k n' k' : nat) (m : M A) :
  n <= n' -> k <= k' -> within n k m -> within n' k' m.
Proof.
  intros Hn Hk H w. destruct (H w) as (l & E & L & W).
  exists l. split; [exact E | split; lia].
Qed.

Lemma within_bind_ok {A B} (n1 k1 n2 k2 : nat) (m : M A) (k : A -> M B) :
  within n1 k1 m ->
  (forall w a w0, m w = (Ok a, w0) -> within n2 k2 (k a)) ->
  within (n1 + n2) (k1 + k2) (bind m k).
Proof.
  intros Hm Hk w. unfold bind.
  destruct (Hm w) as (l1 & E1 & L1 & W1). specialize (Hk w).
  destruct (m w) as [[a | f] w0]; simpl in *.
  - destruct (Hk a w0 eq_refl w0) as (l2 & E2 & L2 & W2).
    exists (l1 ++ l2). rewrite E2, E1, <- app_assoc. split; [reflexivity |].
    unfold writes in *. rewrite filter_app, !length_app. split; lia.
  - exists l1. split; [exact E1 | split; lia].
Qed.

Lemma within_bind {A B} (n1 k1 n2 k2 : nat) (m : M A) (k : A -> M B) :
  within n1 k1 m -> (forall a, within n2 k2 (k a)) ->
  within (n1 + n2) (k1 + k2) (bind m k).
Proof. intros Hm Hk. apply within_bind_ok; [exact Hm | intros; apply Hk]. Qed.

Lemma within_stmt_execute (s : statement) :
  within 1 (if is_read s then 0 else 1) (stmt_execute s).
Proof.
  intros w. exists [s]. unfold stmt_execute.
  destruct (execute s (w_db w)) as [r db']. simpl.
  split; [reflexivity |]. split; [lia |].
  unfold writes. simpl. destruct (is_read s); simpl; lia.
Qed.

Lemma within_select_rows (self : SQLQuery) (p : params) : within 1 0 (select_rows self p).
Proof.
  intros w. rewrite select_rows_read.
  destruct (read_statement self p) as [s | f] eqn:RS.
  - destruct (read_statement_shape _ _ RS) as (V & _).
    pose proof (within_stmt_execute s w) as H.
    unfold is_read in H. now rewrite V in H.
  - exists []. simpl. rewrite app_nil_r. split; [reflexivity | split; simpl; lia].
Qed.

Lemma within_insert_row (self : SQLQuery) : within 1 1 (insert_row self).
Proof.
  unfold insert_row.
  apply (@within_bind _ _ 1 1 0 0); [| intros; apply within_ret].
  eapply within_weaken; [| | apply within_stmt_execute]; [lia |].
  destruct (is_read _); lia.
Qed.

Lemma within_update_rows (self : SQLQuery) (p : params) : within 1 1 (update_rows self p).
Proof.
  unfold update_rows.
  apply (@within_bind _ _ 0 0 1 1); [apply within_lift |]. intros stmt.
  apply (@within_bind _ _ 1 1 0 0); [| intros; apply within_ret].
  eapply within_weaken; [| | apply within_stmt_execute]; [lia |].
  destruct (is_read _); lia.
Qed.

Lemma within_delete_rows (self : SQLQuery) (p : params) : within 1 1 (delete_rows self p).
Proof.
  unfold delete_rows.
  apply (@within_bind _ _ 0 0 1 1); [apply within_lift |]. intros stmt.
  apply (@within_bind _ _ 1 1 0 0); [| intros; apply within_ret].
  eapply within_weaken; [| | apply within_stmt_execute]; [lia |].
  destruct (is_read _); lia.
Qed.

Lemma within_format_rows (self : SQLQuery) (rows : rows_arg) :
  typed (type_for_column self) -> within 0 0 (format_rows self rows).
Proof.
  intros Ty. apply within_quiet. intros w.
  destruct (spec_format_rows self (fun _ => False) rows Ty w) as [Tr _].
  now apply trail_silent in Tr.
Qed.

Lemma within_dispatch (p : params) (self : SQLQuery) (rows : list row) :
  typed (type_for_column self) -> within 2 1 (dispatch p self rows).
Proof.
  intros Ty. unfold dispatch, exit_json.
  destruct (state_eqb (p_state p) select || state_eqb (p_state p) count).
  { apply (@within_weaken _ 0 0); [lia | lia |].
    apply (@within_bind _ _ 0 0 0 0);
      [now apply within_format_rows | intros; apply within_ret]. }
  destruct (state_eqb (p_state p) absent).
  { apply (@within_weaken _ 1 1); [lia | lia |].
    apply (@within_bind _ _ 1 1 0 0); [| intros; apply within_ret].
    destruct ((if (length rows <? 1)%nat then false else true) && negb (check_mode p));
      [apply within_delete_rows |].
    apply (@within_weaken _ 0 0); [lia | lia | apply within_ret]. }
  destruct (state_eqb (p_state p) insert).
  { apply (@within_bind _ _ 1 1 1 0).
    - destruct (negb (check_mode p)); [apply within_insert_row |].
      apply (@within_weaken _ 0 0); [lia | lia | apply within_ret].
    - intros _. apply (@within_bind _ _ 1 0 0 0); [apply within_select_rows |].
      intros rows'. apply (@within_bind _ _ 0 0 0 0);
        [now apply within_format_rows | intros; apply within_ret]. }
  apply (@within_bind _ _ 0 0 2 1).
  { destruct (length rows <? 1)%nat; [apply within_ret | apply within_lift]. }
  intros changed. apply (@within_bind _ _ 2 1 0 0).
  { destruct (check_mode p);
      [apply (@within_weaken _ 0 0); [lia | lia | apply within_ret] |].
    destruct changed;
      [| apply (@within_weaken _ 0 0); [lia | lia | apply within_ret]].
    apply (@within_bind _ _ 1 1 1 0).
    - destruct (length rows <? 1)%nat; [apply within_insert_row | apply within_update_rows].
    - intros _. apply (@within_bind _ _ 1 0 0 0);
        [apply within_select_rows | intros; apply within_ret]. }
  intros ra. apply (@within_bind _ _ 0 0 0 0);
    [now apply within_format_rows | intros; apply within_ret].
Qed.

Lemma within_SQLQuery_init (p : params) : within 3 1 (SQLQuery_init p).
Proof.
  rewrite SQLQuery_init_dispatch.
  apply (@within_bind _ _ 0 0 3 1); [now apply within_quiet |]. intros found.
  apply (@within_bind _ _ 0 0 3 1).
  { destruct (negb found); now apply within_quiet. }
  intros _.
  apply (@within_bind_ok _ _ 0 0 3 1).
  { apply within_quiet. intros w. apply create_table_silent. }
  intros w self w1 CT.
  apply (@within_bind _ _ 1 0 2 1); [apply within_select_rows |].
  intros rows. apply within_dispatch. exact (create_table_typed _ _ CT).
Qed.

(** X20. A call executes at most three statements and at most one of
    them writes, whatever the state and the outcome. A statement that
    writes is executed outside check mode only: a DELETE in state [absent]
    only, an UPDATE in state [present] only, an INSERT in the states
    [insert] and [present] only. *)
Theorem one_write_per_call (p : params) (w : world) :
  let l := executed w (snd (SQLQuery_init p w)) in
  length l <= 3 /\ length (writes l) <= 1 /\
  forall s, In s l ->
    match s_verb s with
    | SELECT => True
    | INSERT => check_mode p = false /\ (p_state p = insert \/ p_state p = present)
    | UPDATE => check_mode p = false /\ p_state p = present
    | DELETE => check_mode p = false /\ p_state p = absent
    end.
Proof.
  intros l. destruct (within_SQLQuery_init p w) as (l' & E & L & W).
  assert (X : l = l') by (apply executed_app; exact E). rewrite X.
  split; [exact L |]. split; [exact W |].
  destruct (spec_SQLQuery_init p w) as [Tr _].
  apply trail_executed in Tr. destruct Tr as (_ & F & _).
  fold l in F. rewrite X in F. rewrite Forall_forall in F.
  intros s Hs. specialize (F s Hs). unfold issued in F.
  destruct (s_verb s); [exact I | | |]; now destruct F as (_ & F).
Qed.

End Properties.

(** * Runs on the example table *)

Lemma query_states_change_nothing_witness :
  (p_state Demo.select_blubb = select \/ p_state Demo.select_blubb = count) /\
  w_db (snd (Demo.run Demo.select_blubb Demo.w0)) = w_db Demo.w0 /\
  Forall (fun s => s_verb s = SELECT)
         (executed Demo.w0 (snd (Demo.run Demo.select_blubb Demo.w0))) /\
  fst (Demo.run Demo.select_blubb Demo.w0) =
    Ok (false, Some [[("col1", VStr "blubb"); ("col2", VInt 21)]]).
Proof.
  pose proof (@query_states_change_nothing Demo.runtime Demo.backend
                Demo.select_blubb Demo.w0 (or_introl eq_refl))
    as (Db & Reads & _ & _ & _).
  split; [left; reflexivity |].
  split; [exact Db |]. split; [exact Reads | reflexivity].
Defined.

Example select_blubb_run :
  fst (Demo.run Demo.select_blubb Demo.w0) =
    Ok (false, Some [[("col1", VStr "blubb"); ("col2", VInt 21)]]).
Proof. reflexivity. Qed.

(** A call in check mode and state [insert] reads twice: once before the
    insert it skips and once after. *)
Lemma check_mode_insert_reads_twice :
  ~ (check_mode Demo.insert_dry = true ->
     (length (executed Demo.w0 (snd (Demo.run Demo.insert_dry Demo.w0))) <= 1)%nat).
Proof.
  intros H. specialize (H eq_refl). vm_compute in H. lia.
Qed.

Lemma check_mode_changes_nothing_witness :
  check_mode Demo.insert_dry = true /\
  (w_db (snd (Demo.run Demo.insert_dry Demo.w0)) = w_db Demo.w0 /\
   Forall (fun s => s_verb s = SELECT)
          (executed Demo.w0 (snd (Demo.run Demo.insert_dry Demo.w0))) /\
   w_log (snd (Demo.run Demo.insert_dry Demo.w0)) =
     w_log Demo.w0 ++ executed Demo.w0 (snd (Demo.run Demo.insert_dry Demo.w0))).
Proof.
  split; [reflexivity |].
  apply (@check_mode_changes_nothing Demo.runtime Demo.backend Demo.insert_dry Demo.w0).
  reflexivity.
Defined.

(** In state [present] the read of a request with [distinct] set is not
    the read of the same request without it. *)
Lemma distinct_present_read_differs :
  ~ (p_state Demo.present_distinct <> select ->
     reads (executed Demo.w0 (snd (Demo.run Demo.present_distinct Demo.w0))) =
     reads (executed Demo.w0
              (snd (Demo.run (with_distinct false Demo.present_distinct) Demo.w0)))).
Proof.
  intros H. assert (N : p_state Demo.present_distinct <> select) by discriminate.
  specialize (H N). vm_compute in H. discriminate.
Qed.

(** C2, at an input. The filter [ne: {column: col2, value: 21}] compiles
    to the bare column [col2]; on the example table the read it scopes
    returns the row whose [col2] is 21 and drops the row whose [col2] is 0,
    the opposite of [col2 != 21]. *)
Theorem ne_filter_on_example :
  @_split_filter Demo.backend (Demo.made Demo.select_ne Demo.w0) []
     [("ne", FCond "col2" (VInt 21))] = Ok [CCol "col2"] /\
  fst (Demo.run Demo.select_ne Demo.w0) =
    Ok (false, Some [[("col1", VStr "blubb"); ("col2", VInt 21)]]).
Proof. split; reflexivity. Qed.

(** C3, at an input. In check mode the state [present] hands the
    dictionary [new_values] to [format_rows], which iterates over its keys
    and asks the first, a text, for [keys()]: the call ends in an
    [AttributeError] and answers nothing. *)
Theorem present_check_mode_raises :
  check_mode Demo.present_dry = true /\
  p_state Demo.present_dry = present /\
  new_values (Demo.made Demo.present_dry Demo.w0) =
    [("col1", VStr "blubb"); ("col2", VInt 1)] /\
  fst (Demo.run Demo.present_dry Demo.w0) = Err (Raised AttributeError).
Proof. repeat split. Qed.


(** Key-predicate scoping: with [keys = [col1]] and the declared values
    [col1 = blubb], [col2 = 1], only [col1] is in the WHERE clause. *)
Example where_keys_scoping :
  @where_keys Demo.backend (Demo.made Demo.present_blubb Demo.w0) Demo.present_blubb
     (table_select (table (Demo.made Demo.present_blubb Demo.w0))) =
  Ok (stmt_where (table_select (table (Demo.made Demo.present_blubb Demo.w0)))
                 (CAnd [CEq "col1" (VStr "blubb")])).
Proof. reflexivity. Qed.

Lemma absent_decision_witness :
  let p := Demo.absent_bla in
  let self := Demo.made p Demo.w0 in
  let read := Demo.reading p Demo.w0 in
  p_state p = absent /\
  dmem (w_db Demo.w0) (p_table p) = true /\
  @create_table Demo.runtime p Demo.w0 = (Ok self, Demo.w0) /\
  @read_statement Demo.backend self p = Ok read /\
  exists current del changed,
    @execute Demo.backend read (w_db Demo.w0) = (Ok current, w_db Demo.w0) /\
    @delete_statement Demo.backend self p = Ok del /\ s_verb del = DELETE /\
    s_where del = s_where read /\
    (changed = true <-> current <> []) /\
    fst (Demo.run p Demo.w0) = Ok (changed, None) /\
    executed Demo.w0 (snd (Demo.run p Demo.w0)) =
      (if changed && negb (check_mode p) then [read; del] else [read]) /\
    w_db (snd (Demo.run p Demo.w0)) =
      (if changed && negb (check_mode p)
       then snd (@execute Demo.backend del (w_db Demo.w0)) else w_db Demo.w0).
Proof.
  intros p self read.
  split; [reflexivity |]. split; [reflexivity |].
  split; [reflexivity |]. split; [reflexivity |].
  apply (@absent_decision Demo.runtime Demo.backend p Demo.w0 Demo.w0 self read);
    reflexivity.
Defined.

Example absent_bla_run :
  fst (Demo.run Demo.absent_bla Demo.w0) = Ok (true, None) /\
  w_db (snd (Demo.run Demo.absent_bla Demo.w0)) =
    [("test", [[("col1", VStr "blubb"); ("col2", VInt 21); ("col3", VNone)]])].
Proof. split; reflexivity. Qed.



Lemma agree_strict :
  agree_off_none (type_for_column (Demo.made Demo.select_blubb Demo.w0))
                 (type_for_column (Demo.made_strict Demo.select_blubb Demo.w0)).
Proof.
  intros c. unfold Demo.made_strict. simpl.
  destruct (String.eqb c "col1").
  - intros v w N. destruct v; [contradiction | reflexivity ..].
  - destruct (String.eqb c "col2"); [| exact I].
    intros v w N. destruct v; [contradiction | reflexivity ..].
Qed.

Lemma format_rows_skips_null_witness :
  let self := Demo.made Demo.select_blubb Demo.w0 in
  let self' := Demo.made_strict Demo.select_blubb Demo.w0 in
  agree_off_none (type_for_column self) (type_for_column self') /\
  @format_rows self (RowList Demo.null_rows) Demo.w0 =
    @format_rows self' (RowList Demo.null_rows) Demo.w0 /\
  forall frows w',
    @format_rows self (RowList Demo.null_rows) Demo.w0 = (Ok frows, w') ->
    Forall2 keeps_null Demo.null_rows frows.
Proof.
  intros self self'. split; [exact agree_strict |].
  apply (@format_rows_skips_null self self' Demo.null_rows Demo.w0 agree_strict).
Defined.

Example format_rows_null_run :
  fst (@format_rows (Demo.made Demo.select_blubb Demo.w0) (RowList Demo.null_rows) Demo.w0) =
    Ok [ [("col1", VNone); ("col2", VInt 3)]; [("col1", VStr "a"); ("col2", VNone)] ].
Proof. reflexivity. Qed.

(** Where the first call does not establish the desired state. With a
    filter [col2 = 21] and the declared value [col2 = 1], the update moves
    the row out of the filter: the second call reads no row and inserts.
    With a value [now], the second call declares a later time than the
    first stored. *)
Example present_filtered_twice :
  fst (Demo.run Demo.present_filtered Demo.w0) =
    Ok (true, Some []) /\
  fst (Demo.run Demo.present_filtered (snd (Demo.run Demo.present_filtered Demo.w0))) =
    Ok (true, Some []).
Proof. split; reflexivity. Qed.

Example present_now_twice :
  (exists rows, fst (Demo.run Demo.present_now Demo.w0) = Ok (true, Some rows)) /\
  (exists rows,
     fst (Demo.run Demo.present_now (snd (Demo.run Demo.present_now Demo.w0))) =
       Ok (true, Some rows)).
Proof. split; eexists; reflexivity. Qed.

(** [now] is recognised after stripping and in lower case only; any other
    text goes to the parser. *)
Example to_datetime_now_run :
  fst (@to_datetime Demo.runtime (VStr " now ") true Demo.w0) =
    Ok (VDate (Date 2020 5 1)) /\
  fst (@to_datetime Demo.runtime (VStr "Now") false Demo.w0) = Err (Raised ValueError) /\
  fst (@to_datetime Demo.runtime (VStr "2020-05-01 12:15:00") false Demo.w0) =
    Ok (VDateTime (DateTime 2020 5 1 12 15 0 0)) /\
  fst (@to_datetime Demo.runtime (VStr "2020-05-01 12:15:00") true Demo.w0) =
    Err (Raised ValueError) /\
  fst (@to_datetime Demo.runtime (VInt 20200501) true Demo.w0) =
    Err (Raised AttributeError).
Proof. repeat split. Qed.

(** ** The further properties on the example table *)

Lemma format_rows_idempotent_witness :
  let self := Demo.made Demo.select_blubb Demo.w0 in
  let rows := [ [("col1", VInt 5); ("col2", VStr " 7 ")]; [("col1", VNone); ("col2", VBool true)] ] in
  let frows := [ [("col1", VStr "5"); ("col2", VInt 7)]; [("col1", VNone); ("col2", VInt 1)] ] in
  @typed Demo.runtime (type_for_column self) /\
  format_rows self (RowList rows) Demo.w0 = (Ok frows, Demo.w0) /\
  Forall (formatted (type_for_column self)) frows /\
  format_rows self (RowList frows) Demo.after_first = (Ok frows, Demo.after_first).
Proof.
  intros self rows frows.
  assert (Ty : @typed Demo.runtime (type_for_column self))
    by exact (@create_table_typed Demo.runtime Demo.select_blubb Demo.w0 Demo.w0 self eq_refl).
  split; [exact Ty |]. split; [reflexivity |].
  apply (@format_rows_idempotent Demo.runtime self rows frows Demo.w0 Demo.w0
           Demo.after_first Ty eq_refl).
Defined.

Lemma where_keys_fails_only_on_filter_witness :
  let p := Demo.present_blubb in
  let self := Demo.made p Demo.w0 in
  let stmt := table_delete (table self) in
  @create_table Demo.runtime p Demo.w0 = (Ok self, Demo.w0) /\
  (p_filter p = [] -> exists stmt', @where_keys Demo.backend self p stmt = Ok stmt') /\
  (forall f, @where_keys Demo.backend self p stmt = Err f ->
             @_split_filter Demo.backend self [] (p_filter p) = Err f).
Proof.
  intros p self stmt. split; [reflexivity |].
  apply (@where_keys_fails_only_on_filter Demo.runtime Demo.backend p Demo.w0 Demo.w0
           self stmt eq_refl).
Defined.

Lemma other_tables_untouched_witness :
  "somelog" <> p_table Demo.absent_bla /\
  dget (w_db (snd (Demo.run Demo.absent_bla Demo.w_two))) "somelog" =
    Some [[("logtext", VStr "kept")]].
Proof.
  assert (N : "somelog" <> p_table Demo.absent_bla) by discriminate.
  split; [exact N |].
  exact (eq_trans (@other_tables_untouched Demo.runtime Demo.backend Demo.absent_bla
                     Demo.w_two "somelog" N) eq_refl).
Defined.

Lemma insert_adds_one_row_witness :
  let p := Demo.insert_log in
  let self := Demo.made p Demo.w0 in
  let read := Demo.reading p Demo.w0 in
  let run := Demo.run p Demo.w0 in
  p_state p = insert /\
  new_values self = [("col1", VStr "log"); ("col2", VInt 7)] /\
  dget (w_db (snd run)) (p_table p) = Some (Demo.test_rows ++ [new_values self])%list /\
  executed Demo.w0 (snd run) = [read; insert_statement self; read].
Proof.
  intros p self read run.
  destruct (@insert_adds_one_row Demo.runtime Demo.backend p Demo.w0 Demo.w0 self read
              Demo.test_rows eq_refl eq_refl eq_refl eq_refl) as (T & X & _).
  split; [reflexivity |]. split; [reflexivity |]. split; [exact T | exact X].
Defined.

Lemma absent_removes_matching_rows_witness :
  let p := Demo.absent_bla in
  let self := Demo.made p Demo.w0 in
  let read := Demo.reading p Demo.w0 in
  let after := @kept Demo.backend (s_where read) Demo.test_rows in
  p_state p = absent /\ check_mode p = false /\
  after = [[("col1", VStr "blubb"); ("col2", VInt 21); ("col3", VNone)]] /\
  dget (w_db (snd (Demo.run p Demo.w0))) (p_table p) = Some after /\
  @select_result Demo.backend read after = [].
Proof.
  intros p self read after.
  destruct (@absent_removes_matching_rows Demo.runtime Demo.backend p Demo.w0 Demo.w0
              self read Demo.test_rows eq_refl eq_refl eq_refl eq_refl eq_refl)
    as (T & _ & R & _).
  split; [reflexivity |]. split; [reflexivity |]. split; [reflexivity |].
  split; [exact T | exact R].
Defined.

Lemma absent_without_keys_empties_table_witness :
  let p := Demo.absent_all in
  p_state p = absent /\ p_keys p = [] /\ p_filter p = [] /\
  exists changed w',
    Demo.run p Demo.w0 = (Ok (changed, None), w') /\
    (changed = true <-> Demo.test_rows <> []) /\
    dget (w_db w') (p_table p) = Some [].
Proof.
  intros p. split; [reflexivity |]. split; [reflexivity |]. split; [reflexivity |].
  apply (@absent_without_keys_empties_table Demo.runtime Demo.backend p Demo.w0 Demo.w0
           (Demo.made p Demo.w0) Demo.test_rows); reflexivity.
Defined.

Lemma absent_twice_witness :
  let p := Demo.absent_bla in
  let w1 := snd (Demo.run p Demo.w0) in
  Demo.run p Demo.w0 = (Ok (true, None), w1) /\
  exists w2, Demo.run p w1 = (Ok (false, None), w2) /\ w_db w2 = w_db w1.
Proof.
  intros p w1. split; [reflexivity |].
  apply (@absent_twice Demo.runtime Demo.backend p Demo.w0 w1 (true, None)); reflexivity.
Defined.

Lemma present_changes_declared_cells_only_witness :
  let p := Demo.present_blubb in
  p_state p = present /\ check_mode p = false /\
  exists self wa read stored stored',
    @create_table Demo.runtime p Demo.w0 = (Ok self, wa) /\
    @read_statement Demo.backend self p = Ok read /\
    dget (w_db Demo.w0) (p_table p) = Some stored /\
    dget (w_db Demo.after_first) (p_table p) = Some stored' /\
    (@select_result Demo.backend read stored <> [] -> length stored' = length stored).
Proof.
  intros p. split; [reflexivity |]. split; [reflexivity |].
  destruct (@present_changes_declared_cells_only Demo.runtime Demo.backend p Demo.w0
              Demo.after_first (true, Some [[("col1", VStr "blubb"); ("col2", VInt 1)]])
              eq_refl eq_refl eq_refl)
    as (self & wa & read & stored & stored' & CT & RS & G & G' & _ & U).
  exists self, wa, read, stored, stored'.
  do 4 (split; [assumption |]). intros NE. exact (proj1 (U NE)).
Defined.


Lemma create_table_declares_witness :
  let p := Demo.insert_log in
  let self := Demo.made p Demo.w0 in
  NoDup (map arg_name (p_columns p)) /\
  @create_table Demo.runtime p Demo.w0 = (Ok self, Demo.w0) /\
  keys self = [] /\
  table self = {| t_name := "test"; t_columns := ["col1"; "col2"] |} /\
  dkeys (new_values self) = ["col1"; "col2"].
Proof.
  intros p self.
  assert (ND : NoDup (map arg_name (p_columns p))).
  { apply NoDup_cons; [intros [H | []]; discriminate |].
    apply NoDup_cons; [intros [] | apply NoDup_nil]. }
  destruct (@create_table_declares Demo.runtime p Demo.w0 Demo.w0 self ND eq_refl)
    as (K & T & D & _).
  split; [exact ND |]. split; [reflexivity |].
  split; [exact K |]. split; [exact T | exact D].
Defined.




Lemma present_check_mode_answer_witness :
  let p := Demo.present_bare in
  p_state p = present /\ check_mode p = true /\
  fst (Demo.run p Demo.w0) = Ok (false, Some []) /\
  @desired_state Demo.runtime p Demo.w0 = Ok [].
Proof.
  intros p. split; [reflexivity |]. split; [reflexivity |]. split; [reflexivity |].
  apply (@present_check_mode_answer Demo.runtime Demo.backend p Demo.w0
           (snd (Demo.run p Demo.w0)) false (Some []) eq_refl eq_refl eq_refl).
Defined.

Lemma fail_json_only_before_setup_witness :
  let w := World [] 0 [] in
  let out := @main Demo.runtime Demo.backend true Demo.select_blubb w in
  fst out = Err (FailJson "table does not exist") /\
  snd out = w /\ dmem (w_db w) (p_table Demo.select_blubb) = false.
Proof.
  intros w out.
  destruct (@fail_json_only_before_setup Demo.runtime Demo.backend true Demo.select_blubb w
              (FailJson "table does not exist") eq_refl)
    as [(e & E) | (W & [(H & _) | (_ & D & _)])]; try discriminate.
  split; [reflexivity |]. split; [exact W | exact D].
Defined.
